(** * GstreamerPipeline.h: the appsrc/appsink bridge of Quad3DR

    A shallow embedding of [video/include/ait/video/GstreamerPipeline.h]:
    the buffer wrappers, the single-producer/single-consumer queue, the
    correspondence queue [AppSrcSinkQueue] and the supervising
    [GstreamerPipeline] with its watchdog.

    Conventions of the embedding.
    - Machine integers are [Z] with the wrap-around written out.
    - A member function becomes a function from the object's state to an
      [Outcome]: it returns, throws, stays inside a wait loop, or runs
      into undefined behaviour of C++ ([front()] of an empty deque).
    - Everything the outside world decides (what the pipeline hands to the
      appsink, what [gst_app_src_push_buffer] answers, what the clocks
      show, what the consumer thread does while the producer sleeps) is an
      explicit argument.
    - The diagnostic rate and byte counters ([ait::RateCounter]) are left
      out: they never influence control flow.  The [getSize()] call next to
      them is kept, because mapping a buffer can throw. *)

From Stdlib Require Import ZArith List Bool String Lia Arith Sorted.
Import ListNotations.
Local Open Scope Z_scope.

(* ===================================================================== *)
(** ** Machine integers *)

(** [unsigned int]: 32 bits. *)
Definition wrap32 (z : Z) : Z := z mod 2 ^ 32.

(** [guint64]. *)
Definition wrap64 (z : Z) : Z := z mod 2 ^ 64.

(** [static_cast<int>(x)] of a 64-bit unsigned value: the low 32 bits,
    read as two's complement. *)
Definition static_cast_int (z : Z) : Z := (z + 2 ^ 31) mod 2 ^ 32 - 2 ^ 31.

(** Usual arithmetic conversion of an [int] that is compared with a
    [guint64]. *)
Definition int_to_guint64 (i : Z) : Z := i mod 2 ^ 64.

Definition GST_CLOCK_TIME_NONE : Z := 2 ^ 64 - 1.
Definition GST_BUFFER_OFFSET_NONE : Z := 2 ^ 64 - 1.
Definition GST_SECOND : Z := 1000000000.

(* ===================================================================== *)
(** ** Outcomes of a call *)

Inductive Exception : Type :=
| std_runtime_error (what : string)
| GstBufferWrapper_Error (what : string)
| AppSrcSinkQueue_Error (what : string).

Inductive Outcome (S A : Type) : Type :=
| Returns (a : A) (s : S)       (* normal return, with the state left behind *)
| Throws (e : Exception) (s : S) (* an exception leaves the function *)
| Blocked (s : S)               (* the call is still waiting on a condition *)
| Undefined.                    (* undefined behaviour *)

Arguments Returns {S A} a s.
Arguments Throws {S A} e s.
Arguments Blocked {S A} s.
Arguments Undefined {S A}.

(** A computation over a state [S]. *)
Definition M (S A : Type) : Type := S -> Outcome S A.

Definition ret {S A} (a : A) : M S A := fun s => Returns a s.

Definition bind {S A B} (m : M S A) (k : A -> M S B) : M S B :=
  fun s =>
    match m s with
    | Returns a s' => k a s'
    | Throws e s' => Throws e s'
    | Blocked s' => Blocked s'
    | Undefined => Undefined
    end.

Definition throw {S A} (e : Exception) : M S A := fun s => Throws e s.
Definition get {S} : M S S := fun s => Returns s s.
Definition modify {S} (f : S -> S) : M S unit := fun s => Returns tt (f s).

Declare Scope cpp_scope.
Delimit Scope cpp_scope with cpp.
Notation "x <- m ;; k" := (bind m (fun x => k))
  (at level 61, m at next level, right associativity) : cpp_scope.
Notation "m ;;; k" := (bind m (fun _ => k))
  (at level 61, right associativity) : cpp_scope.

(** Run a computation of a component inside the state of its owner. *)
Definition zoom {S T A} (proj : S -> T) (upd : T -> S -> S) (m : M T A) : M S A :=
  fun s =>
    match m (proj s) with
    | Returns a t => Returns a (upd t s)
    | Throws e t => Throws e (upd t s)
    | Blocked t => Blocked (upd t s)
    | Undefined => Undefined
    end.

(* ===================================================================== *)
(** ** GstWrapper and GstBufferWrapper: ownership and mapping flags *)

Module Wrapper.

(** Address of a native [GstBuffer]. *)
Definition GstBufferPtr := nat.

(** [GstMapInfo], as far as the wrapper reads it. *)
Record GstMapInfo : Type := mkMapInfo { data : Z; size : Z }.

Inductive GstMapFlags : Type :=
| GST_MAP_READ
| GST_MAP_WRITE.

(** Calls into GStreamer that a wrapper makes. *)
Inductive GstCall : Type :=
| gst_buffer_map (p : option GstBufferPtr) (flags : GstMapFlags)
| gst_buffer_unmap (p : option GstBufferPtr)
| gst_buffer_unref (p : GstBufferPtr).

(** The fields of [GstBufferWrapper]; [ptr_] is inherited from
    [GstWrapper<GstBuffer>], [None] is [nullptr].  [info_] is [None] as long
    as nothing was ever written to it. *)
Record GstBufferWrapper : Type := mkWrapper {
  ptr_ : option GstBufferPtr;
  info_ : option GstMapInfo;
  mapped_ : bool;
  mapped_writable_ : bool;
  owns_buffer_ : bool
}.

(** [GstBufferWrapper(GstBuffer* ptr, bool owns_buffer)]. *)
Definition construct (ptr : option GstBufferPtr) (owns_buffer : bool) : GstBufferWrapper :=
  mkWrapper ptr None false false owns_buffer.

(** [unmap()]. *)
Definition unmap (w : GstBufferWrapper) : GstBufferWrapper * list GstCall :=
  (mkWrapper (ptr_ w) (info_ w) false false (owns_buffer_ w),
   [gst_buffer_unmap (ptr_ w)]).

(** [map()]; [answer] is the map info [gst_buffer_map] fills in, [None]
    when it does not return [TRUE].  The result carries the calls made. *)
Definition map (answer : option GstMapInfo) : M GstBufferWrapper (list GstCall) :=
  fun w =>
    if mapped_ w then Returns [] w
    else
      match answer with
      | None => Throws (GstBufferWrapper_Error "Unable to map Gstreamer buffer") w
      | Some i =>
          Returns [gst_buffer_map (ptr_ w) GST_MAP_READ]
                  (mkWrapper (ptr_ w) (Some i) true (mapped_writable_ w) (owns_buffer_ w))
      end.

(** [mapWritable()]. *)
Definition mapWritable (answer : option GstMapInfo) : M GstBufferWrapper (list GstCall) :=
  fun w =>
    if mapped_writable_ w then Returns [] w
    else
      let (w1, c1) := if mapped_ w then unmap w else (w, []) in
      match answer with
      | None => Throws (GstBufferWrapper_Error "Unable to map writable Gstreamer buffer") w1
      | Some i =>
          Returns (c1 ++ [gst_buffer_map (ptr_ w1) GST_MAP_WRITE])
                  (mkWrapper (ptr_ w1) (Some i) true true (owns_buffer_ w1))
      end.

(** [GstBufferWrapper::unref()]. *)
Definition unref (w : GstBufferWrapper) : GstBufferWrapper * list GstCall :=
  match ptr_ w with
  | Some p =>
      let (w1, c1) := if mapped_ w then unmap w else (w, []) in
      (w1, c1 ++ (if owns_buffer_ w1 then [gst_buffer_unref p] else []))
  | None => (w, [])
  end.

(** [~GstBufferWrapper()]: the calls made when the wrapper is dropped. *)
Definition destroy (w : GstBufferWrapper) : list GstCall := snd (unref w).

(** Move constructor: [GstWrapper(GstWrapper&&)] takes the pointer and
    nulls it in [other]; the body then copies four fields.  Returns the new
    wrapper and what is left of [other]. *)
Definition move_construct (other : GstBufferWrapper) : GstBufferWrapper * GstBufferWrapper :=
  let other' := mkWrapper None (info_ other) (mapped_ other)
                          (mapped_writable_ other) (owns_buffer_ other) in
  (mkWrapper (ptr_ other) (info_ other') (mapped_ other')
             (mapped_writable_ other') (owns_buffer_ other'),
   other').

(** Move assignment: [GstWrapper::operator=] first calls the virtual
    [unref()] of the destination, then takes the pointer; the body copies
    [owns_buffer_], [info_] and [mapped_], and nothing else. *)
Definition move_assign (this other : GstBufferWrapper)
  : GstBufferWrapper * GstBufferWrapper * list GstCall :=
  let (this1, calls) := unref this in
  let other' := mkWrapper None (info_ other) (mapped_ other)
                          (mapped_writable_ other) (owns_buffer_ other) in
  (mkWrapper (ptr_ other) (info_ other') (mapped_ other')
             (mapped_writable_ this1) (owns_buffer_ other'),
   other', calls).

(** A buffer that was mapped for writing ([getDataWritable()] on a new
    owning wrapper), and a fresh one. *)
Definition writable_source : GstBufferWrapper :=
  match mapWritable (Some (mkMapInfo 4096 16)) (construct (Some 7%nat) true) with
  | Returns _ w => w
  | _ => construct (Some 7%nat) true
  end.

Definition fresh_destination : GstBufferWrapper := construct (Some 3%nat) true.

End Wrapper.

(* ===================================================================== *)
(** ** SPSCFixedQueue<T> *)

(** The members of [SPSCFixedQueue].  The mutex has no state of its own in
    this model; the two condition variables are represented by the number
    of [notify_one()] calls made on each. *)
Record SPSCFixedQueue (T : Type) : Type := mkSPSC {
  queue_ : list T;
  max_queue_size_ : nat;
  discard_everything_ : bool;
  queue_filled_notified : nat;
  queue_space_available_notified : nat
}.

Arguments mkSPSC {T}.
Arguments queue_ {T}.
Arguments max_queue_size_ {T}.
Arguments discard_everything_ {T}.
Arguments queue_filled_notified {T}.
Arguments queue_space_available_notified {T}.

(** What another thread can do to the queue while a blocking [pushBack]
    sleeps in [wait_for]: nothing before the 100 ms run out, a [popFront],
    a [setDiscardEverything], a [clear]. *)
Inductive WaitEvent : Type :=
| WTimeout
| WPopFront
| WSetDiscardEverything (b : bool)
| WClear.

Section SPSCFixedQueue_ops.
Context {T : Type}.
Implicit Type q : SPSCFixedQueue T.

(** [SPSCFixedQueue(unsigned int max_queue_size = 5)]. *)
Definition SPSC_new (max_queue_size : nat) : SPSCFixedQueue T :=
  mkSPSC [] max_queue_size false 0%nat 0%nat.

Definition set_queue_ (l : list T) q : SPSCFixedQueue T :=
  mkSPSC l (max_queue_size_ q) (discard_everything_ q)
         (queue_filled_notified q) (queue_space_available_notified q).

Definition setDiscardEverything (discard_everything : bool) q : SPSCFixedQueue T :=
  mkSPSC (queue_ q) (max_queue_size_ q) discard_everything
         (queue_filled_notified q) (queue_space_available_notified q).

Definition notify_queue_filled q : SPSCFixedQueue T :=
  mkSPSC (queue_ q) (max_queue_size_ q) (discard_everything_ q)
         (S (queue_filled_notified q)) (queue_space_available_notified q).

Definition notify_queue_space_available q : SPSCFixedQueue T :=
  mkSPSC (queue_ q) (max_queue_size_ q) (discard_everything_ q)
         (queue_filled_notified q) (S (queue_space_available_notified q)).

Definition empty q : bool := match queue_ q with [] => true | _ => false end.
Definition size q : nat := List.length (queue_ q).
Definition clear q : SPSCFixedQueue T := set_queue_ [] q.

(** [popFrontWithoutLocking()]: [front()] and [pop_front()] of an empty
    deque are undefined. *)
Definition popFrontWithoutLocking : M (SPSCFixedQueue T) T :=
  fun q =>
    match queue_ q with
    | [] => Undefined
    | element :: rest =>
        Returns element (notify_queue_space_available (set_queue_ rest q))
    end.

(** [popFront(const std::unique_lock<TMutex>& lock)]; [owns_lock] is
    [bool(lock)]. *)
Definition popFront_unique_lock (owns_lock : bool) : M (SPSCFixedQueue T) T :=
  if negb owns_lock
  then throw (std_runtime_error "Lock has not been acquired")
  else popFrontWithoutLocking.

(** [popFront(const std::lock_guard<TMutex>& lock)]. *)
Definition popFront_lock_guard : M (SPSCFixedQueue T) T := popFrontWithoutLocking.

(** [popFront()]. *)
Definition popFront : M (SPSCFixedQueue T) T := popFrontWithoutLocking.

(** The loop condition of the blocking [pushBack]. *)
Definition must_wait q : bool :=
  (max_queue_size_ q <=? size q)%nat && negb (discard_everything_ q).

(** One action of another thread on the queue. *)
Definition wait_event (ev : WaitEvent) : M (SPSCFixedQueue T) unit :=
  match ev with
  | WTimeout => ret tt
  | WPopFront => bind popFront (fun _ => ret tt)
  | WSetDiscardEverything b => modify (setDiscardEverything b)
  | WClear => modify clear
  end.

(** [while (queue_.size() >= max_queue_size_ && !discard_everything_)
    wait_for(...)].  Each round of the loop lets one event of [env]
    happen; when [env] is used up and the condition still holds the
    producer is still waiting. *)
Fixpoint wait_for_space (env : list WaitEvent) q {struct env}
  : Outcome (SPSCFixedQueue T) unit :=
  if must_wait q then
    match env with
    | [] => Blocked q
    | ev :: env' =>
        match wait_event ev q with
        | Returns _ q' => wait_for_space env' q'
        | Throws e q' => Throws e q'
        | Blocked q' => Blocked q'
        | Undefined => Undefined
        end
    end
  else Returns tt q.

(** [pushBack(T& element, bool block = false)]. *)
Definition pushBack (element : T) (block : bool) (env : list WaitEvent)
  : M (SPSCFixedQueue T) bool :=
  if block then
    (_ <- wait_for_space env ;;
     q <- get ;;
     if discard_everything_ q then ret false
     else
       modify (fun q => notify_queue_filled (set_queue_ (queue_ q ++ [element]) q)) ;;;
       ret true)%cpp
  else
    (q <- get ;;
     if (size q <? max_queue_size_ q)%nat then
       modify (fun q => notify_queue_filled (set_queue_ (queue_ q ++ [element]) q)) ;;;
       ret true
     else ret false)%cpp.

End SPSCFixedQueue_ops.

(* ===================================================================== *)
(** ** Native buffers, as far as the bridge looks at them *)

(** A [GstBuffer] together with the wrapper that owns it: payload, the
    timing fields the [GST_BUFFER_*] macros access, the correspondence
    meta, and whether [gst_buffer_map] succeeds on it.  A deep copy
    ([gst_buffer_copy_deep]) is an equal value. *)
Record GstBuffer : Type := mkBuffer {
  buffer_data : list Byte.byte;
  GST_BUFFER_PTS : Z;
  GST_BUFFER_DTS : Z;
  GST_BUFFER_DURATION : Z;
  GST_BUFFER_OFFSET : Z;
  GST_BUFFER_OFFSET_END : Z;
  correspondence_meta : option Z;
  mappable : bool
}.

(** Modelled from the spec: [GstreamerBufferInfo] is declared outside the
    two source files at hand.  It is the timing snapshot of a pending
    entry, [{presentation_ts, decode_ts, duration, sequence_offset}]; the
    fields are the ones [pushData] fills in, each a [guint64] like the
    buffer field it is copied from. *)
Record GstreamerBufferInfo : Type := mkInfo {
  pts : Z;
  dts : Z;
  duration : Z;
  offset : Z;
  offset_end : Z
}.

(** Modelled from the spec: [gst_buffer_add_correspondence_meta] (from
    [GstMetaCorrespondence.h], not at hand) stamps an integer
    correspondence id onto a buffer. *)
Definition gst_buffer_add_correspondence_meta (b : GstBuffer) (id : Z) : GstBuffer :=
  mkBuffer (buffer_data b) (GST_BUFFER_PTS b) (GST_BUFFER_DTS b)
           (GST_BUFFER_DURATION b) (GST_BUFFER_OFFSET b)
           (GST_BUFFER_OFFSET_END b) (Some id) (mappable b).

(** Modelled from the spec: [gst_buffer_correspondence_meta_has] and
    [gst_buffer_correspondence_meta_get_id] read the id back. *)
Definition gst_buffer_correspondence_meta_has (b : GstBuffer) : bool :=
  match correspondence_meta b with Some _ => true | None => false end.

Definition gst_buffer_correspondence_meta_get_id (b : GstBuffer) : Z :=
  match correspondence_meta b with Some id => id | None => 0 end.

(** The five assignments [GST_BUFFER_PTS(buffer.get()) = ...] etc. *)
Definition set_timing (b : GstBuffer) (p d du o oe : Z) : GstBuffer :=
  mkBuffer (buffer_data b) p d du o oe (correspondence_meta b) (mappable b).

Definition buffer_info_of (b : GstBuffer) : GstreamerBufferInfo :=
  mkInfo (GST_BUFFER_PTS b) (GST_BUFFER_DTS b) (GST_BUFFER_DURATION b)
         (GST_BUFFER_OFFSET b) (GST_BUFFER_OFFSET_END b).

Definition stamp (b : GstBuffer) (i : GstreamerBufferInfo) : GstBuffer :=
  set_timing b (pts i) (dts i) (duration i) (offset i) (offset_end i).

Inductive GstFlowReturn : Type :=
| GST_FLOW_OK
| GST_FLOW_NOT_LINKED
| GST_FLOW_FLUSHING
| GST_FLOW_EOS
| GST_FLOW_NOT_NEGOTIATED
| GST_FLOW_ERROR
| GST_FLOW_NOT_SUPPORTED.

Definition is_GST_FLOW_OK (r : GstFlowReturn) : bool :=
  match r with GST_FLOW_OK => true | _ => false end.

(** The appsrc element, seen from the bridge: the buffers handed to
    [gst_app_src_push_buffer], oldest first. *)
Definition GstAppSrc : Type := list GstBuffer.

(** What [gst_app_sink_pull_sample] gives the callback: no sample (with the
    answer of [gst_app_sink_is_eos]), or a sample with its buffer and
    whether [gst_buffer_copy_deep] will succeed on it. *)
Inductive PullResult : Type :=
| PullNull (is_eos : bool)
| PullSample (buffer : GstBuffer) (copy_ok : bool).

(** Lines written to [std::cout] and [std::cerr]. *)
Inductive LogMsg : Type :=
| WarnUserDataQueueFull
| WarnNoCorrespondence
| WarnOutputQueueFull
| InfoReceivedEOS
| ErrUserDataQueueEmpty
| WarnWatchdogActivated
| InfoStopping
| InfoInitialized.

(* ===================================================================== *)
(** ** AppSrcSinkQueue<TUserData> *)

Inductive DiscardMode : Type :=
| DISCARD_INPUT_FRAMES
| DISCARD_OUTPUT_FRAMES.

Definition DiscardMode_eqb (a b : DiscardMode) : bool :=
  match a, b with
  | DISCARD_INPUT_FRAMES, DISCARD_INPUT_FRAMES => true
  | DISCARD_OUTPUT_FRAMES, DISCARD_OUTPUT_FRAMES => true
  | _, _ => false
  end.

Definition FRAME_DROP_REPORT_RATE : Z := 10.
Definition CORRESPONDENCE_FAIL_REPORT_RATE : Z := 5.
Definition MAX_USER_DATA_QUEUE_SIZE : nat := 100.
Arguments MAX_USER_DATA_QUEUE_SIZE : simpl never.

(** The members of [AppSrcSinkQueue]; [base] is the inherited
    [SPSCFixedQueue<std::tuple<GstBufferWrapper, TUserData>>], [cout] the
    console output so far. *)
Record AppSrcSinkQueue (U : Type) : Type := mkASQ {
  base : SPSCFixedQueue (GstBuffer * U);
  user_data_queue_ : list (GstreamerBufferInfo * U);
  src_overflow_counter_ : Z;
  sink_overflow_counter_ : Z;
  correspondence_fail_counter_ : Z;
  max_input_queue_size_ : nat;
  discard_mode_ : DiscardMode;
  cout : list LogMsg
}.

Arguments mkASQ {U}.
Arguments base {U}.
Arguments user_data_queue_ {U}.
Arguments src_overflow_counter_ {U}.
Arguments sink_overflow_counter_ {U}.
Arguments correspondence_fail_counter_ {U}.
Arguments max_input_queue_size_ {U}.
Arguments discard_mode_ {U}.
Arguments cout {U}.

(** Result of the [do ... while] loop that looks for the pending entry of
    a correspondence id. *)
Inductive MatchResult (U : Type) : Type :=
| MatchFound (tuple : GstreamerBufferInfo * U) (rest : list (GstreamerBufferInfo * U))
| MatchThrow (rest : list (GstreamerBufferInfo * U))
| MatchUndefined.

Arguments MatchFound {U}.
Arguments MatchThrow {U}.
Arguments MatchUndefined {U}.

Section AppSrcSinkQueue_ops.
Context {U : Type}.
Implicit Type q : AppSrcSinkQueue U.

(** [AppSrcSinkQueue(discard_mode, max_output_queue_size = 5,
    max_input_queue_size = 3)]. *)
Definition ASQ_new (discard_mode : DiscardMode) (max_output_queue_size max_input_queue_size : nat)
  : AppSrcSinkQueue U :=
  mkASQ (SPSC_new max_output_queue_size) [] 0 0 0 max_input_queue_size discard_mode [].

Definition set_base (b : SPSCFixedQueue (GstBuffer * U)) q : AppSrcSinkQueue U :=
  mkASQ b (user_data_queue_ q) (src_overflow_counter_ q) (sink_overflow_counter_ q)
        (correspondence_fail_counter_ q) (max_input_queue_size_ q) (discard_mode_ q) (cout q).

Definition set_user_data_queue_ (l : list (GstreamerBufferInfo * U)) q : AppSrcSinkQueue U :=
  mkASQ (base q) l (src_overflow_counter_ q) (sink_overflow_counter_ q)
        (correspondence_fail_counter_ q) (max_input_queue_size_ q) (discard_mode_ q) (cout q).

Definition set_src_overflow_counter_ (c : Z) q : AppSrcSinkQueue U :=
  mkASQ (base q) (user_data_queue_ q) c (sink_overflow_counter_ q)
        (correspondence_fail_counter_ q) (max_input_queue_size_ q) (discard_mode_ q) (cout q).

Definition set_sink_overflow_counter_ (c : Z) q : AppSrcSinkQueue U :=
  mkASQ (base q) (user_data_queue_ q) (src_overflow_counter_ q) c
        (correspondence_fail_counter_ q) (max_input_queue_size_ q) (discard_mode_ q) (cout q).

Definition set_correspondence_fail_counter_ (c : Z) q : AppSrcSinkQueue U :=
  mkASQ (base q) (user_data_queue_ q) (src_overflow_counter_ q) (sink_overflow_counter_ q)
        c (max_input_queue_size_ q) (discard_mode_ q) (cout q).

Definition print (m : LogMsg) q : AppSrcSinkQueue U :=
  mkASQ (base q) (user_data_queue_ q) (src_overflow_counter_ q) (sink_overflow_counter_ q)
        (correspondence_fail_counter_ q) (max_input_queue_size_ q) (discard_mode_ q)
        (cout q ++ [m]).

(** [++src_overflow_counter_; if (src_overflow_counter_ >=
    FRAME_DROP_REPORT_RATE) { warn; src_overflow_counter_ = 0; }]. *)
Definition count_src_overflow q : AppSrcSinkQueue U :=
  let q1 := set_src_overflow_counter_ (wrap32 (src_overflow_counter_ q + 1)) q in
  if FRAME_DROP_REPORT_RATE <=? src_overflow_counter_ q1
  then set_src_overflow_counter_ 0 (print WarnUserDataQueueFull q1)
  else q1.

(** The same pattern on [sink_overflow_counter_]. *)
Definition count_sink_overflow q : AppSrcSinkQueue U :=
  let q1 := set_sink_overflow_counter_ (wrap32 (sink_overflow_counter_ q + 1)) q in
  if FRAME_DROP_REPORT_RATE <=? sink_overflow_counter_ q1
  then set_sink_overflow_counter_ 0 (print WarnOutputQueueFull q1)
  else q1.

(** The same pattern on [correspondence_fail_counter_]. *)
Definition count_correspondence_fail q : AppSrcSinkQueue U :=
  let q1 := set_correspondence_fail_counter_ (wrap32 (correspondence_fail_counter_ q + 1)) q in
  if CORRESPONDENCE_FAIL_REPORT_RATE <=? correspondence_fail_counter_ q1
  then set_correspondence_fail_counter_ 0 (print WarnNoCorrespondence q1)
  else q1.

(** The block under [if (user_data_queue_.size() >=
    MAX_USER_DATA_QUEUE_SIZE)]: [pop_front()] and count. *)
Definition evict_oldest q : AppSrcSinkQueue U :=
  count_src_overflow (set_user_data_queue_ (tl (user_data_queue_ q)) q).

(** [pushData(appsrc, buffer, user_data)]; [push_ret] is what
    [gst_app_src_push_buffer] answers.  The state is the queue together
    with the appsrc it pushes into. *)
Definition pushData (push_ret : GstFlowReturn) (buffer : GstBuffer) (user_data : U)
  : M (AppSrcSinkQueue U * GstAppSrc) bool :=
  fun '(q, appsrc) =>
    if DiscardMode_eqb (discard_mode_ q) DISCARD_INPUT_FRAMES
       && (max_input_queue_size_ q <=? List.length (user_data_queue_ q))%nat
    then Returns false (q, appsrc)
    else
      let appsrc := appsrc ++ [buffer] in
      if is_GST_FLOW_OK push_ret then
        let q1 := if (MAX_USER_DATA_QUEUE_SIZE <=? List.length (user_data_queue_ q))%nat
                  then evict_oldest q else q in
        let q2 := set_user_data_queue_
                    (user_data_queue_ q1 ++ [(buffer_info_of buffer, user_data)]) q1 in
        (* input_byte_counter_ += buffer.getSize(): maps the buffer *)
        if mappable buffer
        then Returns true (q2, appsrc)
        else Throws (GstBufferWrapper_Error "Unable to map Gstreamer buffer") (q2, appsrc)
      else Returns false (q, appsrc).

(** The loop
    [do { tuple = front; pop_front; if (id < tuple.offset) throw; }
     while (id > tuple.offset);]
    with [id] already converted to [guint64].  [newSampleCallback] enters
    it with a non-empty queue; when the loop empties the queue without
    finding the id, the next [front()] is undefined. *)
Fixpoint match_user_data (id : Z) (l : list (GstreamerBufferInfo * U)) : MatchResult U :=
  match l with
  | [] => MatchUndefined
  | tuple :: rest =>
      if id <? offset (fst tuple) then MatchThrow rest
      else if offset (fst tuple) <? id then match_user_data id rest
      else MatchFound tuple rest
  end.

(** The end of [newSampleCallback]: [Base::pushBack(output_tuple, block)]
    with [block = discard_mode_ != DISCARD_OUTPUT_FRAMES], and the drop
    count when the push fails. *)
Definition publish (output_tuple : GstBuffer * U) (env : list WaitEvent)
  : M (AppSrcSinkQueue U) GstFlowReturn :=
  fun q =>
    let block := negb (DiscardMode_eqb (discard_mode_ q) DISCARD_OUTPUT_FRAMES) in
    match pushBack output_tuple block env (base q) with
    | Returns true b => Returns GST_FLOW_OK (set_base b q)
    | Returns false b => Returns GST_FLOW_OK (count_sink_overflow (set_base b q))
    | Throws e b => Throws e (set_base b q)
    | Blocked b => Blocked (set_base b q)
    | Undefined => Undefined
    end.

(** [newSampleCallback(appsink)], compiled with [SIMULATE_ZED] off. *)
Definition newSampleCallback (pull : PullResult) (env : list WaitEvent)
  : M (AppSrcSinkQueue U) GstFlowReturn :=
  fun q =>
    match pull with
    | PullNull is_eos =>
        if is_eos then Returns GST_FLOW_OK (print InfoReceivedEOS q)
        else Throws (std_runtime_error "Unable to pull new sample from appsink") q
    | PullSample buffer copy_ok =>
        let correspondence_id :=
          if negb (gst_buffer_correspondence_meta_has buffer) then -1
          else gst_buffer_correspondence_meta_get_id buffer in
        if correspondence_id =? -1 then
          Returns GST_FLOW_OK (count_correspondence_fail q)
        else if negb copy_ok then
          Throws (AppSrcSinkQueue_Error "Unable to copy Gstreamer buffer") q
        else if negb (mappable buffer) then
          (* output_byte_counter_ += buffer.getSize() *)
          Throws (GstBufferWrapper_Error "Unable to map Gstreamer buffer") q
        else
          match user_data_queue_ q with
          | [] => Returns GST_FLOW_OK (print ErrUserDataQueueEmpty q)
          | _ :: _ =>
              match match_user_data (int_to_guint64 correspondence_id) (user_data_queue_ q) with
              | MatchUndefined => Undefined
              | MatchThrow rest =>
                  Throws (AppSrcSinkQueue_Error
                            "Correspondence id is smaller than first element in user data queue")
                         (set_user_data_queue_ rest q)
              | MatchFound tuple rest =>
                  publish (stamp buffer (fst tuple), snd tuple) env
                          (set_user_data_queue_ rest q)
              end
          end
    end.

(** The state an outcome leaves behind, if any. *)
Definition state_of {S A} (o : Outcome S A) : option S :=
  match o with
  | Returns _ s | Throws _ s | Blocked s => Some s
  | Undefined => None
  end.

(** The states an [AppSrcSinkQueue] (with the appsrc it feeds) can get
    into: built by the constructor, then changed by the calls the pipeline
    and its consumer make, however each call ends. *)
Inductive ASQ_reachable : AppSrcSinkQueue U * GstAppSrc -> Prop :=
| reach_new mode out_max in_max :
    ASQ_reachable (ASQ_new mode out_max in_max, [])
| reach_pushData s s' push_ret buffer user_data :
    ASQ_reachable s ->
    state_of (pushData push_ret buffer user_data s) = Some s' ->
    ASQ_reachable s'
| reach_newSampleCallback q q' appsrc pull env :
    ASQ_reachable (q, appsrc) ->
    state_of (newSampleCallback pull env q) = Some q' ->
    ASQ_reachable (q', appsrc)
| reach_popFront q b' appsrc :
    ASQ_reachable (q, appsrc) ->
    state_of (popFront (base q)) = Some b' ->
    ASQ_reachable (set_base b' q, appsrc)
| reach_setDiscardEverything q appsrc flag :
    ASQ_reachable (q, appsrc) ->
    ASQ_reachable (set_base (setDiscardEverything flag (base q)) q, appsrc)
| reach_clear q appsrc :
    ASQ_reachable (q, appsrc) ->
    ASQ_reachable (set_base (clear (base q)) q, appsrc).

End AppSrcSinkQueue_ops.

Arguments pushData : simpl never.
Arguments newSampleCallback : simpl never.

(* ===================================================================== *)
(** ** GstreamerPipeline<TUserData> *)

Inductive GstState : Type :=
| GST_STATE_VOID_PENDING
| GST_STATE_NULL
| GST_STATE_READY
| GST_STATE_PAUSED
| GST_STATE_PLAYING.

Inductive GstStateChangeReturn : Type :=
| GST_STATE_CHANGE_FAILURE
| GST_STATE_CHANGE_SUCCESS
| GST_STATE_CHANGE_ASYNC
| GST_STATE_CHANGE_NO_PREROLL.

(** The native pipeline behind [pipeline_], seen from the supervisor: the
    states requested with [gst_element_set_state], oldest first. *)
Definition GstPipeline : Type := list GstState.

Definition WATCHDOG_RESET_COUNT : Z := 10.

(** [std::chrono::seconds(2)]; time points of [clock] are counted in
    nanoseconds. *)
Definition WATCHDOG_TIMEOUT : Z := 2 * 1000000000.

(** [static_cast<guint64>(GST_SECOND * frame_period)] with
    [frame_period = 1 / 10.]. *)
Definition gst_frame_period : Z := 100000000.

(** The members of [GstreamerPipeline].  [pipeline_ = None] is [nullptr].
    [message_thread_joinable] is [message_thread_.joinable()];
    [time_previous] is the function-local [static] of [pushInput], [None]
    before its initialisation. *)
Record GstreamerPipeline (U : Type) : Type := mkPipe {
  pipeline_ : option GstPipeline;
  appsrc_ : GstAppSrc;
  appsrcsink_queue_ : AppSrcSinkQueue U;
  frame_counter_ : Z;
  watchdog_counter_ : Z;
  last_appsink_sample_time_ : Z;
  delivering_appsink_sample_ : bool;
  terminate_ : bool;
  message_thread_joinable : bool;
  time_previous : option Z;
  console : list LogMsg
}.

Arguments mkPipe {U}.
Arguments pipeline_ {U}.
Arguments appsrc_ {U}.
Arguments appsrcsink_queue_ {U}.
Arguments frame_counter_ {U}.
Arguments watchdog_counter_ {U}.
Arguments last_appsink_sample_time_ {U}.
Arguments delivering_appsink_sample_ {U}.
Arguments terminate_ {U}.
Arguments message_thread_joinable {U}.
Arguments time_previous {U}.
Arguments console {U}.

(** What the outside world contributes to one [pushInput] call. *)
Record PushEnv : Type := mkPushEnv {
  clock_now : Z;                       (* clock::now() at the top of pushInput *)
  clock_restart : Z;                   (* clock::now() inside start() *)
  gst_time_now : Z;                    (* gst_clock_get_time *)
  set_state_ret : GstStateChangeReturn; (* gst_element_set_state(PLAYING) *)
  push_ret : GstFlowReturn             (* gst_app_src_push_buffer *)
}.

Section GstreamerPipeline_ops.
Context {U : Type}.
Implicit Type p : GstreamerPipeline U.

(** [GstreamerPipeline(discard_mode, max_output_queue_size = 5,
    max_input_queue_size = 3)]; the default-constructed time point is the
    epoch. *)
Definition Pipeline_new (discard_mode : DiscardMode) (max_output_queue_size max_input_queue_size : nat)
  : GstreamerPipeline U :=
  mkPipe None [] (ASQ_new discard_mode max_output_queue_size max_input_queue_size)
         0 0 0 false false false None [].

Definition set_pipeline_ (x : option GstPipeline) p : GstreamerPipeline U :=
  mkPipe x (appsrc_ p) (appsrcsink_queue_ p) (frame_counter_ p) (watchdog_counter_ p)
         (last_appsink_sample_time_ p) (delivering_appsink_sample_ p) (terminate_ p)
         (message_thread_joinable p) (time_previous p) (console p).

Definition set_queue_appsrc (x : AppSrcSinkQueue U * GstAppSrc) p : GstreamerPipeline U :=
  mkPipe (pipeline_ p) (snd x) (fst x) (frame_counter_ p) (watchdog_counter_ p)
         (last_appsink_sample_time_ p) (delivering_appsink_sample_ p) (terminate_ p)
         (message_thread_joinable p) (time_previous p) (console p).

Definition set_appsrcsink_queue_ (x : AppSrcSinkQueue U) p : GstreamerPipeline U :=
  set_queue_appsrc (x, appsrc_ p) p.

Definition set_frame_counter_ (x : Z) p : GstreamerPipeline U :=
  mkPipe (pipeline_ p) (appsrc_ p) (appsrcsink_queue_ p) x (watchdog_counter_ p)
         (last_appsink_sample_time_ p) (delivering_appsink_sample_ p) (terminate_ p)
         (message_thread_joinable p) (time_previous p) (console p).

Definition set_watchdog_counter_ (x : Z) p : GstreamerPipeline U :=
  mkPipe (pipeline_ p) (appsrc_ p) (appsrcsink_queue_ p) (frame_counter_ p) x
         (last_appsink_sample_time_ p) (delivering_appsink_sample_ p) (terminate_ p)
         (message_thread_joinable p) (time_previous p) (console p).

Definition set_last_appsink_sample_time_ (x : Z) p : GstreamerPipeline U :=
  mkPipe (pipeline_ p) (appsrc_ p) (appsrcsink_queue_ p) (frame_counter_ p) (watchdog_counter_ p)
         x (delivering_appsink_sample_ p) (terminate_ p)
         (message_thread_joinable p) (time_previous p) (console p).

Definition set_delivering_appsink_sample_ (x : bool) p : GstreamerPipeline U :=
  mkPipe (pipeline_ p) (appsrc_ p) (appsrcsink_queue_ p) (frame_counter_ p) (watchdog_counter_ p)
         (last_appsink_sample_time_ p) x (terminate_ p)
         (message_thread_joinable p) (time_previous p) (console p).

Definition set_terminate_ (x : bool) p : GstreamerPipeline U :=
  mkPipe (pipeline_ p) (appsrc_ p) (appsrcsink_queue_ p) (frame_counter_ p) (watchdog_counter_ p)
         (last_appsink_sample_time_ p) (delivering_appsink_sample_ p) x
         (message_thread_joinable p) (time_previous p) (console p).

Definition set_message_thread_joinable (x : bool) p : GstreamerPipeline U :=
  mkPipe (pipeline_ p) (appsrc_ p) (appsrcsink_queue_ p) (frame_counter_ p) (watchdog_counter_ p)
         (last_appsink_sample_time_ p) (delivering_appsink_sample_ p) (terminate_ p)
         x (time_previous p) (console p).

Definition set_time_previous (x : option Z) p : GstreamerPipeline U :=
  mkPipe (pipeline_ p) (appsrc_ p) (appsrcsink_queue_ p) (frame_counter_ p) (watchdog_counter_ p)
         (last_appsink_sample_time_ p) (delivering_appsink_sample_ p) (terminate_ p)
         (message_thread_joinable p) x (console p).

Definition say (m : LogMsg) p : GstreamerPipeline U :=
  mkPipe (pipeline_ p) (appsrc_ p) (appsrcsink_queue_ p) (frame_counter_ p) (watchdog_counter_ p)
         (last_appsink_sample_time_ p) (delivering_appsink_sample_ p) (terminate_ p)
         (message_thread_joinable p) (time_previous p) (console p ++ [m]).

(** The output queue inside the pipeline. *)
Definition output_queue p : SPSCFixedQueue (GstBuffer * U) := base (appsrcsink_queue_ p).

Definition set_output_queue (b : SPSCFixedQueue (GstBuffer * U)) p : GstreamerPipeline U :=
  set_appsrcsink_queue_ (set_base b (appsrcsink_queue_ p)) p.

(** [gst_element_set_state(GST_ELEMENT(pipeline_), state)]. *)
Definition gst_element_set_state (state : GstState) p : GstreamerPipeline U :=
  set_pipeline_ (option_map (fun l => l ++ [state]) (pipeline_ p)) p.

Definition ensureInitialized : M (GstreamerPipeline U) unit :=
  fun p =>
    match pipeline_ p with
    | None => Throws (std_runtime_error "Pipeline was not initialized") p
    | Some _ => Returns tt p
    end.

(** [initialize()]; the arguments say whether the two element factories
    deliver and what [createPipeline] returns. *)
Definition initialize (appsrc_made appsink_made : bool) (created : option GstPipeline)
  : M (GstreamerPipeline U) unit :=
  fun p =>
    match pipeline_ p with
    | Some _ => Throws (std_runtime_error "Pipeline was already initialized") p
    | None =>
        if negb appsrc_made
        then Throws (std_runtime_error "Unable to create app source element") p
        else if negb appsink_made
        then Throws (std_runtime_error "Unable to create app sink element") p
        else Returns tt (say InfoInitialized (set_pipeline_ created p))
    end.

(** [stop()]. *)
Definition stop : M (GstreamerPipeline U) unit :=
  (ensureInitialized ;;;
   modify (fun p => set_output_queue (setDiscardEverything true (output_queue p)) p) ;;;
   modify (set_terminate_ true) ;;;
   modify (gst_element_set_state GST_STATE_NULL) ;;;
   modify (say InfoStopping) ;;;
   (* if (message_thread_.joinable()) message_thread_.join(); *)
   modify (set_message_thread_joinable false))%cpp.

(** [start()]; [state_ret] is the answer of
    [gst_element_set_state(..., GST_STATE_PLAYING)], [now] the value of
    [clock::now()]. *)
Definition start (state_ret : GstStateChangeReturn) (now : Z) : M (GstreamerPipeline U) unit :=
  (ensureInitialized ;;;
   modify (fun p => set_output_queue (clear (output_queue p)) p) ;;;
   p <- get ;;
   (if message_thread_joinable p then stop else ret tt) ;;;
   modify (fun p => set_output_queue (setDiscardEverything false (output_queue p)) p) ;;;
   modify (set_terminate_ false) ;;;
   modify (gst_element_set_state GST_STATE_PLAYING) ;;;
   match state_ret with
   | GST_STATE_CHANGE_FAILURE => throw (std_runtime_error "Unable to set pipeline state")
   | _ =>
       modify (set_watchdog_counter_ 0) ;;;
       modify (set_last_appsink_sample_time_ now) ;;;
       modify (set_message_thread_joinable true)
   end)%cpp.

(** The watchdog block at the top of [pushInput]; returns [true] when it
    restarted the pipeline, in which case [pushInput] returns [false]. *)
Definition watchdog (env : PushEnv) : M (GstreamerPipeline U) bool :=
  (p <- get ;;
   if negb (delivering_appsink_sample_ p)
      && (WATCHDOG_TIMEOUT <=? clock_now env - last_appsink_sample_time_ p)
   then
     modify (fun p => set_watchdog_counter_ (wrap32 (watchdog_counter_ p + 1)) p) ;;;
     p <- get ;;
     if WATCHDOG_RESET_COUNT <=? watchdog_counter_ p then
       modify (say WarnWatchdogActivated) ;;;
       stop ;;;
       start (set_state_ret env) (clock_restart env) ;;;
       ret true
     else ret false
   else if 0 <? watchdog_counter_ p then
     modify (set_watchdog_counter_ 0) ;;;
     ret false
   else ret false)%cpp.

(** The timing stamped on an input buffer, given the value of the static
    [time_previous]. *)
Definition stamp_input (time_now t_prev frame_counter : Z) (buffer : GstBuffer) : GstBuffer :=
  let b :=
    set_timing buffer
      (if wrap64 (time_now - t_prev) <=? gst_frame_period
       then wrap64 (t_prev + gst_frame_period) else time_now)
      GST_CLOCK_TIME_NONE gst_frame_period frame_counter GST_BUFFER_OFFSET_NONE in
  (* attachMetadataToBuffer(buffer, static_cast<int>(GST_BUFFER_OFFSET(buffer.get()))) *)
  gst_buffer_add_correspondence_meta b (static_cast_int (GST_BUFFER_OFFSET b)).

(** The part of [pushInput] below the watchdog block: stamp the timing,
    attach the id, hand over to [pushData], advance the counter on
    success. *)
Definition stamp_and_forward (env : PushEnv) (buffer : GstBuffer) (user_data : U)
  : M (GstreamerPipeline U) bool :=
  (ensureInitialized ;;;                      (* getNativePipeline() *)
   let time_now := gst_time_now env in
   (* static GstClockTime time_previous = time_now - gst_frame_period; *)
   modify (fun p => match time_previous p with
                    | None => set_time_previous (Some (wrap64 (time_now - gst_frame_period))) p
                    | Some _ => p
                    end) ;;;
   p <- get ;;
   let t_prev := match time_previous p with Some t => t | None => 0 end in
   let buffer := stamp_input time_now t_prev (frame_counter_ p) buffer in
   result <- zoom (fun p => (appsrcsink_queue_ p, appsrc_ p)) set_queue_appsrc
                  (pushData (push_ret env) buffer user_data) ;;
   (if result : bool then
      modify (fun p => set_frame_counter_ (wrap64 (frame_counter_ p + 1)) p) ;;;
      modify (set_time_previous (Some time_now))
    else ret tt) ;;;
   ret result)%cpp.

(** [pushInput(buffer, user_data)]. *)
Definition pushInput (env : PushEnv) (buffer : GstBuffer) (user_data : U)
  : M (GstreamerPipeline U) bool :=
  (ensureInitialized ;;;
   restarted <- watchdog env ;;
   if restarted : bool then ret false
   else stamp_and_forward env buffer user_data)%cpp.

(** What a submission is judged by: the id counter, what went to appsrc,
    the pending entries and the admission settings. *)
Definition input_side p : Z * GstAppSrc * list (GstreamerBufferInfo * U) * DiscardMode * nat :=
  (frame_counter_ p, appsrc_ p, user_data_queue_ (appsrcsink_queue_ p),
   discard_mode_ (appsrcsink_queue_ p), max_input_queue_size_ (appsrcsink_queue_ p)).

(** [popOutput(const std::unique_lock<TMutex>& lock)]. *)
Definition popOutput_unique_lock (owns_lock : bool) : M (GstreamerPipeline U) (GstBuffer * U) :=
  zoom output_queue set_output_queue (popFront_unique_lock owns_lock).

(** [popOutput(const std::lock_guard<TMutex>& lock)]. *)
Definition popOutput_lock_guard : M (GstreamerPipeline U) (GstBuffer * U) :=
  zoom output_queue set_output_queue popFront_lock_guard.

(** [popOutput()]. *)
Definition popOutput : M (GstreamerPipeline U) (GstBuffer * U) :=
  zoom output_queue set_output_queue popFront.

(** [newAppsinkSampleCallback(appsink)]: raises the delivering flag and
    returns what the queue's callback returns.  The two statements after
    the [return] are never reached. *)
Definition newAppsinkSampleCallback (pull : PullResult) (env : list WaitEvent)
  : M (GstreamerPipeline U) GstFlowReturn :=
  (modify (set_delivering_appsink_sample_ true) ;;;
   zoom appsrcsink_queue_ set_appsrcsink_queue_ (newSampleCallback pull env))%cpp.

(** Several calls in a row, collecting the results. *)
Fixpoint sequence {S A} (ms : list (M S A)) : M S (list A) :=
  match ms with
  | [] => ret []
  | m :: ms' => (a <- m ;; r <- sequence ms' ;; ret (a :: r))%cpp
  end.

(** [pushInput] for each element of [l], in order. *)
Definition submit_all (l : list (PushEnv * GstBuffer * U)) : M (GstreamerPipeline U) (list bool) :=
  sequence (map (fun x => pushInput (fst (fst x)) (snd (fst x)) (snd x)) l).

(** The appsink delivers the buffers [results], one callback each; every
    deep copy succeeds and no other thread touches the output queue. *)
Definition deliver_all (results : list GstBuffer) : M (GstreamerPipeline U) (list GstFlowReturn) :=
  sequence (map (fun r => newAppsinkSampleCallback (PullSample r true) []) results).

(** [n] calls of [popOutput()]. *)
Definition pop_all (n : nat) : M (GstreamerPipeline U) (list (GstBuffer * U)) :=
  sequence (repeat popOutput n).

(** The pair the callback builds from a pending entry and the result
    matched with it. *)
Definition pair_up (x : (GstreamerBufferInfo * U) * GstBuffer) : GstBuffer * U :=
  (stamp (snd x) (fst (fst x)), snd (fst x)).

(** In-order delivery: after the submissions [l] brought the supervisor
    to [p1], the results [rs] are all taken by the callback, the output
    queue then holds pairs in non-decreasing id order, and [length l] pops
    return them: user data as submitted, payload and id of the result
    each was matched with. *)
Definition in_order_delivery (l : list (PushEnv * GstBuffer * U)) (rs : list GstBuffer)
    (p1 : GstreamerPipeline U) : Prop :=
  exists p2 p3 outs,
    deliver_all rs p1 = Returns (repeat GST_FLOW_OK (List.length rs)) p2 /\
    queue_ (output_queue p2) = outs /\
    StronglySorted Z.le (map (fun o => GST_BUFFER_OFFSET (fst o)) outs) /\
    pop_all (List.length l) p2 = Returns outs p3 /\
    map snd outs = map snd l /\
    map (fun o => buffer_data (fst o)) outs = map buffer_data rs /\
    map (fun o => Some (GST_BUFFER_OFFSET (fst o))) outs = map correspondence_meta rs.

End GstreamerPipeline_ops.

(** The correspondence ids [c], [c + 1], ..., [c + n - 1]. *)
Fixpoint ids_from (c : Z) (n : nat) : list Z :=
  match n with
  | O => []
  | S n' => c :: ids_from (c + 1) n'
  end.

(* ===================================================================== *)
(** ** Concrete scenarios *)

Module Scenario.

(** An input frame as the application hands it in, and a processed frame
    as the pipeline hands it back with correspondence id [id]. *)
Definition frame : GstBuffer := mkBuffer [] 0 0 0 0 0 None true.

Definition processed (id : Z) : GstBuffer :=
  mkBuffer [Byte.x2a] 0 0 0 0 0 (Some id) true.

(** The world during a [pushInput] at system time [t] (nanoseconds): the
    stream clock shows [t] too, appsrc accepts, a restart would succeed. *)
Definition at_time (t : Z) : PushEnv :=
  mkPushEnv t t t GST_STATE_CHANGE_SUCCESS GST_FLOW_OK.

(** A supervisor that was constructed, initialized and started at time 0. *)
Definition started (mode : DiscardMode) (out_max in_max : nat) : GstreamerPipeline nat :=
  match (initialize true true (Some []) ;;; start GST_STATE_CHANGE_SUCCESS 0)%cpp
          (Pipeline_new mode out_max in_max) with
  | Returns _ p => p
  | _ => Pipeline_new mode out_max in_max
  end.

(** [n] submissions with user data [first], [first + 1], ..., the first
    at time [t0], one every [dt] nanoseconds. *)
Fixpoint submissions (t0 dt : Z) (first n : nat) : list (PushEnv * GstBuffer * nat) :=
  match n with
  | O => []
  | S n' => (at_time t0, frame, first) :: submissions (t0 + dt) dt (S first) n'
  end.

(** Results with ids [id], [id + 1], ... *)
Fixpoint results (id : Z) (n : nat) : list GstBuffer :=
  match n with
  | O => []
  | S n' => processed id :: results (id + 1) n'
  end.

(** A pending entry with sequence offset [o]. *)
Definition entry (o : Z) (u : nat) : GstreamerBufferInfo * nat :=
  (mkInfo (o * 100) GST_CLOCK_TIME_NONE gst_frame_period o GST_BUFFER_OFFSET_NONE, u).

(** A queue with pending entries [l] and output queue [out]. *)
Definition queue_with (mode : DiscardMode) (out_max in_max : nat)
    (l : list (GstreamerBufferInfo * nat)) (out : list (GstBuffer * nat)) : AppSrcSinkQueue nat :=
  mkASQ (mkSPSC out out_max false 0%nat 0%nat) l 0 0 0 in_max mode [].

(** The state the submissions [l] leave behind. *)
Definition after_submissions (l : list (PushEnv * GstBuffer * nat)) (p : GstreamerPipeline nat)
  : GstreamerPipeline nat :=
  match submit_all l p with
  | Returns _ p1 | Throws _ p1 | Blocked p1 => p1
  | Undefined => p
  end.

(** 101 frames within about 100 ms into a pipeline that discards output
    frames and has a large output queue. *)
Definition burst : list (PushEnv * GstBuffer * nat) := submissions 1000000 1000000 0 101.
Definition roomy : GstreamerPipeline nat := started DISCARD_OUTPUT_FRAMES 200 3.

(** Two frames into a pipeline whose output queue holds one. *)
Definition two_frames : list (PushEnv * GstBuffer * nat) := submissions 1000000 1000000 0 2.
Definition narrow : GstreamerPipeline nat := started DISCARD_OUTPUT_FRAMES 1 3.

(** Three frames into a pipeline with the default sizes that discards
    input frames: afterwards the input bound is reached. *)
Definition three_frames : list (PushEnv * GstBuffer * nat) := submissions 1000000 1000000 0 3.
Definition default_input : GstreamerPipeline nat := started DISCARD_INPUT_FRAMES 5 3.
Definition at_input_bound : GstreamerPipeline nat := after_submissions three_frames default_input.

(** A stalled producer: one frame every 3 s, from second 5 on. *)
Definition stalled (first n : nat) : list (PushEnv * GstBuffer * nat) :=
  submissions 5000000000 3000000000 first n.
Definition default_output : GstreamerPipeline nat := started DISCARD_OUTPUT_FRAMES 5 3.

(** Pending entries with offsets 3, 4, 7, 9. *)
Definition gappy : AppSrcSinkQueue nat :=
  queue_with DISCARD_OUTPUT_FRAMES 5 3 [entry 3 30%nat; entry 4 40%nat; entry 7 70%nat; entry 9 90%nat] [].


(** A hundred pending entries under [DISCARD_INPUT_FRAMES] with an input
    bound of 200. *)
Definition hundred_pending : AppSrcSinkQueue nat :=
  queue_with DISCARD_INPUT_FRAMES 5 200
             (map (fun i => entry (Z.of_nat i) i) (seq 0 100)) [].

(** A full and a half-full queue of numbers. *)
Definition full_queue : SPSCFixedQueue nat := mkSPSC [1%nat; 2%nat] 2 false 0%nat 0%nat.
Definition half_queue : SPSCFixedQueue nat := mkSPSC [1%nat] 2 false 0%nat 0%nat.

(** One pending entry with offset 5; and two pending entries of which the
    second has the offset [2^64 - 5], the value the id [-5] turns into
    when it is compared with a [guint64]. *)
Definition front_at_5 : AppSrcSinkQueue nat :=
  queue_with DISCARD_OUTPUT_FRAMES 5 3 [entry 5 50%nat] [].

Definition high_offset_pending : AppSrcSinkQueue nat :=
  queue_with DISCARD_OUTPUT_FRAMES 5 3 [entry 3 30%nat; entry (2 ^ 64 - 5) 40%nat] [].

End Scenario.

(* ===================================================================== *)
(** ** GstBufferWrapper: the accessors, and a wrapper's life *)

Module BufferAccess.
Import Wrapper.

(** The log of a wrapper lists the calls it made into GStreamer, a
    [gst_buffer_map] when it returned [TRUE].

    [map()] on a wrapper with its log; [answer] is the map info
    [gst_buffer_map] fills in, [None] when it does not return [TRUE]. *)
Definition map_logged (answer : option GstMapInfo) : M (GstBufferWrapper * list GstCall) unit :=
  fun '(w, log) =>
    if mapped_ w then Returns tt (w, log)
    else
      match answer with
      | None => Throws (GstBufferWrapper_Error "Unable to map Gstreamer buffer") (w, log)
      | Some i =>
          Returns tt (mkWrapper (ptr_ w) (Some i) true (mapped_writable_ w) (owns_buffer_ w),
                      log ++ [gst_buffer_map (ptr_ w) GST_MAP_READ])
      end.

(** [mapWritable()] on a wrapper with its log. *)
Definition mapWritable_logged (answer : option GstMapInfo)
  : M (GstBufferWrapper * list GstCall) unit :=
  fun '(w, log) =>
    if mapped_writable_ w then Returns tt (w, log)
    else
      let (w1, c1) := if mapped_ w then unmap w else (w, []) in
      match answer with
      | None =>
          Throws (GstBufferWrapper_Error "Unable to map writable Gstreamer buffer")
                 (w1, log ++ c1)
      | Some i =>
          Returns tt (mkWrapper (ptr_ w1) (Some i) true true (owns_buffer_ w1),
                      log ++ c1 ++ [gst_buffer_map (ptr_ w1) GST_MAP_WRITE])
      end.

(** [ensureMapped()]. *)
Definition ensureMapped (answer : option GstMapInfo) : M (GstBufferWrapper * list GstCall) unit :=
  fun s => if mapped_ (fst s) then Returns tt s else map_logged answer s.

(** [ensureMappedWritable()]. *)
Definition ensureMappedWritable (answer : option GstMapInfo)
  : M (GstBufferWrapper * list GstCall) unit :=
  fun s => if mapped_writable_ (fst s) then Returns tt s else mapWritable_logged answer s.

(** The four accessors [getSize()], [getData()], [getDataWritable()] and
    [getMapInfo()]. *)
Inductive Accessor : Type :=
| getSize
| getData
| getDataWritable
| getMapInfo.

(** What an accessor hands back: a field of [info_], or all of it. *)
Inductive Accessed : Type :=
| SizeIs (n : Z)
| DataAt (address : Z)
| InfoIs (i : GstMapInfo).

Definition read_info (a : Accessor) (i : GstMapInfo) : Accessed :=
  match a with
  | getSize => SizeIs (size i)
  | getData | getDataWritable => DataAt (data i)
  | getMapInfo => InfoIs i
  end.

(** One accessor call; reading an [info_] that nothing ever wrote is
    undefined. *)
Definition access (a : Accessor) (answer : option GstMapInfo)
  : M (GstBufferWrapper * list GstCall) Accessed :=
  (match a with
   | getDataWritable => ensureMappedWritable answer
   | _ => ensureMapped answer
   end ;;;
   s <- get ;;
   match info_ (fst s) with
   | Some i => ret (read_info a i)
   | None => fun _ => Undefined
   end)%cpp.

(** A series of accessor calls; a call that throws leaves the wrapper as
    the exception found it and the series goes on. *)
Fixpoint accesses (l : list (Accessor * option GstMapInfo))
    (s : GstBufferWrapper * list GstCall) : option (GstBufferWrapper * list GstCall) :=
  match l with
  | [] => Some s
  | (a, answer) :: l' =>
      match state_of (access a answer s) with
      | Some s' => accesses l' s'
      | None => None
      end
  end.

(** The whole life of a wrapper: constructed on [ptr], used through the
    accessors, destroyed.  The result is every GStreamer call it made. *)
Definition lifetime (ptr : GstBufferPtr) (owns_buffer : bool)
    (l : list (Accessor * option GstMapInfo)) : option (list GstCall) :=
  match accesses l (construct (Some ptr) owns_buffer, []) with
  | Some (w, log) => Some (log ++ destroy w)
  | None => None
  end.

Definition is_map (c : GstCall) : bool :=
  match c with gst_buffer_map _ _ => true | _ => false end.
Definition is_unmap (c : GstCall) : bool :=
  match c with gst_buffer_unmap _ => true | _ => false end.
Definition is_unref (c : GstCall) : bool :=
  match c with gst_buffer_unref _ => true | _ => false end.

(** The pointer a call is made on. *)
Definition call_ptr (c : GstCall) : option GstBufferPtr :=
  match c with
  | gst_buffer_map p _ | gst_buffer_unmap p => p
  | gst_buffer_unref p => Some p
  end.

(** [GstSampleWrapper::getBuffer()]: a wrapper on the sample's buffer that
    does not own it. *)
Definition getBuffer (gst_sample_get_buffer : GstBufferPtr) : GstBufferWrapper :=
  construct (Some gst_sample_get_buffer) false.

(** What holds of a wrapper on [ptr] and its call log between two
    accessor calls: every open map is accounted for by [mapped_], a mapped
    wrapper has its [info_] written, writable implies mapped, and nothing
    was unreffed. *)
Definition in_use (ptr : GstBufferPtr) (owns_buffer : bool)
    (s : GstBufferWrapper * list GstCall) : Prop :=
  let (w, log) := s in
  ptr_ w = Some ptr /\
  owns_buffer_ w = owns_buffer /\
  (mapped_ w = true -> info_ w <> None) /\
  (mapped_writable_ w = true -> mapped_ w = true) /\
  List.length (filter is_map log)
  = (List.length (filter is_unmap log) + (if mapped_ w then 1 else 0))%nat /\
  Forall (fun c => call_ptr c = Some ptr) log /\
  filter is_unref log = [].

End BufferAccess.

(* ===================================================================== *)
(** ** GstCapsWrapper *)

Module Caps.

Definition GstCapsPtr := nat.
(** Address of a string allocated by [gst_caps_to_string]. *)
Definition gcharPtr := nat.

Inductive GstCall : Type :=
| gst_caps_to_string (p : option GstCapsPtr)
| g_free (s : gcharPtr)
| gst_caps_unref (p : GstCapsPtr).

(** The fields of [GstCapsWrapper]; [None] is [nullptr]. *)
Record GstCapsWrapper : Type := mkCaps {
  ptr_ : option GstCapsPtr;
  caps_string_ : option gcharPtr
}.

(** [GstCapsWrapper(GstCaps* ptr)]. *)
Definition construct (ptr : option GstCapsPtr) : GstCapsWrapper := mkCaps ptr None.

(** [getString()]; [fresh] is the string [gst_caps_to_string] would
    allocate.  Returns the wrapper, the string handed back and the calls
    made. *)
Definition getString (fresh : gcharPtr) (w : GstCapsWrapper)
  : GstCapsWrapper * gcharPtr * list GstCall :=
  match caps_string_ w with
  | None => (mkCaps (ptr_ w) (Some fresh), fresh, [gst_caps_to_string (ptr_ w)])
  | Some s => (w, s, [])
  end.

(** [GstCapsWrapper::unref()]: the calls it makes; no field changes. *)
Definition unref (w : GstCapsWrapper) : list GstCall :=
  (match caps_string_ w with Some s => [g_free s] | None => [] end)
  ++ (match ptr_ w with Some p => [gst_caps_unref p] | None => [] end).

(** [~GstCapsWrapper()]. *)
Definition destroy (w : GstCapsWrapper) : list GstCall := unref w.

(** Move constructor: the base takes the pointer and nulls it in [other],
    the body takes [caps_string_] and nulls it in [other].  Returns the
    new wrapper and what is left of [other]. *)
Definition move_construct (other : GstCapsWrapper) : GstCapsWrapper * GstCapsWrapper :=
  (mkCaps (ptr_ other) (caps_string_ other), mkCaps None None).

(** Move assignment: [GstWrapper::operator=] calls [unref()] on the
    destination and takes the pointer, nulling it in [other]; the body
    copies [caps_string_] and leaves [other]'s in place. *)
Definition move_assign (this other : GstCapsWrapper)
  : GstCapsWrapper * GstCapsWrapper * list GstCall :=
  (mkCaps (ptr_ other) (caps_string_ other),
   mkCaps None (caps_string_ other),
   unref this).

Definition frees (s : gcharPtr) (c : GstCall) : bool :=
  match c with g_free s' => Nat.eqb s s' | _ => false end.

End Caps.

(* ===================================================================== *)
(** ** GstreamerPipeline: the remaining members *)

Section GstreamerPipeline_more_ops.
Context {U : Type}.
Implicit Type p : GstreamerPipeline U.

(** [hasOutput()]. *)
Definition hasOutput p : bool := negb (empty (output_queue p)).

(** [getAvailableOutputSize()]. *)
Definition getAvailableOutputSize p : nat := size (output_queue p).

(** [getNativePipeline()]. *)
Definition getNativePipeline : M (GstreamerPipeline U) GstPipeline :=
  (ensureInitialized ;;;
   p <- get ;;
   match pipeline_ p with
   | Some native => ret native
   | None => fun _ => Undefined
   end)%cpp.

(** [getNativeAppSrc()]. *)
Definition getNativeAppSrc : M (GstreamerPipeline U) GstAppSrc :=
  (ensureInitialized ;;; p <- get ;; ret (appsrc_ p))%cpp.

(** The offsets of the pending entries, oldest first. *)
Definition pending_offsets p : list Z :=
  map (fun e => offset (fst e)) (user_data_queue_ (appsrcsink_queue_ p)).

(** The ordering the matching loop relies on: pending offsets strictly
    ascending and all below the id counter. *)
Definition pending_ordered p : Prop :=
  StronglySorted Z.lt (pending_offsets p) /\
  Forall (fun o => o < frame_counter_ p) (pending_offsets p).

End GstreamerPipeline_more_ops.

(** *** The message thread *)

(** The messages [gst_bus_timed_pop_filtered] can hand to the loop.  For a
    state change, [from_pipeline] says whether [GST_MESSAGE_SRC(msg)] is
    the pipeline itself. *)
Inductive GstMessage : Type :=
| GST_MESSAGE_ERROR
| GST_MESSAGE_EOS
| GST_MESSAGE_STATE_CHANGED (from_pipeline : bool) (old_state new_state pending_state : GstState)
| GST_MESSAGE_OTHER.

(** One round of the loop, seen from outside: the 100 ms pass without a
    message, a message arrives, or another thread sets [terminate_] (as
    [stop()] does) while the loop sits in the poll. *)
Inductive Poll : Type :=
| PollTimeout
| PollMessage (msg : GstMessage)
| PollTerminateSet.

(** Lines the loop writes to the console. *)
Inductive LoopMsg : Type :=
| ErrorReceived
| StreamFinished
| StateChangedFromTo (old_state new_state : GstState)
| UnexpectedMessage.

(** The supervisor as the message thread sees it: the members modelled in
    [GstreamerPipeline] ([owner]) together with [pipeline_state], whether
    [state_change_callback_] is set, the calls made to it, and the lines
    printed. *)
Record MessageThread (U : Type) : Type := mkThread {
  owner : GstreamerPipeline U;
  pipeline_state : GstState;
  state_change_callback_set : bool;
  state_change_callback_calls : list (GstState * GstState * GstState);
  printed : list LoopMsg
}.

Arguments mkThread {U}.
Arguments owner {U}.
Arguments pipeline_state {U}.
Arguments state_change_callback_set {U}.
Arguments state_change_callback_calls {U}.
Arguments printed {U}.

Section MessageThread_ops.
Context {U : Type}.
Implicit Type s : MessageThread U.

Definition GstState_eqb (a b : GstState) : bool :=
  match a, b with
  | GST_STATE_VOID_PENDING, GST_STATE_VOID_PENDING
  | GST_STATE_NULL, GST_STATE_NULL
  | GST_STATE_READY, GST_STATE_READY
  | GST_STATE_PAUSED, GST_STATE_PAUSED
  | GST_STATE_PLAYING, GST_STATE_PLAYING => true
  | _, _ => false
  end.

(** [getState()] and [isPlaying()]. *)
Definition getState s : GstState := pipeline_state s.
Definition isPlaying s : bool := GstState_eqb (pipeline_state s) GST_STATE_PLAYING.

Definition set_owner (x : GstreamerPipeline U) s : MessageThread U :=
  mkThread x (pipeline_state s) (state_change_callback_set s)
           (state_change_callback_calls s) (printed s).

Definition loop_print (m : LoopMsg) s : MessageThread U :=
  mkThread (owner s) (pipeline_state s) (state_change_callback_set s)
           (state_change_callback_calls s) (printed s ++ [m]).

(** The [switch] over the message type in [gstreamerLoop]. *)
Definition handle_message (msg : GstMessage) s : MessageThread U :=
  match msg with
  | GST_MESSAGE_ERROR =>
      set_owner (set_terminate_ true (owner s)) (loop_print ErrorReceived s)
  | GST_MESSAGE_EOS =>
      set_owner (set_terminate_ true (owner s)) (loop_print StreamFinished s)
  | GST_MESSAGE_STATE_CHANGED from_pipeline old_state new_state pending_state =>
      if from_pipeline then
        mkThread (owner s) new_state (state_change_callback_set s)
                 (state_change_callback_calls s
                  ++ (if state_change_callback_set s
                      then [(old_state, new_state, pending_state)] else []))
                 (printed s ++ [StateChangedFromTo old_state new_state])
      else s
  | GST_MESSAGE_OTHER => loop_print UnexpectedMessage s
  end.

(** One poll of the bus and what the loop body does with it. *)
Definition poll_step (ev : Poll) s : MessageThread U :=
  match ev with
  | PollTimeout => s
  | PollMessage msg => handle_message msg s
  | PollTerminateSet => set_owner (set_terminate_ true (owner s)) s
  end.

(** [gstreamerLoop()]: [while (!terminate_)] poll and handle.  When the
    polls given run out with [terminate_] still clear the thread is still
    in the loop. *)
Fixpoint gstreamerLoop (polls : list Poll) s {struct polls} : Outcome (MessageThread U) unit :=
  if terminate_ (owner s) then Returns tt s
  else
    match polls with
    | [] => Blocked s
    | ev :: polls' => gstreamerLoop polls' (poll_step ev s)
    end.

(** Whether a poll ends the loop. *)
Definition ends_loop (ev : Poll) : bool :=
  match ev with
  | PollMessage GST_MESSAGE_ERROR | PollMessage GST_MESSAGE_EOS | PollTerminateSet => true
  | _ => false
  end.

(** The polls the loop gets to see: all up to and including the first one
    that ends it. *)
Fixpoint seen (polls : list Poll) : list Poll :=
  match polls with
  | [] => []
  | ev :: polls' => if ends_loop ev then [ev] else ev :: seen polls'
  end.

(** The state changes of the pipeline itself among some polls. *)
Fixpoint pipeline_changes (polls : list Poll) : list (GstState * GstState * GstState) :=
  match polls with
  | [] => []
  | PollMessage (GST_MESSAGE_STATE_CHANGED true o n pd) :: polls' =>
      (o, n, pd) :: pipeline_changes polls'
  | _ :: polls' => pipeline_changes polls'
  end.

End MessageThread_ops.

(* ===================================================================== *)
(** ** viewpoint_planner.hxx: connecting viewpoints

    [ViewpointEntryIndex], [ViewpointPathEntry] and the member function
    [connectViewpoints] are declared outside the file at hand.  The index
    type comes with its equality test, a path entry with its
    [viewpoint_index] member, and [connectViewpoints] is a function on the
    planner's state that answers whether a connection was found. *)

Module ViewpointPlanner.

Section Connect.
Context {ViewpointEntryIndex Planner ViewpointPathEntry : Type}.
Variable index_eqb : ViewpointEntryIndex -> ViewpointEntryIndex -> bool.
Variable connectViewpoints :
  ViewpointEntryIndex -> ViewpointEntryIndex -> bool -> Planner -> bool * Planner.
Variable viewpoint_index : ViewpointPathEntry -> ViewpointEntryIndex.

(** The loop of [connectViewpointToOtherViewpoints], with the value of
    [num_connections_found] (a [size_t]) on entry. *)
Fixpoint connect_loop (from_viewpoint_index : ViewpointEntryIndex)
    (to : list ViewpointEntryIndex) (ignore_existing_connections : bool)
    (num_connections_found : Z) (g : Planner) : Z * Planner :=
  match to with
  | [] => (num_connections_found, g)
  | to_viewpoint_index :: rest =>
      if index_eqb from_viewpoint_index to_viewpoint_index then
        connect_loop from_viewpoint_index rest ignore_existing_connections
                     num_connections_found g
      else
        let (found, g') :=
          connectViewpoints from_viewpoint_index to_viewpoint_index
                            ignore_existing_connections g in
        connect_loop from_viewpoint_index rest ignore_existing_connections
                     (if found then wrap64 (num_connections_found + 1)
                      else num_connections_found) g'
  end.

(** [connectViewpointToOtherViewpoints(from_viewpoint_index, to_first,
    to_last, ignore_existing_connections)]; the range is the list [to]. *)
Definition connectViewpointToOtherViewpoints (from_viewpoint_index : ViewpointEntryIndex)
    (to : list ViewpointEntryIndex) (ignore_existing_connections : bool) (g : Planner)
  : Z * Planner :=
  connect_loop from_viewpoint_index to ignore_existing_connections 0 g.

(** The loop of [connectPathEntryToOtherPathEntries]. *)
Fixpoint connect_path_loop (from_viewpoint_index : ViewpointEntryIndex)
    (to : list ViewpointPathEntry) (ignore_existing_connections : bool)
    (num_connections_found : Z) (g : Planner) : Z * Planner :=
  match to with
  | [] => (num_connections_found, g)
  | to_entry :: rest =>
      let to_viewpoint_index := viewpoint_index to_entry in
      if index_eqb from_viewpoint_index to_viewpoint_index then
        connect_path_loop from_viewpoint_index rest ignore_existing_connections
                          num_connections_found g
      else
        let (found, g') :=
          connectViewpoints from_viewpoint_index to_viewpoint_index
                            ignore_existing_connections g in
        connect_path_loop from_viewpoint_index rest ignore_existing_connections
                          (if found then wrap64 (num_connections_found + 1)
                           else num_connections_found) g'
  end.

(** [connectPathEntryToOtherPathEntries(from_path_entry, to_first,
    to_last, ignore_existing_connections)]. *)
Definition connectPathEntryToOtherPathEntries (from_path_entry : ViewpointPathEntry)
    (to : list ViewpointPathEntry) (ignore_existing_connections : bool) (g : Planner)
  : Z * Planner :=
  connect_path_loop (viewpoint_index from_path_entry) to ignore_existing_connections 0 g.

(** [connectViewpoints] with a record of the calls made to it: the two
    indices and the answer. *)
Definition recording (from_index to_index : ViewpointEntryIndex) (ignore : bool)
    (s : Planner * list (ViewpointEntryIndex * ViewpointEntryIndex * bool))
  : bool * (Planner * list (ViewpointEntryIndex * ViewpointEntryIndex * bool)) :=
  let (found, g') := connectViewpoints from_index to_index ignore (fst s) in
  (found, (g', snd s ++ [(from_index, to_index, found)])).

End Connect.

End ViewpointPlanner.

(* ===================================================================== *)
(** ** More concrete scenarios *)

Module MoreScenarios.
Import Scenario.

(** Under [DISCARD_INPUT_FRAMES]: one pending entry, the output queue
    (capacity 1) full. *)
Definition callback_must_wait : AppSrcSinkQueue nat :=
  queue_with DISCARD_INPUT_FRAMES 1 3 [entry 0 10%nat] [(processed 9, 99%nat)].

(** Under [DISCARD_INPUT_FRAMES] with input bound 2: two pending entries. *)
Definition input_closed : AppSrcSinkQueue nat :=
  queue_with DISCARD_INPUT_FRAMES 5 2 [entry 0 10%nat; entry 1 11%nat] [].

(** The message thread of a started supervisor, with a state-change
    callback set. *)
Definition thread_started : MessageThread nat :=
  mkThread default_output GST_STATE_NULL true [] [].

(** The pipeline goes to READY, an element reports a state change of its
    own, the pipeline goes to PLAYING, the stream ends; one more state
    change is left on the bus. *)
Definition bus_traffic : list Poll :=
  [PollTimeout;
   PollMessage (GST_MESSAGE_STATE_CHANGED true GST_STATE_NULL GST_STATE_READY GST_STATE_PLAYING);
   PollMessage (GST_MESSAGE_STATE_CHANGED false GST_STATE_NULL GST_STATE_PAUSED GST_STATE_VOID_PENDING);
   PollMessage (GST_MESSAGE_STATE_CHANGED true GST_STATE_READY GST_STATE_PLAYING GST_STATE_VOID_PENDING);
   PollMessage GST_MESSAGE_EOS;
   PollMessage (GST_MESSAGE_STATE_CHANGED true GST_STATE_PLAYING GST_STATE_NULL GST_STATE_VOID_PENDING)].

(** A supervisor with two pending entries and two pairs in the output
    queue. *)
Definition busy : GstreamerPipeline nat :=
  set_appsrcsink_queue_
    (queue_with DISCARD_OUTPUT_FRAMES 5 3 [entry 7 70%nat; entry 8 80%nat]
                [(processed 5, 50%nat); (processed 6, 60%nat)])
    (set_frame_counter_ 9 default_output).

(** A stalled submission at second 30 with the counter at 9, and one that
    appsrc refuses at second 1. *)
Definition nine_stalls : GstreamerPipeline nat := set_watchdog_counter_ 9 busy.
Definition refusing : PushEnv :=
  mkPushEnv 1000000000 1000000000 1000000000 GST_STATE_CHANGE_SUCCESS GST_FLOW_FLUSHING.

(** A planner state that is just the list of connections made;
    [connectViewpoints] finds a connection between viewpoints of the same
    parity unless it exists already. *)
Definition connect_same_parity (a b : nat) (ignore_existing_connections : bool)
    (g : list (nat * nat)) : bool * list (nat * nat) :=
  if Nat.eqb (Nat.modulo a 2) (Nat.modulo b 2)
     && (ignore_existing_connections
         || negb (existsb (fun c => Nat.eqb (fst c) a && Nat.eqb (snd c) b) g))
  then (true, g ++ [(a, b)]) else (false, g).

End MoreScenarios.

(* ===================================================================== *)
(** * Properties *)

(** ** Moving a GstBufferWrapper *)

Module WrapperFacts.
Import Wrapper.

(** The move constructor hands over pointer, map info, both mapping flags
    and the owns flag. *)
Lemma move_construct_transfers (other : GstBufferWrapper) :
  fst (move_construct other) = other.
Proof. destruct other; reflexivity. Qed.

(** Whatever was moved from holds no pointer, so dropping it calls
    nothing. *)
Lemma moved_from_is_inert (other : GstBufferWrapper) :
  ptr_ (snd (move_construct other)) = None /\
  destroy (snd (move_construct other)) = [].
Proof. split; reflexivity. Qed.

Lemma move_assign_source_inert (this other : GstBufferWrapper) :
  ptr_ (snd (fst (move_assign this other))) = None /\
  destroy (snd (fst (move_assign this other))) = [].
Proof.
  unfold move_assign. destruct (unref this) as [this1 calls]. split; reflexivity.
Qed.

(** Move assignment keeps the destination's own [mapped_writable_] (as
    [unref()] left it) instead of taking the source's. *)
Lemma move_assign_mapped_writable (this other : GstBufferWrapper) :
  mapped_writable_ (fst (fst (move_assign this other)))
  = mapped_writable_ (fst (unref this)).
Proof.
  unfold move_assign. destruct (unref this) as [this1 calls]. reflexivity.
Qed.

(** C6, at the failing input.  Move-assigning a buffer that is mapped for
    writing onto a fresh wrapper: pointer, owns flag, map info and
    [mapped_] arrive and the source is left inert, but the destination's
    [mapped_writable_] is [false] although the source's was [true]; the
    move constructor on the same source transfers it. *)
Theorem move_assign_loses_writable_flag :
  let dst := fst (fst (move_assign fresh_destination writable_source)) in
  let src := snd (fst (move_assign fresh_destination writable_source)) in
  mapWritable (Some (mkMapInfo 4096 16)) (construct (Some 7%nat) true)
    = Returns [gst_buffer_map (Some 7%nat) GST_MAP_WRITE] writable_source /\
  ptr_ dst = ptr_ writable_source /\
  owns_buffer_ dst = owns_buffer_ writable_source /\
  info_ dst = info_ writable_source /\
  mapped_ dst = true /\
  mapped_writable_ writable_source = true /\
  mapped_writable_ dst = false /\
  mapped_writable_ (fst (move_construct writable_source)) = true /\
  ptr_ src = None /\ destroy src = [].
Proof. cbv. repeat split; reflexivity. Qed.

End WrapperFacts.

(** ** SPSCFixedQueue *)

Section SPSCFixedQueue_facts.
Context {T : Type}.
Implicit Type q : SPSCFixedQueue T.

Lemma wait_for_space_no_wait env q :
  must_wait q = false -> wait_for_space env q = Returns tt q.
Proof. intros H. destruct env; simpl; rewrite H; reflexivity. Qed.

Lemma must_wait_draining q :
  discard_everything_ q = true -> must_wait q = false.
Proof. intros H. unfold must_wait. rewrite H. apply andb_false_r. Qed.

Lemma must_wait_not_full q :
  (size q < max_queue_size_ q)%nat -> must_wait q = false.
Proof.
  intros H. unfold must_wait.
  replace (max_queue_size_ q <=? size q)%nat with false; [reflexivity|].
  symmetry. apply Nat.leb_gt. exact H.
Qed.

(** Sleeping through [k] poll intervals in which nothing happens leaves
    the producer where it was. *)
Lemma wait_for_space_timeouts k env q :
  must_wait q = true ->
  wait_for_space (repeat WTimeout k ++ env) q = wait_for_space env q.
Proof.
  intros H. induction k as [|k IH]; simpl.
  - reflexivity.
  - rewrite H. exact IH.
Qed.

(** Whatever happens while the producer waits, nothing is added to the
    queue by the wait itself. *)
Lemma wait_for_space_incl env : forall q q',
  state_of (wait_for_space env q) = Some q' ->
  incl (queue_ q') (queue_ q) /\ max_queue_size_ q' = max_queue_size_ q.
Proof.
  induction env as [|ev env IH]; intros q q'; simpl.
  - destruct (must_wait q); simpl; intros [= <-]; split; auto using incl_refl.
  - destruct (must_wait q); simpl.
    + destruct ev; simpl.
      * apply IH.
      * unfold bind, popFront, popFrontWithoutLocking.
        destruct (queue_ q) as [|x rest] eqn:E; simpl; [discriminate|].
        intros H. apply IH in H. simpl in H. destruct H as [H1 H2].
        split; [|exact H2].
        intros y Hy. right. apply H1. exact Hy.
      * unfold modify. intros H. apply IH in H. exact H.
      * unfold modify. intros H. apply IH in H. simpl in H. destruct H as [H1 H2].
        split; [|exact H2].
        intros y Hy. apply H1 in Hy. destruct Hy.
    + intros [= <-]; split; auto using incl_refl.
Qed.

(** C8.  Blocking [pushBack]: with drain mode set it returns [false] and
    leaves the queue as it is; when drain mode is set while it waits on a
    full queue (after any number of fruitless poll intervals) it returns
    [false] and nothing is inserted; with room in the queue and drain mode
    off it appends the element, notifies the consumer and returns [true].
    Non-blocking [pushBack] on a full queue returns [false] at once and
    inserts nothing. *)
Theorem pushBack_contract (q : SPSCFixedQueue T) (element : T) (env : list WaitEvent) :
  (discard_everything_ q = true ->
     pushBack element true env q = Returns false q) /\
  (forall k, must_wait q = true ->
     pushBack element true (repeat WTimeout k ++ WSetDiscardEverything true :: env) q
     = Returns false (setDiscardEverything true q)) /\
  ((size q < max_queue_size_ q)%nat -> discard_everything_ q = false ->
     pushBack element true env q
     = Returns true (notify_queue_filled (set_queue_ (queue_ q ++ [element]) q))) /\
  ((max_queue_size_ q <= size q)%nat ->
     pushBack element false env q = Returns false q).
Proof.
  split; [|split; [|split]].
  - intros H. unfold pushBack, bind.
    rewrite wait_for_space_no_wait by (apply must_wait_draining; exact H).
    unfold get. rewrite H. reflexivity.
  - intros k H. unfold pushBack, bind.
    rewrite wait_for_space_timeouts by exact H.
    simpl. rewrite H. unfold modify.
    rewrite wait_for_space_no_wait by (apply must_wait_draining; reflexivity).
    reflexivity.
  - intros Hroom Hoff. unfold pushBack, bind.
    rewrite wait_for_space_no_wait by (apply must_wait_not_full; exact Hroom).
    unfold get. rewrite Hoff. reflexivity.
  - intros Hfull. unfold pushBack, bind, get.
    replace (size q <? max_queue_size_ q)%nat with false; [reflexivity|].
    symmetry. apply Nat.ltb_ge. exact Hfull.
Qed.

(** C10.  [popFront] with a [unique_lock] that owns no mutex throws and
    leaves the queue alone; with an owning lock and a non-empty queue it
    removes and returns the front element and notifies the
    space-available condition.  The [lock_guard] and argument-free
    overloads go straight to [popFrontWithoutLocking], and on an empty
    queue every overload runs into undefined behaviour: nothing checks for
    it. *)
Theorem popFront_contract (q : SPSCFixedQueue T) :
  popFront_unique_lock false q
    = Throws (std_runtime_error "Lock has not been acquired") q /\
  (forall element rest, queue_ q = element :: rest ->
     popFront_unique_lock true q
     = Returns element (notify_queue_space_available (set_queue_ rest q)) /\
     queue_space_available_notified (notify_queue_space_available (set_queue_ rest q))
     = S (queue_space_available_notified q)) /\
  popFront_lock_guard q = popFrontWithoutLocking q /\
  popFront q = popFrontWithoutLocking q /\
  (queue_ q = [] ->
     popFront_unique_lock true q = Undefined /\
     popFront_lock_guard q = Undefined /\
     popFront q = Undefined).
Proof.
  split; [reflexivity|]. split; [|split; [reflexivity|split; [reflexivity|]]].
  - intros element rest H. split; [|reflexivity].
    unfold popFront_unique_lock, popFrontWithoutLocking. simpl. rewrite H. reflexivity.
  - intros H.
    unfold popFront_unique_lock, popFront_lock_guard, popFront, popFrontWithoutLocking.
    simpl. rewrite H. auto.
Qed.

End SPSCFixedQueue_facts.

(** ** AppSrcSinkQueue *)

Section AppSrcSinkQueue_facts.
Context {U : Type}.
Implicit Type q : AppSrcSinkQueue U.

(** *** The matching loop *)

(** Entries in front whose offset is below the id are popped, the entry
    with the id is the match. *)
Lemma match_user_data_skips id (stale : list (GstreamerBufferInfo * U)) tuple rest :
  Forall (fun e => offset (fst e) < id) stale ->
  offset (fst tuple) = id ->
  match_user_data id (stale ++ tuple :: rest) = MatchFound tuple rest.
Proof.
  intros Hstale Heq. induction Hstale as [|e stale He _ IH]; simpl.
  - rewrite Heq, Z.ltb_irrefl. reflexivity.
  - replace (id <? offset (fst e)) with false by (symmetry; apply Z.ltb_ge; lia).
    replace (offset (fst e) <? id) with true by (symmetry; apply Z.ltb_lt; lia).
    exact IH.
Qed.

Lemma match_user_data_throws id (tuple : GstreamerBufferInfo * U) rest :
  id < offset (fst tuple) ->
  match_user_data id (tuple :: rest) = MatchThrow rest.
Proof.
  intros H. simpl.
  replace (id <? offset (fst tuple)) with true by (symmetry; apply Z.ltb_lt; lia).
  reflexivity.
Qed.

(** In an ascending queue everything before an entry has a smaller
    offset. *)
Lemma ascending_prefix_smaller (stale : list (GstreamerBufferInfo * U)) tuple rest :
  StronglySorted Z.lt (map (fun e => offset (fst e)) (stale ++ tuple :: rest)) ->
  Forall (fun e => offset (fst e) < offset (fst tuple)) stale.
Proof.
  induction stale as [|e stale IH]; simpl; intros H.
  - constructor.
  - inversion H as [|x l Hs Hall]; subst. constructor.
    + rewrite Forall_forall in Hall. apply Hall.
      rewrite map_app. apply in_or_app. right. left. reflexivity.
    + apply IH. exact Hs.
Qed.

(** The loop only ever removes entries. *)
Lemma match_user_data_shrinks id (l : list (GstreamerBufferInfo * U)) :
  match match_user_data id l with
  | MatchFound _ rest | MatchThrow rest => (List.length rest < List.length l)%nat
  | MatchUndefined => True
  end.
Proof.
  induction l as [|e l IH]; simpl; [exact I|].
  destruct (id <? offset (fst e)); [lia|].
  destruct (offset (fst e) <? id); [|lia].
  destruct (match_user_data id l); auto; lia.
Qed.

(** *** The three throttled counters leave everything else alone *)

Lemma count_sink_overflow_base q : base (count_sink_overflow q) = base q.
Proof. unfold count_sink_overflow. destruct (_ <=? _); reflexivity. Qed.

Lemma count_sink_overflow_pending q :
  user_data_queue_ (count_sink_overflow q) = user_data_queue_ q.
Proof. unfold count_sink_overflow. destruct (_ <=? _); reflexivity. Qed.

Lemma count_src_overflow_pending q :
  user_data_queue_ (count_src_overflow q) = user_data_queue_ q.
Proof. unfold count_src_overflow. destruct (_ <=? _); reflexivity. Qed.

Lemma count_correspondence_fail_pending q :
  user_data_queue_ (count_correspondence_fail q) = user_data_queue_ q.
Proof. unfold count_correspondence_fail. destruct (_ <=? _); reflexivity. Qed.

Lemma count_correspondence_fail_base q : base (count_correspondence_fail q) = base q.
Proof. unfold count_correspondence_fail. destruct (_ <=? _); reflexivity. Qed.

(** *** Publishing *)

(** A [pushBack] adds at most its own element. *)
Lemma pushBack_adds_only {T} (element : T) block env (b b' : SPSCFixedQueue T) :
  state_of (pushBack element block env b) = Some b' ->
  forall x, In x (queue_ b') -> In x (queue_ b) \/ x = element.
Proof.
  unfold pushBack, bind. destruct block.
  - destruct (wait_for_space env b) as [[] b1|e b1|b1|] eqn:W; simpl;
      try discriminate.
    + assert (Hincl : incl (queue_ b1) (queue_ b))
        by (apply (wait_for_space_incl env b b1); rewrite W; reflexivity).
      unfold get. destruct (discard_everything_ b1); simpl; intros [= <-] x Hx.
      * left. apply Hincl. exact Hx.
      * simpl in Hx. apply in_app_or in Hx. destruct Hx as [Hx|[Hx|[]]]; auto.
    + intros [= <-] x Hx. left.
      apply (wait_for_space_incl env b b1); [rewrite W; reflexivity|exact Hx].
    + intros [= <-] x Hx. left.
      apply (wait_for_space_incl env b b1); [rewrite W; reflexivity|exact Hx].
  - unfold get. destruct (size b <? max_queue_size_ b)%nat; simpl; intros [= <-] x Hx.
    + simpl in Hx. apply in_app_or in Hx. destruct Hx as [Hx|[Hx|[]]]; auto.
    + auto.
Qed.

(** Publishing leaves the pending queue alone and puts at most the pair
    it was given into the output queue. *)
Lemma publish_effect output_tuple env q q' :
  state_of (publish output_tuple env q) = Some q' ->
  user_data_queue_ q' = user_data_queue_ q /\
  forall x, In x (queue_ (base q')) -> In x (queue_ (base q)) \/ x = output_tuple.
Proof.
  unfold publish.
  destruct (pushBack output_tuple _ env (base q)) as [[] b|e b|b|] eqn:P; simpl;
    try discriminate; intros [= <-];
    (split; [try rewrite count_sink_overflow_pending; reflexivity|]);
    try rewrite count_sink_overflow_base; simpl;
    eapply pushBack_adds_only; rewrite P; reflexivity.
Qed.

End AppSrcSinkQueue_facts.

Section AppSrcSinkQueue_callback.
Context {U : Type}.
Implicit Type q : AppSrcSinkQueue U.

Lemma int_to_guint64_minus_1 : int_to_guint64 (-1) = 2 ^ 64 - 1.
Proof. reflexivity. Qed.

(** What the callback does up to the matching loop, for a sample that
    carries an id, copies and maps. *)
Lemma newSampleCallback_matching q buffer env id :
  correspondence_meta buffer = Some id -> id <> -1 ->
  mappable buffer = true ->
  user_data_queue_ q <> [] ->
  newSampleCallback (PullSample buffer true) env q =
  match match_user_data (int_to_guint64 id) (user_data_queue_ q) with
  | MatchUndefined => Undefined
  | MatchThrow rest =>
      Throws (AppSrcSinkQueue_Error
                "Correspondence id is smaller than first element in user data queue")
             (set_user_data_queue_ rest q)
  | MatchFound tuple rest =>
      publish (stamp buffer (fst tuple), snd tuple) env (set_user_data_queue_ rest q)
  end.
Proof.
  intros Hmeta Hid Hmap Hne. unfold newSampleCallback.
  unfold gst_buffer_correspondence_meta_has, gst_buffer_correspondence_meta_get_id.
  rewrite Hmeta, Hmap. simpl.
  replace (id =? -1) with false by (symmetry; apply Z.eqb_neq; exact Hid).
  destruct (user_data_queue_ q) as [|e l] eqn:E; [congruence|]. reflexivity.
Qed.

(** C4.  The pending queue is [stale ++ tuple :: rest] with ascending
    offsets, and a result arrives whose id is the offset of [tuple] (the
    entry after the [K = length stale] first ones).  Then all of [stale]
    has smaller offsets, the callback goes on to publish the copy of the
    result stamped with [tuple]'s timing together with [tuple]'s user
    data, and however the call ends the pending queue is [rest] and the
    output queue holds nothing new except possibly that one pair: the
    skipped entries are gone and were not delivered. *)
Theorem stale_entries_are_discarded q buffer env id stale tuple rest :
  user_data_queue_ q = stale ++ tuple :: rest ->
  StronglySorted Z.lt (map (fun e => offset (fst e)) (user_data_queue_ q)) ->
  correspondence_meta buffer = Some id -> id <> -1 ->
  int_to_guint64 id = offset (fst tuple) ->
  mappable buffer = true ->
  let output_tuple := (stamp buffer (fst tuple), snd tuple) in
  Forall (fun e => offset (fst e) < int_to_guint64 id) stale /\
  buffer_info_of (fst output_tuple) = fst tuple /\
  buffer_data (fst output_tuple) = buffer_data buffer /\
  newSampleCallback (PullSample buffer true) env q
    = publish output_tuple env (set_user_data_queue_ rest q) /\
  forall q', state_of (newSampleCallback (PullSample buffer true) env q) = Some q' ->
    user_data_queue_ q' = rest /\
    forall x, In x (queue_ (base q')) -> In x (queue_ (base q)) \/ x = output_tuple.
Proof.
  intros Hq Hsorted Hmeta Hid Heq Hmap output_tuple.
  assert (Hstale : Forall (fun e => offset (fst e) < int_to_guint64 id) stale).
  { rewrite Heq. apply (ascending_prefix_smaller stale tuple rest).
    rewrite <- Hq. exact Hsorted. }
  assert (Hcall : newSampleCallback (PullSample buffer true) env q
                  = publish output_tuple env (set_user_data_queue_ rest q)).
  { rewrite (newSampleCallback_matching q buffer env id Hmeta Hid Hmap).
    - rewrite Hq, (match_user_data_skips _ stale tuple rest Hstale (eq_sym Heq)).
      reflexivity.
    - rewrite Hq. destruct stale; discriminate. }
  split; [exact Hstale|]. split; [destruct tuple as [[] u]; reflexivity|].
  split; [reflexivity|]. split; [exact Hcall|].
  intros q' Hq'. rewrite Hcall in Hq'.
  apply publish_effect in Hq'. exact Hq'.
Qed.

(** The comparison of the matching loop is made on the id converted to
    [guint64].  When the converted id is below the offset of the front
    entry (a [guint64]), the callback throws and the output queue is
    untouched; when the copy and the mapping of the result succeed the
    exception is the ordering error of the matching loop. *)
Lemma smaller_converted_id_throws q buffer copy_ok env id tuple rest :
  correspondence_meta buffer = Some id ->
  user_data_queue_ q = tuple :: rest ->
  offset (fst tuple) < 2 ^ 64 ->
  int_to_guint64 id < offset (fst tuple) ->
  exists exn q',
    newSampleCallback (PullSample buffer copy_ok) env q = Throws exn q' /\
    base q' = base q /\
    (copy_ok = true -> mappable buffer = true ->
     exn = AppSrcSinkQueue_Error
             "Correspondence id is smaller than first element in user data queue" /\
     q' = set_user_data_queue_ rest q).
Proof.
  intros Hmeta Hq Hrange Hlt.
  assert (Hid : id <> -1).
  { intros ->. rewrite int_to_guint64_minus_1 in Hlt. lia. }
  unfold newSampleCallback.
  unfold gst_buffer_correspondence_meta_has, gst_buffer_correspondence_meta_get_id.
  rewrite Hmeta. simpl.
  replace (id =? -1) with false by (symmetry; apply Z.eqb_neq; exact Hid).
  destruct copy_ok; simpl.
  - destruct (mappable buffer); simpl.
    + rewrite Hq. rewrite (match_user_data_throws _ tuple rest Hlt).
      eexists _, _. split; [reflexivity|]. split; [reflexivity|]. auto.
    + eexists _, _. split; [reflexivity|]. split; [reflexivity|]. discriminate.
  - eexists _, _. split; [reflexivity|]. split; [reflexivity|]. discriminate.
Qed.

(** C5, amended.  The pending queue is not empty and the result carries an
    id that is not negative and strictly below the offset of the front
    entry (a [guint64]).  Then the callback throws and the output queue is
    untouched, so no pair is published and the result is neither matched
    nor dropped quietly; when the copy and the mapping of the result
    succeed the exception is the ordering error of the matching loop and
    the front entry is the only pending entry removed. *)
Theorem smaller_nonnegative_id_is_fatal q buffer copy_ok env id tuple rest :
  correspondence_meta buffer = Some id ->
  user_data_queue_ q = tuple :: rest ->
  offset (fst tuple) < 2 ^ 64 ->
  0 <= id ->
  id < offset (fst tuple) ->
  exists exn q',
    newSampleCallback (PullSample buffer copy_ok) env q = Throws exn q' /\
    base q' = base q /\
    (copy_ok = true -> mappable buffer = true ->
     exn = AppSrcSinkQueue_Error
             "Correspondence id is smaller than first element in user data queue" /\
     q' = set_user_data_queue_ rest q).
Proof.
  intros Hmeta Hq Hrange Hid Hlt.
  apply (smaller_converted_id_throws q buffer copy_ok env id tuple rest Hmeta Hq Hrange).
  unfold int_to_guint64. rewrite Z.mod_small by lia. exact Hlt.
Qed.




End AppSrcSinkQueue_callback.

Section PendingQueueBound.
Context {U : Type}.
Implicit Type q : AppSrcSinkQueue U.

Lemma evict_oldest_pending q :
  user_data_queue_ (evict_oldest q) = tl (user_data_queue_ q).
Proof. unfold evict_oldest. rewrite count_src_overflow_pending. reflexivity. Qed.

Lemma length_tl {A} (l : list A) : List.length (tl l) = Nat.pred (List.length l).
Proof. destruct l; reflexivity. Qed.

(** [pushData] keeps the pending queue within the safety bound. *)
Lemma pushData_keeps_bound push_ret buffer user_data q appsrc s' :
  (List.length (user_data_queue_ q) <= MAX_USER_DATA_QUEUE_SIZE)%nat ->
  state_of (pushData push_ret buffer user_data (q, appsrc)) = Some s' ->
  (List.length (user_data_queue_ (fst s')) <= MAX_USER_DATA_QUEUE_SIZE)%nat.
Proof.
  intros Hb. unfold pushData.
  destruct (_ && _); [intros [= <-]; exact Hb|].
  destruct (is_GST_FLOW_OK push_ret); [|intros [= <-]; exact Hb].
  destruct (MAX_USER_DATA_QUEUE_SIZE <=? List.length (user_data_queue_ q))%nat eqn:E;
    destruct (mappable buffer); cbn [state_of]; intros [= <-];
    cbn [fst user_data_queue_ set_user_data_queue_];
    rewrite ?evict_oldest_pending, length_app, ?length_tl; cbn [List.length].
  all: first [apply Nat.leb_gt in E | apply Nat.leb_le in E].
  all: unfold MAX_USER_DATA_QUEUE_SIZE in *; lia.
Qed.

(** The callback never adds a pending entry. *)
Lemma newSampleCallback_pending pull env q q' :
  state_of (newSampleCallback pull env q) = Some q' ->
  (List.length (user_data_queue_ q') <= List.length (user_data_queue_ q))%nat.
Proof.
  unfold newSampleCallback.
  destruct pull as [is_eos|buffer copy_ok].
  - destruct is_eos; cbn [state_of]; intros [= <-]; simpl; lia.
  - cbv zeta. set (cid := if negb _ then -1 else _).
    destruct (cid =? -1); cbn [state_of].
    { intros [= <-]. rewrite count_correspondence_fail_pending. lia. }
    destruct (negb copy_ok); cbn [state_of]; [intros [= <-]; lia|].
    destruct (negb (mappable buffer)); cbn [state_of]; [intros [= <-]; lia|].
    destruct (user_data_queue_ q) as [|e l] eqn:E; cbn [state_of];
      [intros [= <-]; simpl; rewrite E; simpl; lia|].
    pose proof (match_user_data_shrinks (int_to_guint64 cid) (e :: l)) as Hs.
    destruct (match_user_data (int_to_guint64 cid) (e :: l)) as [t rest|rest|];
      cbn [state_of].
    + intros H. apply publish_effect in H. destruct H as [H _]. rewrite H.
      cbn [user_data_queue_ set_user_data_queue_]. lia.
    + intros [= <-]. cbn [user_data_queue_ set_user_data_queue_]. lia.
    + discriminate.
Qed.

Lemma reachable_pending_bounded (s : AppSrcSinkQueue U * GstAppSrc) :
  ASQ_reachable s -> (List.length (user_data_queue_ (fst s)) <= MAX_USER_DATA_QUEUE_SIZE)%nat.
Proof.
  induction 1 as [mode out_max in_max
                 | [q appsrc] s' push_ret buffer user_data _ IH Hstep
                 | q q' appsrc pull env _ IH Hstep
                 | q b' appsrc _ IH _
                 | q appsrc flag _ IH
                 | q appsrc _ IH]; simpl in *.
  - unfold MAX_USER_DATA_QUEUE_SIZE. lia.
  - eapply pushData_keeps_bound; eauto.
  - apply newSampleCallback_pending in Hstep. lia.
  - exact IH.
  - exact IH.
  - exact IH.
Qed.

(** C7.  In every reachable state of the queue the pending user-data queue
    holds at most [MAX_USER_DATA_QUEUE_SIZE] entries.  When [pushData]
    gets past the admission check of the discard mode and appsrc accepts
    the buffer while the queue holds [MAX_USER_DATA_QUEUE_SIZE] entries or
    more, the front entry is popped, [src_overflow_counter_] is
    incremented (and reset with a warning on reaching
    [FRAME_DROP_REPORT_RATE]) and the new entry is appended behind the
    remaining ones; the discard mode plays no part in this. *)
Theorem pending_queue_bounded :
  (forall s : AppSrcSinkQueue U * GstAppSrc,
     ASQ_reachable s -> (List.length (user_data_queue_ (fst s)) <= MAX_USER_DATA_QUEUE_SIZE)%nat) /\
  (forall q appsrc buffer user_data,
     (MAX_USER_DATA_QUEUE_SIZE <= List.length (user_data_queue_ q))%nat ->
     (discard_mode_ q = DISCARD_INPUT_FRAMES -> (List.length (user_data_queue_ q) < max_input_queue_size_ q)%nat) ->
     let c := wrap32 (src_overflow_counter_ q + 1) in
     exists q',
       state_of (pushData GST_FLOW_OK buffer user_data (q, appsrc))
         = Some (q', appsrc ++ [buffer]) /\
       (mappable buffer = true ->
        pushData GST_FLOW_OK buffer user_data (q, appsrc)
          = Returns true (q', appsrc ++ [buffer])) /\
       user_data_queue_ q' = tl (user_data_queue_ q) ++ [(buffer_info_of buffer, user_data)] /\
       List.length (user_data_queue_ q') = List.length (user_data_queue_ q) /\
       src_overflow_counter_ q' = (if FRAME_DROP_REPORT_RATE <=? c then 0 else c) /\
       discard_mode_ q' = discard_mode_ q).
Proof.
  split; [exact reachable_pending_bounded|].
  intros q appsrc buffer user_data Hfull Hadmit c.
  unfold pushData.
  assert (Hgate : DiscardMode_eqb (discard_mode_ q) DISCARD_INPUT_FRAMES
                  && (max_input_queue_size_ q <=? List.length (user_data_queue_ q))%nat = false).
  { destruct (discard_mode_ q) eqn:Em; simpl; [|reflexivity].
    apply Nat.leb_gt. apply Hadmit. reflexivity. }
  rewrite Hgate. cbv zeta. cbn [is_GST_FLOW_OK].
  replace (MAX_USER_DATA_QUEUE_SIZE <=? List.length (user_data_queue_ q))%nat with true
    by (symmetry; apply Nat.leb_le; exact Hfull).
  exists (set_user_data_queue_
            (user_data_queue_ (evict_oldest q) ++ [(buffer_info_of buffer, user_data)])
            (evict_oldest q)).
  split; [destruct (mappable buffer); reflexivity|].
  split; [intros ->; reflexivity|].
  cbn [user_data_queue_ set_user_data_queue_]. rewrite evict_oldest_pending.
  split; [reflexivity|]. split.
  - rewrite length_app, length_tl. simpl. unfold MAX_USER_DATA_QUEUE_SIZE in Hfull. lia.
  - subst c. unfold evict_oldest, count_src_overflow. simpl.
    destruct (FRAME_DROP_REPORT_RATE <=? _); split; reflexivity.
Qed.

(** The admission check of [pushData] under [DISCARD_INPUT_FRAMES]. *)
Lemma pushData_rejects q appsrc push_ret buffer (user_data : U) :
  discard_mode_ q = DISCARD_INPUT_FRAMES ->
  (max_input_queue_size_ q <= List.length (user_data_queue_ q))%nat ->
  pushData push_ret buffer user_data (q, appsrc) = Returns false (q, appsrc).
Proof.
  intros Hmode Hfull. unfold pushData. rewrite Hmode. simpl.
  replace (max_input_queue_size_ q <=? List.length (user_data_queue_ q))%nat with true
    by (symmetry; apply Nat.leb_le; exact Hfull).
  reflexivity.
Qed.

End PendingQueueBound.

(** ** GstreamerPipeline *)

Section GstreamerPipeline_facts.
Context {U : Type}.
Implicit Type p : GstreamerPipeline U.

Lemma stop_input_side p p' :
  state_of (stop p) = Some p' -> input_side p' = input_side p.
Proof.
  destruct p as [pl a q fc wc lt dl tm mj tp co].
  unfold stop, bind, ensureInitialized, modify. simpl.
  destruct pl; simpl; intros [= <-]; reflexivity.
Qed.

Lemma start_input_side state_ret now p p' :
  state_of (start state_ret now p) = Some p' -> input_side p' = input_side p.
Proof.
  destruct p as [pl a q fc wc lt dl tm mj tp co].
  unfold start, stop, bind, ensureInitialized, modify, get, ret, throw. simpl.
  destruct pl; simpl; [|intros [= <-]; reflexivity].
  destruct mj; simpl; destruct state_ret; simpl; intros [= <-]; reflexivity.
Qed.

(** The watchdog never restarts while the delivering flag is up; it only
    clears its counter. *)
Lemma watchdog_while_delivering env p :
  delivering_appsink_sample_ p = true ->
  watchdog env p
  = Returns false (if 0 <? watchdog_counter_ p then set_watchdog_counter_ 0 p else p).
Proof.
  intros H. unfold watchdog, bind, get. rewrite H. simpl.
  destruct (0 <? watchdog_counter_ p); reflexivity.
Qed.

(** However the appsink callback ends, it leaves the delivering flag
    raised and the time of the last sample as it was. *)
Lemma callback_leaves_flag_raised pull wenv p p' :
  state_of (newAppsinkSampleCallback pull wenv p) = Some p' ->
  delivering_appsink_sample_ p' = true /\
  last_appsink_sample_time_ p' = last_appsink_sample_time_ p.
Proof.
  unfold newAppsinkSampleCallback, bind, modify, zoom.
  destruct (newSampleCallback pull wenv _); cbn [state_of];
    try discriminate; intros [= <-]; split; reflexivity.
Qed.

(** When the watchdog does not restart it touched nothing but its
    counter. *)
Lemma watchdog_quiet env p p1 :
  watchdog env p = Returns false p1 ->
  exists c, p1 = set_watchdog_counter_ c p.
Proof.
  destruct p as [pl a q fc wc lt dl tm mj tp co].
  unfold watchdog, start, stop, bind, ensureInitialized, modify, get, ret, throw. simpl.
  destruct (negb dl && _); simpl.
  - destruct (WATCHDOG_RESET_COUNT <=? wrap32 (wc + 1)); simpl.
    + destruct pl; simpl; [|discriminate].
      destruct (set_state_ret env); simpl; discriminate.
    + intros [= <-]. eexists. reflexivity.
  - destruct (0 <? wc); simpl; intros [= <-]; eexists; reflexivity.
Qed.

Lemma watchdog_input_side env p p' :
  state_of (watchdog env p) = Some p' -> input_side p' = input_side p.
Proof.
  destruct p as [pl a q fc wc lt dl tm mj tp co].
  unfold watchdog, start, stop, bind, ensureInitialized, modify, get, ret, throw. simpl.
  destruct (negb dl && _); simpl.
  - destruct (WATCHDOG_RESET_COUNT <=? wrap32 (wc + 1)); simpl.
    + destruct pl; simpl; [|intros [= <-]; reflexivity].
      destruct (set_state_ret env); simpl; intros [= <-]; reflexivity.
    + intros [= <-]. reflexivity.
  - destruct (0 <? wc); simpl; intros [= <-]; reflexivity.
Qed.

Lemma watchdog_defined env p : watchdog env p <> Undefined.
Proof.
  destruct p as [pl a q fc wc lt dl tm mj tp co].
  unfold watchdog, start, stop, bind, ensureInitialized, modify, get, ret, throw. simpl.
  destruct (negb dl && _); simpl.
  - destruct (WATCHDOG_RESET_COUNT <=? wrap32 (wc + 1)); simpl.
    + destruct pl; simpl; [|discriminate].
      destruct (set_state_ret env); simpl; discriminate.
    + discriminate.
  - destruct (0 <? wc); simpl; discriminate.
Qed.

(** The stalled call that reaches the reset count restarts the pipeline:
    one [GST_STATE_NULL] and one [GST_STATE_PLAYING] request, counter back
    to zero, and [pushInput] answers [false]. *)
Lemma watchdog_restarts env p l :
  pipeline_ p = Some l ->
  delivering_appsink_sample_ p = false ->
  WATCHDOG_TIMEOUT <= clock_now env - last_appsink_sample_time_ p ->
  WATCHDOG_RESET_COUNT <= wrap32 (watchdog_counter_ p + 1) ->
  set_state_ret env <> GST_STATE_CHANGE_FAILURE ->
  exists p',
    watchdog env p = Returns true p' /\
    pipeline_ p' = Some (l ++ [GST_STATE_NULL; GST_STATE_PLAYING]) /\
    watchdog_counter_ p' = 0 /\
    last_appsink_sample_time_ p' = clock_restart env.
Proof.
  destruct p as [pl a q fc wc lt dl tm mj tp co]. simpl.
  intros -> -> Ht Hc Hs.
  unfold watchdog, start, stop, bind, ensureInitialized, modify, get, ret, throw. simpl.
  replace (WATCHDOG_TIMEOUT <=? clock_now env - lt) with true
    by (symmetry; apply Z.leb_le; exact Ht).
  simpl.
  replace (WATCHDOG_RESET_COUNT <=? wrap32 (wc + 1)) with true
    by (symmetry; apply Z.leb_le; exact Hc).
  simpl.
  destruct (set_state_ret env); [congruence| | |]; simpl;
    eexists; (split; [reflexivity|]); simpl; rewrite <- app_assoc; auto.
Qed.


(** [stamp_and_forward] written out on an initialized pipeline. *)
Lemma stamp_and_forward_eq env buffer user_data p :
  pipeline_ p <> None ->
  stamp_and_forward env buffer user_data p =
  let t_prev := match time_previous p with
                | Some t => t
                | None => wrap64 (gst_time_now env - gst_frame_period)
                end in
  let p2 := set_time_previous (Some t_prev) p in
  let b := stamp_input (gst_time_now env) t_prev (frame_counter_ p) buffer in
  match pushData (push_ret env) b user_data (appsrcsink_queue_ p, appsrc_ p) with
  | Returns true s =>
      Returns true
        (set_time_previous (Some (gst_time_now env))
           (set_frame_counter_ (wrap64 (frame_counter_ p + 1)) (set_queue_appsrc s p2)))
  | Returns false s => Returns false (set_queue_appsrc s p2)
  | Throws e s => Throws e (set_queue_appsrc s p2)
  | Blocked s => Blocked (set_queue_appsrc s p2)
  | Undefined => Undefined
  end.
Proof.
  intros Hinit.
  destruct p as [pl a q fc wc lt dl tm mj tp co]. simpl in Hinit.
  destruct pl as [l|]; [clear Hinit|congruence].
  unfold stamp_and_forward, bind, ensureInitialized, modify, get, ret, zoom. simpl.
  destruct tp as [t|]; simpl;
    match goal with
    | |- context [pushData ?x ?y ?z ?w] => destruct (pushData x y z w) as [[] s|e s|s|]
    end; reflexivity.
Qed.

(** [pushInput] by cases on what the watchdog does. *)
Lemma pushInput_eq env buffer user_data p :
  pushInput env buffer user_data p =
  match pipeline_ p with
  | None => Throws (std_runtime_error "Pipeline was not initialized") p
  | Some _ =>
      match watchdog env p with
      | Returns true p1 => Returns false p1
      | Returns false p1 => stamp_and_forward env buffer user_data p1
      | Throws e p1 => Throws e p1
      | Blocked p1 => Blocked p1
      | Undefined => Undefined
      end
  end.
Proof.
  unfold pushInput. unfold bind at 1. unfold ensureInitialized.
  destruct (pipeline_ p); [|reflexivity].
  unfold bind. destruct (watchdog env p) as [[] p1|e p1|p1|]; reflexivity.
Qed.

Lemma watchdog_keeps_pipeline env p p1 :
  watchdog env p = Returns false p1 -> pipeline_ p1 = pipeline_ p.
Proof. intros W. destruct (watchdog_quiet env p p1 W) as [c ->]. reflexivity. Qed.

(** C3.  Discard mode is [DISCARD_INPUT_FRAMES] and the pending queue
    holds at least [max_input_queue_size_] entries.  Then [pushData]
    returns [false] and leaves queue and appsrc exactly as they were, so
    nothing is pushed into appsrc and nothing is appended; [pushInput]
    never returns [true], and however it ends [frame_counter_], the
    buffers handed to appsrc and the pending queue are unchanged.  On an
    initialized pipeline whose watchdog stays quiet it returns [false]. *)
Theorem discard_input_rejects_at_bound env buffer user_data p :
  discard_mode_ (appsrcsink_queue_ p) = DISCARD_INPUT_FRAMES ->
  (max_input_queue_size_ (appsrcsink_queue_ p)
   <= List.length (user_data_queue_ (appsrcsink_queue_ p)))%nat ->
  (forall push_ret b u appsrc,
     pushData push_ret b u (appsrcsink_queue_ p, appsrc)
     = Returns false (appsrcsink_queue_ p, appsrc)) /\
  pushInput env buffer user_data p <> Undefined /\
  (forall r p', pushInput env buffer user_data p = Returns r p' -> r = false) /\
  (forall p', state_of (pushInput env buffer user_data p) = Some p' ->
     frame_counter_ p' = frame_counter_ p /\
     appsrc_ p' = appsrc_ p /\
     user_data_queue_ (appsrcsink_queue_ p') = user_data_queue_ (appsrcsink_queue_ p)) /\
  (forall p1, pipeline_ p <> None -> watchdog env p = Returns false p1 ->
     exists p', pushInput env buffer user_data p = Returns false p').
Proof.
  intros Hmode Hfull.
  split; [intros; apply pushData_rejects; assumption|].
  assert (Hside : forall p', input_side p' = input_side p ->
            frame_counter_ p' = frame_counter_ p /\
            appsrc_ p' = appsrc_ p /\
            user_data_queue_ (appsrcsink_queue_ p')
            = user_data_queue_ (appsrcsink_queue_ p)).
  { unfold input_side. intros p' [= -> -> -> _ _]. auto. }
  assert (Htail : forall p1, watchdog env p = Returns false p1 -> pipeline_ p <> None ->
            exists p', stamp_and_forward env buffer user_data p1 = Returns false p' /\
                       input_side p' = input_side p).
  { intros p1 W Hinit. destruct (watchdog_quiet env p p1 W) as [c ->].
    rewrite stamp_and_forward_eq by exact Hinit. cbv zeta.
    cbn [appsrcsink_queue_ appsrc_ set_watchdog_counter_].
    rewrite pushData_rejects by assumption.
    eexists. split; [reflexivity|]. reflexivity. }
  rewrite pushInput_eq.
  destruct (pipeline_ p) as [l|] eqn:Ep.
  - pose proof (watchdog_input_side env p) as Hw.
    pose proof (watchdog_defined env p) as Hd.
    destruct (watchdog env p) as [[] p1|e p1|p1|] eqn:W.
    + split; [discriminate|]. split; [intros r p' [= <- _]; reflexivity|].
      split; [intros p' [= <-]; apply Hside, Hw; reflexivity|].
      intros p2 _ [=].
    + destruct (Htail p1 eq_refl ltac:(discriminate)) as [p' [Hp' Hs]].
      rewrite Hp'.
      split; [discriminate|]. split; [intros r p'' [= <- _]; reflexivity|].
      split; [intros p'' [= <-]; apply Hside, Hs|].
      intros p2 _ _. eexists. reflexivity.
    + split; [discriminate|]. split; [discriminate|].
      split; [intros p' [= <-]; apply Hside, Hw; reflexivity|].
      intros p2 _ [=].
    + split; [discriminate|]. split; [discriminate|].
      split; [intros p' [= <-]; apply Hside, Hw; reflexivity|].
      intros p2 _ [=].
    + congruence.
  - split; [discriminate|]. split; [discriminate|].
    split; [intros p' [= <-]; auto|].
    intros p1 H. congruence.
Qed.

End GstreamerPipeline_facts.

(** ** Correspondence between submissions and results *)

Section Sequences.
Context {S A : Type}.

Lemma sequence_cons_inv (m : M S A) ms s a r s'' :
  sequence (m :: ms) s = Returns (a :: r) s'' ->
  exists s', m s = Returns a s' /\ sequence ms s' = Returns r s''.
Proof.
  simpl. unfold bind, ret.
  destruct (m s) as [a' s'| | |] eqn:E1; try discriminate.
  destruct (sequence ms s') as [r' s3| | |] eqn:E2; try discriminate.
  intros H. injection H as -> -> ->. exists s'. split; [reflexivity|exact E2].
Qed.

Lemma sequence_cons_intro (m : M S A) ms s a r s' s'' :
  m s = Returns a s' -> sequence ms s' = Returns r s'' ->
  sequence (m :: ms) s = Returns (a :: r) s''.
Proof. intros H1 H2. simpl. unfold bind, ret. rewrite H1, H2. reflexivity. Qed.

End Sequences.

Section Correspondence.
Context {U : Type}.
Implicit Type p : GstreamerPipeline U.
Implicit Type q : AppSrcSinkQueue U.

(** With room in the queue and drain mode off the element goes in,
    blocking or not. *)
Lemma pushBack_room {T} (element : T) block env (b : SPSCFixedQueue T) :
  (size b < max_queue_size_ b)%nat ->
  discard_everything_ b = false ->
  pushBack element block env b
  = Returns true (notify_queue_filled (set_queue_ (queue_ b ++ [element]) b)).
Proof.
  intros Hroom Hoff. unfold pushBack, bind. destruct block.
  - rewrite wait_for_space_no_wait by (apply must_wait_not_full; exact Hroom).
    unfold get. rewrite Hoff. reflexivity.
  - unfold get.
    replace (size b <? max_queue_size_ b)%nat with true
      by (symmetry; apply Nat.ltb_lt; exact Hroom).
    reflexivity.
Qed.

(** An accepted [pushData] below the safety bound appends one entry and
    records the buffer at appsrc. *)
Lemma pushData_accepted push_ret buffer (user_data : U) q appsrc s :
  pushData push_ret buffer user_data (q, appsrc) = Returns true s ->
  (List.length (user_data_queue_ q) < MAX_USER_DATA_QUEUE_SIZE)%nat ->
  s = (set_user_data_queue_ (user_data_queue_ q ++ [(buffer_info_of buffer, user_data)]) q,
       appsrc ++ [buffer]).
Proof.
  intros H Hlen. unfold pushData in H.
  destruct (_ && _); [discriminate|].
  destruct (is_GST_FLOW_OK push_ret); [|discriminate].
  replace (MAX_USER_DATA_QUEUE_SIZE <=? List.length (user_data_queue_ q))%nat with false in H
    by (symmetry; apply Nat.leb_gt; exact Hlen).
  cbv zeta in H. destruct (mappable buffer); [|discriminate].
  injection H as <-. reflexivity.
Qed.

Lemma stamp_input_offset time_now t_prev c buffer :
  offset (buffer_info_of (stamp_input time_now t_prev c buffer)) = c.
Proof. reflexivity. Qed.

(** An accepted [pushInput] below the safety bound: the id counter moves
    on by one, one entry carrying the old counter value as offset and the
    user data is appended, the output queue is not touched. *)
Lemma pushInput_accepted env buffer user_data p p' :
  pushInput env buffer user_data p = Returns true p' ->
  (List.length (user_data_queue_ (appsrcsink_queue_ p)) < MAX_USER_DATA_QUEUE_SIZE)%nat ->
  output_queue p' = output_queue p /\
  discard_mode_ (appsrcsink_queue_ p') = discard_mode_ (appsrcsink_queue_ p) /\
  frame_counter_ p' = wrap64 (frame_counter_ p + 1) /\
  exists info,
    offset info = frame_counter_ p /\
    user_data_queue_ (appsrcsink_queue_ p')
    = user_data_queue_ (appsrcsink_queue_ p) ++ [(info, user_data)].
Proof.
  rewrite pushInput_eq. intros H Hlen.
  destruct (pipeline_ p) as [l|] eqn:Ep; [|discriminate].
  destruct (watchdog env p) as [[] p1|e p1|p1|] eqn:W; try discriminate.
  destruct (watchdog_quiet env p p1 W) as [c ->].
  rewrite stamp_and_forward_eq in H by (cbn; congruence).
  cbv zeta in H. cbn [appsrcsink_queue_ appsrc_ set_watchdog_counter_ frame_counter_] in H.
  match type of H with
  | context [pushData ?x ?y ?z ?w] => destruct (pushData x y z w) as [[] s|e s|s|] eqn:P
  end; try discriminate.
  apply pushData_accepted in P; [|exact Hlen]. subst s.
  injection H as <-. cbn.
  repeat split; try reflexivity.
  eexists. split; [|reflexivity]. reflexivity.
Qed.


Lemma ids_from_length c n : List.length (ids_from c n) = n.
Proof. revert c. induction n as [|n IH]; intros c; simpl; [reflexivity|]. rewrite IH. reflexivity. Qed.

Lemma ids_from_range n : forall c x, In x (ids_from c n) -> c <= x < c + Z.of_nat n.
Proof.
  induction n as [|n IH]; intros c x; simpl; [intros []|].
  intros [<-|H]; [lia|]. apply IH in H. lia.
Qed.

Lemma ids_from_ascending n : forall c, StronglySorted Z.le (ids_from c n).
Proof.
  induction n as [|n IH]; intros c; simpl; constructor.
  - apply IH.
  - apply Forall_forall. intros x Hx. apply ids_from_range in Hx. lia.
Qed.

Lemma map_fst_combine {A B C} (g : A -> C) (a : list A) : forall (b : list B),
  List.length a = List.length b ->
  map (fun x => g (fst x)) (combine a b) = map g a.
Proof.
  induction a as [|x a IH]; intros [|y b]; simpl; try discriminate; [reflexivity|].
  intros [= H]. rewrite IH by exact H. reflexivity.
Qed.

Lemma map_snd_combine {A B C} (g : B -> C) (a : list A) : forall (b : list B),
  List.length a = List.length b ->
  map (fun x => g (snd x)) (combine a b) = map g b.
Proof.
  induction a as [|x a IH]; intros [|y b]; simpl; try discriminate; [reflexivity|].
  intros [= H]. rewrite IH by exact H. reflexivity.
Qed.

(** All submissions accepted, below the safety bound: the pending queue
    grows by one entry per submission, with consecutive offsets starting
    at the id counter and the user data in submission order. *)
Lemma submit_all_accepted : forall (l : list (PushEnv * GstBuffer * U)) p p1,
  submit_all l p = Returns (repeat true (List.length l)) p1 ->
  (List.length (user_data_queue_ (appsrcsink_queue_ p)) + List.length l
   <= MAX_USER_DATA_QUEUE_SIZE)%nat ->
  0 <= frame_counter_ p ->
  frame_counter_ p + Z.of_nat (List.length l) < 2 ^ 64 ->
  output_queue p1 = output_queue p /\
  discard_mode_ (appsrcsink_queue_ p1) = discard_mode_ (appsrcsink_queue_ p) /\
  exists entries,
    user_data_queue_ (appsrcsink_queue_ p1)
    = user_data_queue_ (appsrcsink_queue_ p) ++ entries /\
    map (fun e => offset (fst e)) entries = ids_from (frame_counter_ p) (List.length l) /\
    map snd entries = map snd l.
Proof.
  induction l as [|x l IH]; intros p p1 H Hlen Hc0 Hc1.
  - injection H as <-. repeat split; try reflexivity.
    exists []. rewrite app_nil_r. auto.
  - apply sequence_cons_inv in H. destruct H as [p' [Hpush Hrest]].
    cbn [List.length] in Hlen, Hc1.
    apply pushInput_accepted in Hpush; [|lia].
    destruct Hpush as [Hout [Hmode [Hfc [info [Hoff Hq]]]]].
    assert (Hfc' : frame_counter_ p' = frame_counter_ p + 1).
    { rewrite Hfc. unfold wrap64. apply Z.mod_small. lia. }
    apply IH in Hrest.
    + destruct Hrest as [Hout' [Hmode' [entries [Hq' [Hids Hus]]]]].
      split; [congruence|]. split; [congruence|].
      exists ((info, snd x) :: entries).
      rewrite Hq', Hq, <- app_assoc. split; [reflexivity|].
      cbn [map List.length ids_from fst snd]. rewrite Hoff, Hids, Hus, Hfc'. auto.
    + rewrite Hq, length_app. cbn [List.length]. lia.
    + lia.
    + lia.
Qed.

Lemma int_to_guint64_small id : 0 <= id < 2 ^ 31 -> int_to_guint64 id = id.
Proof. intros H. unfold int_to_guint64. apply Z.mod_small. lia. Qed.

(** A result whose id is the offset of the front pending entry is paired
    with that entry and appended to an output queue that has room. *)
Lemma deliver_front r info (u : U) rest p id :
  user_data_queue_ (appsrcsink_queue_ p) = (info, u) :: rest ->
  correspondence_meta r = Some id -> id <> -1 ->
  int_to_guint64 id = offset info ->
  mappable r = true ->
  (size (output_queue p) < max_queue_size_ (output_queue p))%nat ->
  discard_everything_ (output_queue p) = false ->
  exists p',
    newAppsinkSampleCallback (PullSample r true) [] p = Returns GST_FLOW_OK p' /\
    user_data_queue_ (appsrcsink_queue_ p') = rest /\
    queue_ (output_queue p') = queue_ (output_queue p) ++ [(stamp r info, u)] /\
    max_queue_size_ (output_queue p') = max_queue_size_ (output_queue p) /\
    discard_everything_ (output_queue p') = false.
Proof.
  intros Hq Hmeta Hid Heq Hmap Hroom Hoff.
  unfold newAppsinkSampleCallback, bind, modify, zoom.
  cbn [appsrcsink_queue_ set_delivering_appsink_sample_].
  rewrite (newSampleCallback_matching _ r [] id Hmeta Hid Hmap) by (rewrite Hq; discriminate).
  rewrite Hq.
  pose proof (match_user_data_skips (int_to_guint64 id) [] (info, u) rest
                (Forall_nil _) (eq_sym Heq)) as Hm.
  cbn [app] in Hm. rewrite Hm.
  unfold publish. cbn [base set_user_data_queue_ discard_mode_].
  unfold output_queue in Hroom, Hoff.
  rewrite pushBack_room by assumption.
  eexists. split; [reflexivity|].
  unfold output_queue. cbn. rewrite Hoff. auto.
Qed.

(** Results that arrive in the order of the pending entries, one for
    each, are paired with them one by one. *)
Lemma deliver_all_matches : forall (entries : list (GstreamerBufferInfo * U)) rs p,
  user_data_queue_ (appsrcsink_queue_ p) = entries ->
  map correspondence_meta rs = map (fun e => Some (offset (fst e))) entries ->
  Forall (fun e => 0 <= offset (fst e) < 2 ^ 31) entries ->
  Forall (fun r => mappable r = true) rs ->
  (size (output_queue p) + List.length rs <= max_queue_size_ (output_queue p))%nat ->
  discard_everything_ (output_queue p) = false ->
  exists p',
    deliver_all rs p = Returns (repeat GST_FLOW_OK (List.length rs)) p' /\
    user_data_queue_ (appsrcsink_queue_ p') = [] /\
    queue_ (output_queue p')
    = queue_ (output_queue p) ++ map pair_up (combine entries rs).
Proof.
  induction entries as [|[info u] entries IH]; intros rs p Hq Hmeta Hrange Hmap Hroom Hoff.
  - destruct rs; [|discriminate]. exists p. cbn. rewrite app_nil_r. auto.
  - destruct rs as [|r rs]; [discriminate|].
    cbn [map fst] in Hmeta. injection Hmeta as Hr Hmeta.
    inversion Hrange as [|? ? Hinfo Hrange']; subst.
    inversion Hmap as [|? ? Hr_map Hmap']; subst.
    cbn [List.length] in Hroom.
    cbn [fst] in Hinfo.
    assert (Hid : offset info <> -1) by lia.
    assert (Hconv : int_to_guint64 (offset info) = offset info)
      by (apply int_to_guint64_small; exact Hinfo).
    assert (Hroom1 : (size (output_queue p) < max_queue_size_ (output_queue p))%nat) by lia.
    destruct (deliver_front r info u entries p (offset info) Hq Hr Hid Hconv Hr_map Hroom1 Hoff)
      as [p1 [H1 [Hq1 [Ho1 [Hm1 Hd1]]]]].
    destruct (IH rs p1) as [p2 [H2 [Hq2 Ho2]]]; auto.
    { unfold size in *. rewrite Ho1, length_app, Hm1. cbn [List.length]. lia. }
    exists p2. split; [|split; [exact Hq2|]].
    + unfold deliver_all. cbn [map List.length repeat].
      eapply sequence_cons_intro; [exact H1|exact H2].
    + rewrite Ho2, Ho1, <- app_assoc. reflexivity.
Qed.

(** Popping as many times as the output queue has elements returns them
    front to back. *)
Lemma pop_all_returns : forall (outs : list (GstBuffer * U)) p,
  queue_ (output_queue p) = outs ->
  exists p', pop_all (List.length outs) p = Returns outs p' /\
             queue_ (output_queue p') = [].
Proof.
  induction outs as [|o outs IH]; intros p Hq.
  - exists p. split; [reflexivity|exact Hq].
  - assert (H1 : exists p1, popOutput p = Returns o p1 /\ queue_ (output_queue p1) = outs).
    { unfold popOutput, zoom, popFront, popFrontWithoutLocking. rewrite Hq.
      eexists. split; reflexivity. }
    destruct H1 as [p1 [H1 Hq1]].
    destruct (IH p1 Hq1) as [p2 [H2 Hq2]].
    exists p2. split; [|exact Hq2].
    unfold pop_all. cbn [List.length repeat].
    eapply sequence_cons_intro; [exact H1|exact H2].
Qed.

(** C1, amended.  The supervisor has no pending entry, an empty output
    queue with drain mode off, and an id counter [c >= 0].  [n] calls of
    [pushInput] all return [true], where [n] is at most
    [MAX_USER_DATA_QUEUE_SIZE] and at most the capacity of the output
    queue, and [c + n <= 2^31].  The appsink then delivers [n] mappable
    results carrying the ids [c], ..., [c + n - 1] in this order.  Then
    every callback returns [GST_FLOW_OK], the output queue holds the pairs
    in non-decreasing id order, and [n] calls of [popOutput] return them:
    the user data in submission order, each with the payload and the id of
    its result. *)
Theorem results_matched_in_submission_order
    (l : list (PushEnv * GstBuffer * U)) (rs : list GstBuffer) p p1 :
  user_data_queue_ (appsrcsink_queue_ p) = [] ->
  queue_ (output_queue p) = [] ->
  discard_everything_ (output_queue p) = false ->
  (List.length l <= MAX_USER_DATA_QUEUE_SIZE)%nat ->
  (List.length l <= max_queue_size_ (output_queue p))%nat ->
  0 <= frame_counter_ p ->
  frame_counter_ p + Z.of_nat (List.length l) <= 2 ^ 31 ->
  map correspondence_meta rs = map Some (ids_from (frame_counter_ p) (List.length l)) ->
  Forall (fun r => mappable r = true) rs ->
  submit_all l p = Returns (repeat true (List.length l)) p1 ->
  in_order_delivery l rs p1.
Proof.
  intros Hpending Hout Hdrain Hn1 Hn2 Hc0 Hc1 Hmeta Hmap Hsubmit.
  assert (Hlen_rs : List.length rs = List.length l).
  { apply (f_equal (@List.length _)) in Hmeta.
    rewrite !length_map, ids_from_length in Hmeta. exact Hmeta. }
  apply submit_all_accepted in Hsubmit; [|rewrite Hpending; cbn [List.length]; lia|lia|lia].
  destruct Hsubmit as [Hout1 [_ [entries [Hq [Hids Hus]]]]].
  rewrite Hpending in Hq. cbn [app] in Hq.
  assert (Hlen_e : List.length entries = List.length l).
  { apply (f_equal (@List.length _)) in Hus. rewrite !length_map in Hus. exact Hus. }
  assert (Hrange : Forall (fun e => 0 <= offset (fst e) < 2 ^ 31) entries).
  { apply Forall_forall. intros e He.
    assert (Hin : In (offset (fst e)) (ids_from (frame_counter_ p) (List.length l))).
    { rewrite <- Hids. apply (in_map (fun e => offset (fst e))). exact He. }
    apply ids_from_range in Hin. lia. }
  assert (Hmeta' : map correspondence_meta rs
                   = map (fun e => Some (offset (fst e))) entries).
  { rewrite Hmeta, <- Hids, map_map. reflexivity. }
  destruct (deliver_all_matches entries rs p1 Hq Hmeta' Hrange Hmap) as [p2 [Hd [_ Hq2]]].
  { unfold size. rewrite Hout1, Hout. cbn [List.length]. lia. }
  { rewrite Hout1. exact Hdrain. }
  rewrite Hout1, Hout in Hq2. cbn [app] in Hq2.
  destruct (pop_all_returns (map pair_up (combine entries rs)) p2 Hq2) as [p3 [Hpop _]].
  rewrite length_map, length_combine, Hlen_e, Hlen_rs, Nat.min_id in Hpop.
  assert (Hoffsets : map (fun o => GST_BUFFER_OFFSET (fst o)) (map pair_up (combine entries rs))
                     = ids_from (frame_counter_ p) (List.length l)).
  { rewrite map_map. cbn [pair_up fst snd stamp set_timing GST_BUFFER_OFFSET].
    rewrite (map_fst_combine (fun e => offset (fst e))) by congruence. exact Hids. }
  exists p2, p3, (map pair_up (combine entries rs)).
  split; [exact Hd|]. split; [exact Hq2|].
  split; [rewrite Hoffsets; apply ids_from_ascending|].
  split; [exact Hpop|].
  split; [|split].
  - rewrite map_map. cbn [pair_up snd].
    rewrite (map_fst_combine snd) by congruence. exact Hus.
  - rewrite map_map. cbn [pair_up fst stamp set_timing buffer_data].
    rewrite (map_snd_combine buffer_data) by congruence. reflexivity.
  - rewrite <- (map_map (fun o => GST_BUFFER_OFFSET (fst o)) Some), Hoffsets.
    symmetry. exact Hmeta.
Qed.

End Correspondence.

(** ** The theorems at concrete inputs *)

Section Instances.
Import Scenario.

(** C1 as stated fails.  First: 101 submissions are all accepted, the
    101st evicts the entry of the first, and the result with the first id
    makes the callback throw.  Second: two submissions are accepted and
    both results are taken, but the output queue holds only one pair, so
    the second pair is dropped and the second pop finds nothing. *)
Lemma eviction_and_overflow_break_delivery :
  (submit_all burst roomy = Returns (repeat true 101) (after_submissions burst roomy) /\
   map correspondence_meta (results 0 101)
   = map Some (ids_from (frame_counter_ roomy) 101) /\
   ~ in_order_delivery burst (results 0 101) (after_submissions burst roomy)) /\
  (submit_all two_frames narrow = Returns (repeat true 2) (after_submissions two_frames narrow) /\
   map correspondence_meta (results 0 2)
   = map Some (ids_from (frame_counter_ narrow) 2) /\
   ~ in_order_delivery two_frames (results 0 2) (after_submissions two_frames narrow)).
Proof.
  split; (split; [vm_compute; reflexivity|]); (split; [vm_compute; reflexivity|]).
  - intros (p2 & p3 & outs & Hd & _). vm_compute in Hd. discriminate Hd.
  - intros (p2 & p3 & outs & Hd & _ & _ & Hpop & _).
    vm_compute in Hd. injection Hd as <-.
    vm_compute in Hpop. discriminate Hpop.
Qed.

Lemma results_matched_witness :
  submit_all three_frames default_input
    = Returns (repeat true 3) (after_submissions three_frames default_input) /\
  in_order_delivery three_frames (results 0 3) (after_submissions three_frames default_input).
Proof.
  split; [vm_compute; reflexivity|].
  apply (results_matched_in_submission_order three_frames (results 0 3) default_input).
  - reflexivity.
  - reflexivity.
  - reflexivity.
  - vm_compute. lia.
  - vm_compute. lia.
  - vm_compute. discriminate.
  - vm_compute. discriminate.
  - reflexivity.
  - repeat constructor.
  - vm_compute. reflexivity.
Defined.

(** C2, at the failing input.  Without any delivery, ten stalled
    submissions restart the pipeline: the tenth returns [false], the
    native pipeline was sent to [GST_STATE_NULL] and back to
    [GST_STATE_PLAYING] once, the counter is zero.  After a single
    delivery the callback has left [delivering_appsink_sample_] raised and
    [last_appsink_sample_time_] untouched, and ten stalled submissions
    that follow are all accepted with no restart at all. *)
Theorem watchdog_dead_after_first_delivery :
  (let p := after_submissions (stalled 0 10) default_output in
   submit_all (stalled 0 10) default_output = Returns (repeat true 9 ++ [false]) p /\
   pipeline_ p = Some [GST_STATE_PLAYING; GST_STATE_NULL; GST_STATE_PLAYING] /\
   watchdog_counter_ p = 0) /\
  exists p1 p2,
    pushInput (at_time 1000000000) frame 0%nat default_output = Returns true p1 /\
    newAppsinkSampleCallback (PullSample (processed 0) true) [] p1 = Returns GST_FLOW_OK p2 /\
    delivering_appsink_sample_ p2 = true /\
    last_appsink_sample_time_ p2 = last_appsink_sample_time_ default_output /\
    let p3 := after_submissions (stalled 1 10) p2 in
    submit_all (stalled 1 10) p2 = Returns (repeat true 10) p3 /\
    pipeline_ p3 = Some [GST_STATE_PLAYING] /\
    watchdog_counter_ p3 = 0 /\
    List.length (appsrc_ p3) = 11%nat.
Proof.
  split; [vm_compute; auto|].
  eexists. eexists.
  split; [vm_compute; reflexivity|].
  split; [vm_compute; reflexivity|].
  vm_compute. auto 10.
Qed.


Lemma discard_input_witness :
  discard_mode_ (appsrcsink_queue_ at_input_bound) = DISCARD_INPUT_FRAMES /\
  (max_input_queue_size_ (appsrcsink_queue_ at_input_bound)
   <= List.length (user_data_queue_ (appsrcsink_queue_ at_input_bound)))%nat /\
  pushData GST_FLOW_OK frame 3%nat (appsrcsink_queue_ at_input_bound, appsrc_ at_input_bound)
  = Returns false (appsrcsink_queue_ at_input_bound, appsrc_ at_input_bound) /\
  exists p', pushInput (at_time 4000000) frame 3%nat at_input_bound = Returns false p'.
Proof.
  assert (H1 : discard_mode_ (appsrcsink_queue_ at_input_bound) = DISCARD_INPUT_FRAMES)
    by reflexivity.
  assert (H2 : (max_input_queue_size_ (appsrcsink_queue_ at_input_bound)
                <= List.length (user_data_queue_ (appsrcsink_queue_ at_input_bound)))%nat)
    by (vm_compute; lia).
  destruct (discard_input_rejects_at_bound (at_time 4000000) frame 3%nat at_input_bound H1 H2)
    as [Hdata [_ [_ [_ Hinput]]]].
  split; [exact H1|]. split; [exact H2|]. split; [apply Hdata|].
  eapply Hinput; [vm_compute; discriminate | vm_compute; reflexivity].
Defined.

Lemma stale_entries_witness :
  StronglySorted Z.lt (map (fun e => offset (fst e)) (user_data_queue_ gappy)) /\
  newSampleCallback (PullSample (processed 7) true) [] gappy
  = publish (stamp (processed 7) (fst (entry 7 70%nat)), 70%nat) []
            (set_user_data_queue_ [entry 9 90%nat] gappy).
Proof.
  assert (Hs : StronglySorted Z.lt (map (fun e => offset (fst e)) (user_data_queue_ gappy))).
  { cbn. repeat constructor; lia. }
  split; [exact Hs|].
  apply (stale_entries_are_discarded gappy (processed 7) [] 7
           [entry 3 30%nat; entry 4 40%nat] (entry 7 70%nat) [entry 9 90%nat]).
  - reflexivity.
  - exact Hs.
  - reflexivity.
  - discriminate.
  - reflexivity.
  - reflexivity.
Defined.

(** C5 as stated fails for negative ids.  In each case the pending queue
    is not empty, the result's id is below the offset of the front entry,
    and the callback does not throw.  The id [-1] is the callback's mark
    for "no correspondence": a result carrying it is counted as a
    correspondence failure and dropped with [GST_FLOW_OK].  Other negative
    ids are compared as large [guint64] values: with the id [-2] the loop
    pops the only entry and reads the front of the empty deque, and with
    the id [-5] it passes the entry with offset 3 and pairs the result
    with the entry whose offset is [2^64 - 5], returning [GST_FLOW_OK]. *)
Lemma negative_id_is_not_fatal :
  (correspondence_meta (processed (-1)) = Some (-1) /\
   user_data_queue_ front_at_5 = [entry 5 50%nat] /\
   -1 < offset (fst (entry 5 50%nat)) /\
   newSampleCallback (PullSample (processed (-1)) true) [] front_at_5
   = Returns GST_FLOW_OK (count_correspondence_fail front_at_5) /\
   forall exn q',
     newSampleCallback (PullSample (processed (-1)) true) [] front_at_5
     <> Throws exn q') /\
  (correspondence_meta (processed (-2)) = Some (-2) /\
   user_data_queue_ front_at_5 = [entry 5 50%nat] /\
   -2 < offset (fst (entry 5 50%nat)) /\
   newSampleCallback (PullSample (processed (-2)) true) [] front_at_5 = Undefined /\
   forall exn q',
     newSampleCallback (PullSample (processed (-2)) true) [] front_at_5
     <> Throws exn q') /\
  (correspondence_meta (processed (-5)) = Some (-5) /\
   user_data_queue_ high_offset_pending
   = [entry 3 30%nat; entry (2 ^ 64 - 5) 40%nat] /\
   -5 < offset (fst (entry 3 30%nat)) /\
   (exists q',
      newSampleCallback (PullSample (processed (-5)) true) [] high_offset_pending
      = Returns GST_FLOW_OK q' /\
      user_data_queue_ q' = [] /\
      queue_ (base q')
      = [(stamp (processed (-5)) (fst (entry (2 ^ 64 - 5) 40%nat)), 40%nat)]) /\
   forall exn q',
     newSampleCallback (PullSample (processed (-5)) true) [] high_offset_pending
     <> Throws exn q').
Proof.
  split; [|split].
  - split; [reflexivity|]. split; [reflexivity|]. split; [reflexivity|].
    split; [vm_compute; reflexivity|].
    intros exn q' H. vm_compute in H. discriminate H.
  - split; [reflexivity|]. split; [reflexivity|]. split; [reflexivity|].
    split; [vm_compute; reflexivity|].
    intros exn q' H. vm_compute in H. discriminate H.
  - split; [reflexivity|]. split; [reflexivity|]. split; [reflexivity|].
    split.
    + eexists. split; [vm_compute; reflexivity|].
      split; vm_compute; reflexivity.
    + intros exn q' H. vm_compute in H. discriminate H.
Qed.

Lemma smaller_id_witness :
  0 <= 3 /\ 3 < offset (fst (entry 4 40%nat)) /\
  exists exn q',
    newSampleCallback (PullSample (processed 3) true) []
                      (set_user_data_queue_ [entry 4 40%nat; entry 7 70%nat] gappy)
    = Throws exn q' /\
    base q' = base (set_user_data_queue_ [entry 4 40%nat; entry 7 70%nat] gappy) /\
    (true = true -> mappable (processed 3) = true ->
     exn = AppSrcSinkQueue_Error
             "Correspondence id is smaller than first element in user data queue" /\
     q' = set_user_data_queue_ [entry 7 70%nat]
            (set_user_data_queue_ [entry 4 40%nat; entry 7 70%nat] gappy)).
Proof.
  assert (H0 : 0 <= 3) by lia.
  assert (Hlt : 3 < offset (fst (entry 4 40%nat))) by (vm_compute; reflexivity).
  split; [exact H0|]. split; [exact Hlt|].
  apply (smaller_nonnegative_id_is_fatal _ (processed 3) true [] 3
           (entry 4 40%nat) [entry 7 70%nat]).
  - reflexivity.
  - reflexivity.
  - vm_compute. reflexivity.
  - exact H0.
  - exact Hlt.
Defined.

Lemma pending_bound_witness :
  (MAX_USER_DATA_QUEUE_SIZE <= List.length (user_data_queue_ hundred_pending))%nat /\
  exists q',
    pushData GST_FLOW_OK frame 100%nat (hundred_pending, [])
    = Returns true (q', [frame]) /\
    List.length (user_data_queue_ q') = 100%nat /\
    src_overflow_counter_ q' = 1.
Proof.
  assert (Hfull : (MAX_USER_DATA_QUEUE_SIZE <= List.length (user_data_queue_ hundred_pending))%nat)
    by (vm_compute; lia).
  split; [exact Hfull|].
  destruct (proj2 (@pending_queue_bounded nat) hundred_pending [] frame 100%nat Hfull)
    as [q' [_ [Hret [_ [Hlen [Hcount _]]]]]].
  { intros _. vm_compute. lia. }
  exists q'. split; [apply Hret; reflexivity|]. split; [exact Hlen|exact Hcount].
Defined.

Lemma pushBack_witness :
  pushBack 3%nat true [WTimeout; WTimeout; WSetDiscardEverything true] full_queue
  = Returns false (setDiscardEverything true full_queue) /\
  pushBack 3%nat true [] half_queue
  = Returns true (notify_queue_filled (set_queue_ [1%nat; 3%nat] half_queue)) /\
  pushBack 3%nat false [] full_queue = Returns false full_queue.
Proof.
  split; [|split].
  - exact (proj1 (proj2 (pushBack_contract full_queue 3%nat [])) 2%nat eq_refl).
  - apply (proj1 (proj2 (proj2 (pushBack_contract half_queue 3%nat [])))).
    + vm_compute. lia.
    + reflexivity.
  - apply (proj2 (proj2 (proj2 (pushBack_contract full_queue 3%nat [])))).
    vm_compute. lia.
Defined.


Lemma popFront_witness :
  popFront_unique_lock true full_queue
  = Returns 1%nat (notify_queue_space_available (set_queue_ [2%nat] full_queue)) /\
  popFront_unique_lock false full_queue
  = Throws (std_runtime_error "Lock has not been acquired") full_queue.
Proof.
  split.
  - apply (proj1 (proj2 (popFront_contract full_queue)) 1%nat [2%nat]). reflexivity.
  - exact (proj1 (popFront_contract full_queue)).
Defined.

End Instances.

(** ** A buffer wrapper's life *)

Module BufferAccessFacts.
Import Wrapper BufferAccess.

Lemma in_use_construct ptr owns_buffer :
  in_use ptr owns_buffer (construct (Some ptr) owns_buffer, []).
Proof. cbn. repeat split; try discriminate; auto. Qed.

Lemma in_use_access ptr owns_buffer a answer s :
  in_use ptr owns_buffer s ->
  exists s', state_of (access a answer s) = Some s' /\ in_use ptr owns_buffer s'.
Proof.
  destruct s as [[p i m mw o] log]. unfold in_use. cbn [ptr_ owns_buffer_ mapped_ info_ mapped_writable_].
  intros (Hp & Ho & Hi & Hw & Hbal & Hptr & Hunref). subst p o.
  unfold access, bind, get, ret, ensureMapped, ensureMappedWritable,
    map_logged, mapWritable_logged, unmap.
  cbn [ptr_ owns_buffer_ mapped_ info_ mapped_writable_ fst].
  destruct a, m, mw, answer as [ans|]; cbn;
    try (specialize (Hw eq_refl); discriminate);
    try (destruct i as [i|]; [|exfalso; apply Hi; reflexivity]);
    cbn; eexists; (split; [reflexivity|]); cbn;
    rewrite ?app_nil_r, ?filter_app, ?length_app; cbn;
    repeat split; auto; try discriminate; try lia;
    try (apply Forall_app; split; [assumption|repeat constructor]);
    try (rewrite Hunref; reflexivity).
Qed.

Lemma in_use_accesses ptr owns_buffer l : forall s,
  in_use ptr owns_buffer s ->
  exists s', accesses l s = Some s' /\ in_use ptr owns_buffer s'.
Proof.
  induction l as [|[a answer] l IH]; intros s Hs.
  - exists s. split; [reflexivity|exact Hs].
  - destruct (in_use_access ptr owns_buffer a answer s Hs) as [s1 [H1 Hs1]].
    destruct (IH s1 Hs1) as [s2 [H2 Hs2]].
    exists s2. split; [|exact Hs2]. cbn [accesses]. rewrite H1. exact H2.
Qed.

(** X1.  A wrapper constructed on a buffer, used through any series of
    accessor calls (each [gst_buffer_map] succeeding or failing as it
    may) and then destroyed: the life is well defined; it unmapped the
    buffer as often as it mapped it; every call was made on its buffer; an
    owning wrapper unreffed the buffer exactly once, as its very last
    call; a borrowing wrapper never unreffed it. *)
Theorem wrapper_lifetime_is_balanced ptr owns_buffer l :
  exists log,
    lifetime ptr owns_buffer l = Some log /\
    List.length (filter is_map log) = List.length (filter is_unmap log) /\
    Forall (fun c => call_ptr c = Some ptr) log /\
    (if owns_buffer
     then exists log', log = log' ++ [gst_buffer_unref ptr] /\ filter is_unref log' = []
     else filter is_unref log = []).
Proof.
  destruct (in_use_accesses ptr owns_buffer l _ (in_use_construct ptr owns_buffer))
    as [[w log] [Hrun Hinv]].
  unfold lifetime. rewrite Hrun.
  destruct w as [p i m mw o]. unfold in_use in Hinv.
  cbn [ptr_ owns_buffer_ mapped_ info_ mapped_writable_] in Hinv.
  destruct Hinv as (Hp & Ho & Hi & Hw & Hbal & Hptr & Hunref). subst p o.
  eexists. split; [reflexivity|].
  unfold destroy, unref, unmap. cbn [ptr_ owns_buffer_ mapped_ info_ mapped_writable_ snd].
  destruct m, owns_buffer; cbn [snd app owns_buffer_];
    rewrite ?app_nil_r, ?filter_app, ?length_app; cbn.
  - split; [lia|]. split; [apply Forall_app; split; [assumption|repeat constructor]|].
    exists (log ++ [gst_buffer_unmap (Some ptr)]). rewrite <- app_assoc. split; [reflexivity|].
    rewrite filter_app, Hunref. reflexivity.
  - split; [lia|]. split; [apply Forall_app; split; [assumption|repeat constructor]|].
    rewrite Hunref. reflexivity.
  - split; [lia|]. split; [apply Forall_app; split; [assumption|repeat constructor]|].
    exists log. auto.
  - split; [lia|]. split; [assumption|]. assumption.
Qed.

End BufferAccessFacts.

(** ** Moving a GstCapsWrapper *)

Module CapsFacts.
Import Caps.

(** X2.  A caps wrapper whose string was fetched is moved and both wrappers are
    dropped.  Moved by construction, the string is freed once and the caps
    are unreffed once, by the new wrapper.  Moved by assignment, the
    destination first releases what it held, exactly as its destructor
    would; but the source keeps its string pointer, so dropping source and
    destination frees the same string twice. *)
Theorem caps_string_freed_on_move (fresh : gcharPtr) (w this : GstCapsWrapper) :
  let '(src, s, _) := getString fresh w in
  let (made, left) := move_construct src in
  let '(dst, left', released) := move_assign this src in
  List.length (filter (frees s) (destroy made ++ destroy left)) = 1%nat /\
  destroy made = destroy src /\ destroy left = [] /\
  released = destroy this /\
  destroy dst = destroy src /\
  destroy left' = [g_free s] /\
  List.length (filter (frees s) (destroy dst ++ destroy left')) = 2%nat.
Proof.
  destruct w as [p [s|]]; cbn; rewrite ?Nat.eqb_refl;
    destruct p; cbn; rewrite ?Nat.eqb_refl; repeat split.
Qed.

End CapsFacts.

(** ** SPSCFixedQueue: order, capacity, waiting *)

Section SPSCFixedQueue_more.
Context {T : Type}.
Implicit Type q : SPSCFixedQueue T.

Lemma pushBack_all_room block : forall (l : list T) q,
  (size q + List.length l <= max_queue_size_ q)%nat ->
  discard_everything_ q = false ->
  exists q',
    sequence (map (fun e => pushBack e block []) l) q
      = Returns (repeat true (List.length l)) q' /\
    queue_ q' = queue_ q ++ l /\
    max_queue_size_ q' = max_queue_size_ q /\
    discard_everything_ q' = false.
Proof.
  induction l as [|e l IH]; intros q Hroom Hoff.
  - exists q. cbn. rewrite app_nil_r. auto.
  - cbn [List.length] in Hroom.
    assert (H1 : pushBack e block [] q
                 = Returns true (notify_queue_filled (set_queue_ (queue_ q ++ [e]) q)))
      by (apply pushBack_room; [lia|exact Hoff]).
    destruct (IH (notify_queue_filled (set_queue_ (queue_ q ++ [e]) q))) as [q' [H2 [Hq [Hm Hd]]]].
    + unfold size in *. cbn. rewrite length_app. cbn. lia.
    + exact Hoff.
    + exists q'. split; [|split; [|split]].
      * cbn [map List.length repeat]. eapply sequence_cons_intro; [exact H1|exact H2].
      * rewrite Hq. cbn. rewrite <- app_assoc. reflexivity.
      * rewrite Hm. reflexivity.
      * exact Hd.
Qed.

Lemma popFront_all : forall (l : list T) q,
  queue_ q = l ->
  exists q', sequence (repeat popFront (List.length l)) q = Returns l q' /\
             queue_ q' = [] /\
             queue_space_available_notified q'
             = (queue_space_available_notified q + List.length l)%nat.
Proof.
  induction l as [|x l IH]; intros q Hq.
  - exists q. cbn. auto.
  - destruct (IH (notify_queue_space_available (set_queue_ l q)) eq_refl) as [q' [H [He Hn]]].
    exists q'. split; [|split; [exact He|]].
    + cbn [List.length repeat]. eapply sequence_cons_intro; [|exact H].
      unfold popFront, popFrontWithoutLocking. rewrite Hq. reflexivity.
    + rewrite Hn. cbn. lia.
Qed.

(** X3.  First in, first out.  Pushing the elements [l] into a queue that has
    room for all of them (drain mode off; blocking or not) succeeds every
    time, and popping as often as the queue then has elements returns the
    old content followed by [l], in this order, leaves the queue empty and
    notifies the space-available condition once per pop. *)
Theorem queue_is_first_in_first_out block (l : list T) q :
  (size q + List.length l <= max_queue_size_ q)%nat ->
  discard_everything_ q = false ->
  exists q1 q2,
    sequence (map (fun e => pushBack e block []) l) q
      = Returns (repeat true (List.length l)) q1 /\
    sequence (repeat popFront (size q + List.length l)) q1 = Returns (queue_ q ++ l) q2 /\
    queue_ q2 = [] /\
    queue_space_available_notified q2
    = (queue_space_available_notified q1 + size q + List.length l)%nat.
Proof.
  intros Hroom Hoff.
  destruct (pushBack_all_room block l q Hroom Hoff) as [q1 [H1 [Hq1 _]]].
  destruct (popFront_all (queue_ q ++ l) q1 Hq1) as [q2 [H2 [He Hn]]].
  rewrite length_app in H2, Hn.
  exists q1, q2. split; [exact H1|]. split; [exact H2|]. split; [exact He|].
  unfold size. lia.
Qed.

(** X4.  A [pushBack] never leaves more elements in the queue than
    [max_queue_size_], in either mode and whatever the other thread does
    while the producer waits. *)
Theorem pushBack_respects_capacity (element : T) block env q q' :
  (size q <= max_queue_size_ q)%nat ->
  state_of (pushBack element block env q) = Some q' ->
  (size q' <= max_queue_size_ q')%nat /\ max_queue_size_ q' = max_queue_size_ q.
Proof.
  intros Hcap. unfold pushBack, bind. destruct block.
  - destruct (wait_for_space env q) as [[] q1|e q1|q1|] eqn:W; cbn [state_of];
      try discriminate.
    + assert (Hq1 : (size q1 <= max_queue_size_ q1)%nat /\ max_queue_size_ q1 = max_queue_size_ q
                    /\ must_wait q1 = false).
      { clear element. revert q q1 Hcap W.
        induction env as [|ev env IH]; intros q q1 Hcap; cbn [wait_for_space].
        - destruct (must_wait q) eqn:Hw; [discriminate|]. intros [= <-]. auto.
        - destruct (must_wait q) eqn:Hw; [|intros [= <-]; auto].
          destruct ev; cbn.
          + apply IH. exact Hcap.
          + unfold bind, popFront, popFrontWithoutLocking.
            destruct (queue_ q) as [|x rest] eqn:E; [discriminate|].
            intros H. apply IH in H; [exact H|].
            unfold size in *. cbn. rewrite E in Hcap. cbn in Hcap. lia.
          + unfold modify. intros H. apply IH in H; [exact H|exact Hcap].
          + unfold modify. intros H. apply IH in H; [exact H|]. unfold size. cbn. lia. }
      destruct Hq1 as [Hc1 [Hm1 Hw1]].
      unfold get. destruct (discard_everything_ q1) eqn:Hd; cbn [state_of]; intros [= <-].
      * auto.
      * unfold must_wait in Hw1. rewrite Hd, andb_true_r in Hw1.
        apply Nat.leb_gt in Hw1. unfold size in *. cbn. rewrite length_app. cbn.
        split; [lia|exact Hm1].
    + intros [= <-]. exfalso. clear -W.
      revert q W. induction env as [|ev env IH]; intros q; cbn [wait_for_space];
        destruct (must_wait q); try discriminate.
      destruct ev; cbn; unfold bind, modify, popFront, popFrontWithoutLocking;
        try apply IH.
      destruct (queue_ q); [discriminate|apply IH].
    + intros [= <-].
      clear element. revert q Hcap W.
      induction env as [|ev env IH]; intros q Hcap; cbn [wait_for_space].
      * destruct (must_wait q); [|discriminate]. intros [= <-]. auto.
      * destruct (must_wait q); [|discriminate].
        destruct ev; cbn.
        -- apply IH. exact Hcap.
        -- unfold bind, popFront, popFrontWithoutLocking.
           destruct (queue_ q) as [|x rest] eqn:E; [discriminate|].
           intros H. apply IH in H; [exact H|].
           unfold size in *. cbn. rewrite E in Hcap. cbn in Hcap. lia.
        -- unfold modify. intros H. apply IH in H; [exact H|exact Hcap].
        -- unfold modify. intros H. apply IH in H; [exact H|]. unfold size. cbn. lia.
  - unfold get. destruct (size q <? max_queue_size_ q)%nat eqn:E; cbn [state_of];
      intros [= <-]; [|auto].
    apply Nat.ltb_lt in E. unfold size in *. cbn. rewrite length_app. cbn. lia.
Qed.

Lemma wait_for_space_timeouts_block k q :
  must_wait q = true -> wait_for_space (repeat WTimeout k) q = Blocked q.
Proof.
  intros H. rewrite <- (app_nil_r (repeat WTimeout k)).
  rewrite wait_for_space_timeouts by exact H. cbn. rewrite H. reflexivity.
Qed.

(** X5.  A producer that blocks on a queue filled to capacity with drain mode
    off stays inside [pushBack], inserting nothing, as long as poll
    intervals pass without anything happening; the first [popFront] of the
    consumer lets it through: the front element is gone, the new element
    is at the back and [pushBack] returns [true]. *)
Theorem blocked_producer_is_released_by_pop (element front : T) rest k env q :
  queue_ q = front :: rest ->
  size q = max_queue_size_ q ->
  discard_everything_ q = false ->
  pushBack element true (repeat WTimeout k) q = Blocked q /\
  exists q',
    pushBack element true (repeat WTimeout k ++ WPopFront :: env) q = Returns true q' /\
    queue_ q' = rest ++ [element] /\
    size q' = max_queue_size_ q'.
Proof.
  intros Hq Hfull Hoff.
  assert (Hw : must_wait q = true).
  { unfold must_wait. rewrite Hoff, Hfull, Nat.leb_refl. reflexivity. }
  split.
  - unfold pushBack, bind. rewrite wait_for_space_timeouts_block by exact Hw. reflexivity.
  - unfold pushBack, bind. rewrite wait_for_space_timeouts by exact Hw.
    cbn [wait_for_space]. rewrite Hw. cbn [wait_event].
    unfold bind at 1. unfold popFront, popFrontWithoutLocking. rewrite Hq.
    cbn [ret].
    rewrite wait_for_space_no_wait.
    + unfold get. cbn. rewrite Hoff. cbn. eexists. split; [reflexivity|]. cbn.
      split; [reflexivity|]. unfold size in *. rewrite Hq in Hfull. cbn in Hfull.
      cbn. rewrite length_app. cbn. lia.
    + apply must_wait_not_full. unfold size in *. cbn. rewrite Hq in Hfull. cbn in Hfull. lia.
Qed.

End SPSCFixedQueue_more.

(** ** AppSrcSinkQueue: what happens to results and buffers off the main path *)

Section AppSrcSinkQueue_more.
Context {U : Type}.
Implicit Type q : AppSrcSinkQueue U.

Lemma publish_settings output_tuple env q q' :
  state_of (publish output_tuple env q) = Some q' ->
  discard_mode_ q' = discard_mode_ q /\
  max_input_queue_size_ q' = max_input_queue_size_ q.
Proof.
  unfold publish.
  destruct (pushBack output_tuple _ env (base q)) as [[] b|e b|b|]; cbn [state_of];
    try discriminate; intros [= <-]; try (split; reflexivity).
  unfold count_sink_overflow. destruct (_ <=? _); split; reflexivity.
Qed.

(** X6.  Results that cannot be matched are dropped quietly.  A sample without
    correspondence meta, or with the id [-1], is counted in
    [correspondence_fail_counter_] (reset, with a warning, on reaching
    [CORRESPONDENCE_FAIL_REPORT_RATE]); a sample that arrives while the
    pending queue is empty is reported on the console; end of stream is
    reported too.  In each case the callback returns [GST_FLOW_OK] and
    pending queue and output queue are as before.  A missing sample
    without end of stream is the one case that throws. *)
Theorem unmatched_results_are_dropped env q :
  (forall buffer copy_ok,
     correspondence_meta buffer = None \/ correspondence_meta buffer = Some (-1) ->
     let c := wrap32 (correspondence_fail_counter_ q + 1) in
     exists q',
       newSampleCallback (PullSample buffer copy_ok) env q = Returns GST_FLOW_OK q' /\
       base q' = base q /\ user_data_queue_ q' = user_data_queue_ q /\
       correspondence_fail_counter_ q'
       = (if CORRESPONDENCE_FAIL_REPORT_RATE <=? c then 0 else c)) /\
  (forall buffer id,
     correspondence_meta buffer = Some id -> id <> -1 -> mappable buffer = true ->
     user_data_queue_ q = [] ->
     newSampleCallback (PullSample buffer true) env q
     = Returns GST_FLOW_OK (print ErrUserDataQueueEmpty q)) /\
  newSampleCallback (PullNull true) env q = Returns GST_FLOW_OK (print InfoReceivedEOS q) /\
  newSampleCallback (PullNull false) env q
  = Throws (std_runtime_error "Unable to pull new sample from appsink") q.
Proof.
  split; [|split; [|split; reflexivity]].
  - intros buffer copy_ok Hmeta c.
    exists (count_correspondence_fail q).
    split; [|split; [apply count_correspondence_fail_base
                    |split; [apply count_correspondence_fail_pending|]]].
    + unfold newSampleCallback, gst_buffer_correspondence_meta_has,
        gst_buffer_correspondence_meta_get_id.
      destruct Hmeta as [-> | ->]; reflexivity.
    + subst c. unfold count_correspondence_fail. cbn.
      destruct (CORRESPONDENCE_FAIL_REPORT_RATE <=? _); reflexivity.
  - intros buffer id Hmeta Hid Hmap Hempty.
    unfold newSampleCallback, gst_buffer_correspondence_meta_has,
      gst_buffer_correspondence_meta_get_id.
    rewrite Hmeta, Hmap, Hempty. cbn.
    replace (id =? -1) with false by (symmetry; apply Z.eqb_neq; exact Hid).
    reflexivity.
Qed.

Lemma match_user_data_runs_out id : forall (l : list (GstreamerBufferInfo * U)),
  Forall (fun e => offset (fst e) < id) l ->
  match_user_data id l = MatchUndefined.
Proof.
  induction 1 as [|e l He _ IH]; cbn; [reflexivity|].
  replace (id <? offset (fst e)) with false by (symmetry; apply Z.ltb_ge; lia).
  replace (offset (fst e) <? id) with true by (symmetry; apply Z.ltb_lt; lia).
  exact IH.
Qed.

(** X7.  A result whose id lies above the offset of every pending entry makes
    the matching loop pop the whole pending queue and then call [front()]
    on the empty deque: the behaviour of the callback is undefined. *)
Theorem newer_id_than_all_pending_is_undefined q buffer env id :
  correspondence_meta buffer = Some id -> id <> -1 ->
  mappable buffer = true ->
  user_data_queue_ q <> [] ->
  Forall (fun e => offset (fst e) < int_to_guint64 id) (user_data_queue_ q) ->
  newSampleCallback (PullSample buffer true) env q = Undefined.
Proof.
  intros Hmeta Hid Hmap Hne Hall.
  rewrite (newSampleCallback_matching q buffer env id Hmeta Hid Hmap Hne).
  rewrite match_user_data_runs_out by exact Hall. reflexivity.
Qed.

(** X8.  Back-pressure under [DISCARD_INPUT_FRAMES] is released by a match.
    With the pending queue exactly at the input bound [pushData] refuses;
    once a result has been matched with the front entry (however the
    publishing of the pair ends) the next buffer is admitted and its entry
    goes behind the remaining ones. *)
Theorem matched_result_reopens_input q buffer env id info (u : U) rest q' :
  discard_mode_ q = DISCARD_INPUT_FRAMES ->
  user_data_queue_ q = (info, u) :: rest ->
  List.length (user_data_queue_ q) = max_input_queue_size_ q ->
  (max_input_queue_size_ q <= MAX_USER_DATA_QUEUE_SIZE)%nat ->
  correspondence_meta buffer = Some id -> id <> -1 ->
  int_to_guint64 id = offset info ->
  mappable buffer = true ->
  state_of (newSampleCallback (PullSample buffer true) env q) = Some q' ->
  forall next user_data appsrc,
    mappable next = true ->
    pushData GST_FLOW_OK next user_data (q, appsrc) = Returns false (q, appsrc) /\
    pushData GST_FLOW_OK next user_data (q', appsrc)
    = Returns true
        (set_user_data_queue_ (rest ++ [(buffer_info_of next, user_data)]) q',
         appsrc ++ [next]).
Proof.
  intros Hmode Hq Hlen Hmax Hmeta Hid Heq Hmap Hq' next user_data appsrc Hnext.
  split; [apply pushData_rejects; [exact Hmode|lia]|].
  rewrite (newSampleCallback_matching q buffer env id Hmeta Hid Hmap) in Hq'
    by (rewrite Hq; discriminate).
  rewrite Hq in Hq'.
  pose proof (match_user_data_skips (int_to_guint64 id) [] (info, u) rest
                (Forall_nil _) (eq_sym Heq)) as Hm.
  cbn [app] in Hm. rewrite Hm in Hq'.
  destruct (publish_effect _ _ _ _ Hq') as [Hpend _].
  destruct (publish_settings _ _ _ _ Hq') as [Hmode' Hmax'].
  cbn in Hpend, Hmode', Hmax'.
  rewrite Hq in Hlen. cbn [List.length] in Hlen.
  unfold pushData. rewrite Hmode', Hmax', Hpend, Hmode. cbn [DiscardMode_eqb andb].
  replace (max_input_queue_size_ q <=? List.length rest)%nat with false
    by (symmetry; apply Nat.leb_gt; lia).
  cbn [is_GST_FLOW_OK].
  replace (MAX_USER_DATA_QUEUE_SIZE <=? List.length rest)%nat with false
    by (symmetry; apply Nat.leb_gt; lia).
  cbv zeta. rewrite Hnext, Hpend. reflexivity.
Qed.

(** X9.  Drain mode frees a callback that waits on a full output queue.  Under
    [DISCARD_INPUT_FRAMES] the callback publishes with a blocking push:
    with the output queue full and drain mode off it stays inside (the
    matched entry already popped) while poll intervals pass; when
    [setDiscardEverything(true)] happens, as [stop()] does, it returns
    [GST_FLOW_OK] within that poll round, the pair is dropped and counted,
    and the output queue keeps its content. *)
Theorem drain_mode_releases_blocked_callback q buffer k env id info (u : U) rest :
  discard_mode_ q = DISCARD_INPUT_FRAMES ->
  user_data_queue_ q = (info, u) :: rest ->
  correspondence_meta buffer = Some id -> id <> -1 ->
  int_to_guint64 id = offset info ->
  mappable buffer = true ->
  must_wait (base q) = true ->
  newSampleCallback (PullSample buffer true) (repeat WTimeout k) q
  = Blocked (set_user_data_queue_ rest q) /\
  newSampleCallback (PullSample buffer true)
                    (repeat WTimeout k ++ WSetDiscardEverything true :: env) q
  = Returns GST_FLOW_OK
      (count_sink_overflow
         (set_base (setDiscardEverything true (base q)) (set_user_data_queue_ rest q))).
Proof.
  intros Hmode Hq Hmeta Hid Heq Hmap Hwait.
  pose proof (match_user_data_skips (int_to_guint64 id) [] (info, u) rest
                (Forall_nil _) (eq_sym Heq)) as Hm.
  cbn [app] in Hm.
  split.
  - rewrite (newSampleCallback_matching q buffer _ id Hmeta Hid Hmap)
      by (rewrite Hq; discriminate).
    rewrite Hq, Hm. unfold publish. cbn [discard_mode_ set_user_data_queue_ base].
    rewrite Hmode. cbn [DiscardMode_eqb negb].
    unfold pushBack, bind. rewrite wait_for_space_timeouts_block by exact Hwait.
    destruct q; reflexivity.
  - rewrite (newSampleCallback_matching q buffer _ id Hmeta Hid Hmap)
      by (rewrite Hq; discriminate).
    rewrite Hq, Hm. unfold publish. cbn [discard_mode_ set_user_data_queue_ base].
    rewrite Hmode. cbn [DiscardMode_eqb negb].
    unfold pushBack, bind. rewrite wait_for_space_timeouts by exact Hwait.
    cbn [wait_for_space]. rewrite Hwait. cbn [wait_event]. unfold modify.
    rewrite wait_for_space_no_wait by (apply must_wait_draining; reflexivity).
    reflexivity.
Qed.

End AppSrcSinkQueue_more.

(** ** The message thread *)

Section MessageThread_facts.
Context {U : Type}.
Implicit Type s : MessageThread U.

Lemma last_cons_default {A} (x d : A) l : last (x :: l) d = last l x.
Proof.
  revert x d. induction l as [|y l IH]; intros x d; [reflexivity|].
  change (last (x :: y :: l) d) with (last (y :: l) d).
  rewrite (IH y d), (IH y x). reflexivity.
Qed.

(** X10.  What the message loop makes of a series of polls, started with
    [terminate_] clear.  It sees the polls up to and including the first
    error message, end-of-stream message or [terminate_] being set, and
    nothing after that; it returns exactly if there is such a poll, with
    [terminate_] set, and is still looping otherwise.  Of the supervisor
    it changes [terminate_] only.  [pipeline_state] ends as the new state
    of the last state change of the pipeline itself that it saw (state
    changes of other elements do not count), and the state-change callback,
    if one is set, was called once for each of those, in order. *)
Theorem message_loop_mirrors_pipeline_state polls : forall s,
  terminate_ (owner s) = false ->
  exists s',
    gstreamerLoop polls s
      = (if existsb ends_loop polls then Returns tt s' else Blocked s') /\
    owner s' = set_terminate_ (existsb ends_loop polls) (owner s) /\
    pipeline_state s'
      = last (map (fun c => snd (fst c)) (pipeline_changes (seen polls))) (pipeline_state s) /\
    state_change_callback_calls s'
      = state_change_callback_calls s
        ++ (if state_change_callback_set s then pipeline_changes (seen polls) else []).
Proof.
  induction polls as [|ev polls IH]; intros s Hrun.
  - exists s. cbn. rewrite Hrun. repeat split.
    + destruct s as [o]. destruct o. cbn in *. subst. reflexivity.
    + destruct (state_change_callback_set s); rewrite app_nil_r; reflexivity.
  - cbn [gstreamerLoop existsb seen]. rewrite Hrun.
    destruct (ends_loop ev) eqn:Hend.
    + exists (poll_step ev s). cbn [orb].
      assert (Hterm : terminate_ (owner (poll_step ev s)) = true).
      { destruct ev as [|[]|]; try discriminate; reflexivity. }
      split; [destruct polls; cbn [gstreamerLoop]; rewrite Hterm; reflexivity|].
      destruct ev as [|[]|]; try discriminate; cbn;
        (destruct (state_change_callback_set s); rewrite ?app_nil_r; auto).
    + cbn [orb].
      assert (Hstep : terminate_ (owner (poll_step ev s)) = false
                      /\ owner (poll_step ev s) = owner s
                      /\ state_change_callback_set (poll_step ev s)
                         = state_change_callback_set s).
      { destruct ev as [|[| |[] o n pd|]|]; try discriminate; cbn; auto. }
      destruct Hstep as [Hrun' [Hown Hset]].
      destruct (IH (poll_step ev s) Hrun') as [s' [Hloop [Ho [Hst Hcalls]]]].
      exists s'. split; [exact Hloop|]. split; [rewrite Ho, Hown; reflexivity|].
      rewrite Hst, Hcalls, Hset.
      destruct ev as [|[| |[] o n pd|]|]; try discriminate; cbn;
        try (split; reflexivity).
      split; [symmetry; apply last_cons_default|].
      destruct (state_change_callback_set s); cbn; rewrite <- ?app_assoc; reflexivity.
Qed.

End MessageThread_facts.

(** ** GstreamerPipeline: life cycle *)

Section GstreamerPipeline_lifecycle.
Context {U : Type}.
Implicit Type p : GstreamerPipeline U.

(** X11.  Configuration errors.  On a supervisor whose [pipeline_] is null,
    [pushInput], [start], [stop], [getNativePipeline] and
    [getNativeAppSrc] throw "not initialized" and change nothing (the
    watchdog is not even consulted).  [initialize] on an initialized
    supervisor throws "already initialized" and changes nothing.  On an
    uninitialized one it stores whatever [createPipeline] returned without
    looking at it: if that is null the call still returns normally and the
    supervisor remains uninitialized. *)
Theorem configuration_errors p :
  (pipeline_ p = None ->
   (forall env buffer user_data,
      pushInput env buffer user_data p
      = Throws (std_runtime_error "Pipeline was not initialized") p) /\
   (forall state_ret now,
      start state_ret now p = Throws (std_runtime_error "Pipeline was not initialized") p) /\
   stop p = Throws (std_runtime_error "Pipeline was not initialized") p /\
   getNativePipeline p = Throws (std_runtime_error "Pipeline was not initialized") p /\
   getNativeAppSrc p = Throws (std_runtime_error "Pipeline was not initialized") p /\
   (forall created, exists p',
      initialize true true created p = Returns tt p' /\
      pipeline_ p' = created /\
      input_side p' = input_side p /\ output_queue p' = output_queue p)) /\
  (pipeline_ p <> None ->
   forall appsrc_made appsink_made created,
     initialize appsrc_made appsink_made created p
     = Throws (std_runtime_error "Pipeline was already initialized") p).
Proof.
  split.
  - intros Hnull.
    split; [intros env buffer user_data; rewrite pushInput_eq, Hnull; reflexivity|].
    unfold start, stop, getNativePipeline, getNativeAppSrc, initialize, bind, ensureInitialized.
    rewrite Hnull. repeat split.
    intros created. eexists. split; [reflexivity|]. cbn. auto.
  - intros Hinit appsrc_made appsink_made created. unfold initialize.
    destruct (pipeline_ p); [reflexivity|congruence].
Qed.

(** X12.  [stop()] on an initialized supervisor returns normally: drain mode is
    on, [terminate_] is set, the message thread is joined, the native
    pipeline was asked for [GST_STATE_NULL]; the content of the output
    queue, the pending entries, the id counter and the watchdog fields are
    untouched.  Calling it again changes nothing but the record of the
    state request and the console. *)
Theorem stop_is_idempotent p native :
  pipeline_ p = Some native ->
  exists p1 p2,
    stop p = Returns tt p1 /\
    pipeline_ p1 = Some (native ++ [GST_STATE_NULL]) /\
    discard_everything_ (output_queue p1) = true /\
    terminate_ p1 = true /\
    message_thread_joinable p1 = false /\
    queue_ (output_queue p1) = queue_ (output_queue p) /\
    input_side p1 = input_side p /\
    watchdog_counter_ p1 = watchdog_counter_ p /\
    last_appsink_sample_time_ p1 = last_appsink_sample_time_ p /\
    delivering_appsink_sample_ p1 = delivering_appsink_sample_ p /\
    stop p1 = Returns tt p2 /\
    set_pipeline_ None (say InfoStopping p1) = set_pipeline_ None p2.
Proof.
  destruct p as [pl a q fc wc lt dl tm mj tp co]. cbn [pipeline_]. intros ->.
  unfold stop, bind, ensureInitialized, modify. cbn.
  eexists. eexists. split; [reflexivity|]. cbn. repeat split.
Qed.

(** X13.  [start()] on an initialized supervisor.  If it was running (message
    thread joinable) it is stopped first.  When the native pipeline
    accepts [GST_STATE_PLAYING], [start] returns with an empty output
    queue, drain mode off, [terminate_] clear, the watchdog counter at
    zero, the time of the last sample set to now and the message thread
    running.  When the state change fails it throws, with no message
    thread.  In both cases the pending entries, the id counter, what was
    handed to appsrc and the delivering flag are as before: a restart does
    not forget submissions that are still in flight. *)
Theorem start_resets_output_but_keeps_pending p native state_ret now :
  pipeline_ p = Some native ->
  let requests := native ++ (if message_thread_joinable p then [GST_STATE_NULL] else [])
                         ++ [GST_STATE_PLAYING] in
  exists p',
    start state_ret now p
    = match state_ret with
      | GST_STATE_CHANGE_FAILURE => Throws (std_runtime_error "Unable to set pipeline state") p'
      | _ => Returns tt p'
      end /\
    pipeline_ p' = Some requests /\
    queue_ (output_queue p') = [] /\
    discard_everything_ (output_queue p') = false /\
    terminate_ p' = false /\
    input_side p' = input_side p /\
    delivering_appsink_sample_ p' = delivering_appsink_sample_ p /\
    match state_ret with
    | GST_STATE_CHANGE_FAILURE =>
        message_thread_joinable p' = false /\
        watchdog_counter_ p' = watchdog_counter_ p /\
        last_appsink_sample_time_ p' = last_appsink_sample_time_ p
    | _ =>
        message_thread_joinable p' = true /\
        watchdog_counter_ p' = 0 /\
        last_appsink_sample_time_ p' = now
    end.
Proof.
  destruct p as [pl a q fc wc lt dl tm mj tp co]. cbn [pipeline_ message_thread_joinable].
  intros ->.
  unfold start, stop, bind, ensureInitialized, modify, get, ret, throw. cbn.
  destruct mj, state_ret; cbn; eexists; (split; [reflexivity|]); cbn;
    rewrite <- ?app_assoc; repeat split.
Qed.

End GstreamerPipeline_lifecycle.

(** ** GstreamerPipeline: watchdog, submissions and output *)

Section GstreamerPipeline_submissions.
Context {U : Type}.
Implicit Type p : GstreamerPipeline U.

Lemma watchdog_counter_after env p r p1 :
  0 <= watchdog_counter_ p ->
  watchdog env p = Returns r p1 ->
  0 <= watchdog_counter_ p1 < WATCHDOG_RESET_COUNT.
Proof.
  destruct p as [pl a q fc wc lt dl tm mj tp co]. cbn [watchdog_counter_]. intros Hc.
  unfold watchdog, start, stop, bind, ensureInitialized, modify, get, ret, throw. cbn.
  destruct (negb dl && _); cbn.
  - destruct (WATCHDOG_RESET_COUNT <=? wrap32 (wc + 1)) eqn:E; cbn.
    + destruct pl; cbn; [|discriminate].
      destruct (set_state_ret env); cbn; try discriminate;
        intros [= _ <-]; cbn; unfold WATCHDOG_RESET_COUNT; lia.
    + intros [= _ <-]. cbn. apply Z.leb_gt in E.
      split; [unfold wrap32; apply Z.mod_pos_bound; lia|exact E].
  - destruct (0 <? wc) eqn:E; cbn; intros [= _ <-]; cbn.
    + unfold WATCHDOG_RESET_COUNT. lia.
    + apply Z.ltb_ge in E. unfold WATCHDOG_RESET_COUNT. lia.
Qed.

Lemma stamp_and_forward_fields env buffer user_data p p' :
  pipeline_ p <> None ->
  state_of (stamp_and_forward env buffer user_data p) = Some p' ->
  watchdog_counter_ p' = watchdog_counter_ p /\
  pipeline_ p' = pipeline_ p /\
  last_appsink_sample_time_ p' = last_appsink_sample_time_ p /\
  delivering_appsink_sample_ p' = delivering_appsink_sample_ p.
Proof.
  intros Hinit. rewrite stamp_and_forward_eq by exact Hinit. cbv zeta.
  match goal with
  | |- context [pushData ?x ?y ?z ?w] => destruct (pushData x y z w) as [[] s|e s|s|]
  end; cbn [state_of]; try discriminate; intros [= <-]; repeat split.
Qed.

(** X14.  The stall counter stays below the reset count.  From any state with a
    counter that is not negative, every [pushInput] that returns leaves
    [watchdog_counter_] between 0 and [WATCHDOG_RESET_COUNT - 1]. *)
Theorem watchdog_counter_stays_below_reset_count env buffer user_data p r p' :
  0 <= watchdog_counter_ p ->
  pushInput env buffer user_data p = Returns r p' ->
  0 <= watchdog_counter_ p' < WATCHDOG_RESET_COUNT.
Proof.
  intros Hc. rewrite pushInput_eq.
  destruct (pipeline_ p) as [native|] eqn:Ep; [|discriminate].
  destruct (watchdog env p) as [[] p1|e p1|p1|] eqn:W; try discriminate.
  - intros [= _ <-]. eapply watchdog_counter_after; eauto.
  - intros H.
    assert (Hinit : pipeline_ p1 <> None).
    { rewrite (watchdog_keeps_pipeline env p p1 W), Ep. discriminate. }
    destruct (stamp_and_forward_fields env buffer user_data p1 p' Hinit) as [Hw _].
    { rewrite H. reflexivity. }
    rewrite Hw. eapply watchdog_counter_after; eauto.
Qed.

(** X15.  A stalled submission, with no delivery under way: the time since the
    last sample is at least [WATCHDOG_TIMEOUT].  The counter goes up by
    one.  If it thereby reaches [WATCHDOG_RESET_COUNT] the pipeline is
    restarted (one request for [GST_STATE_NULL], one for
    [GST_STATE_PLAYING]), [pushInput] returns [false], the counter is
    zero, the output queue is empty with drain mode off, and pending
    entries, id counter and appsrc are as before.  Otherwise the
    submission goes on with only the counter changed. *)
Theorem stalled_submission_counts_or_restarts env buffer user_data p native :
  pipeline_ p = Some native ->
  delivering_appsink_sample_ p = false ->
  WATCHDOG_TIMEOUT <= clock_now env - last_appsink_sample_time_ p ->
  set_state_ret env <> GST_STATE_CHANGE_FAILURE ->
  let c := wrap32 (watchdog_counter_ p + 1) in
  if WATCHDOG_RESET_COUNT <=? c then
    exists p',
      pushInput env buffer user_data p = Returns false p' /\
      pipeline_ p' = Some (native ++ [GST_STATE_NULL; GST_STATE_PLAYING]) /\
      watchdog_counter_ p' = 0 /\
      last_appsink_sample_time_ p' = clock_restart env /\
      queue_ (output_queue p') = [] /\
      discard_everything_ (output_queue p') = false /\
      input_side p' = input_side p
  else
    pushInput env buffer user_data p
    = stamp_and_forward env buffer user_data (set_watchdog_counter_ c p).
Proof.
  destruct p as [pl a q fc wc lt dl tm mj tp co].
  cbn [pipeline_ delivering_appsink_sample_ last_appsink_sample_time_ watchdog_counter_].
  intros -> -> Ht Hs.
  rewrite pushInput_eq. cbn [pipeline_].
  unfold watchdog, start, stop, bind, ensureInitialized, modify, get, ret, throw.
  cbn [delivering_appsink_sample_ last_appsink_sample_time_ negb andb].
  replace (WATCHDOG_TIMEOUT <=? clock_now env - lt) with true
    by (symmetry; apply Z.leb_le; exact Ht).
  cbn.
  destruct (WATCHDOG_RESET_COUNT <=? wrap32 (wc + 1)); cbn; [|reflexivity].
  destruct (set_state_ret env); [congruence| | |]; cbn;
    eexists; (split; [reflexivity|]); cbn; rewrite <- app_assoc; repeat split.
Qed.

(** A submission that is not stalled (the last sample is younger than
    [WATCHDOG_TIMEOUT]) lets the watchdog clear its counter. *)
Lemma watchdog_not_stalled env p :
  clock_now env - last_appsink_sample_time_ p < WATCHDOG_TIMEOUT ->
  watchdog env p
  = Returns false (if 0 <? watchdog_counter_ p then set_watchdog_counter_ 0 p else p).
Proof.
  intros H. unfold watchdog, bind, get.
  replace (WATCHDOG_TIMEOUT <=? clock_now env - last_appsink_sample_time_ p) with false
    by (symmetry; apply Z.leb_gt; exact H).
  rewrite andb_false_r. destruct (0 <? watchdog_counter_ p); reflexivity.
Qed.

(** X16.  A buffer that appsrc refuses.  When [gst_app_src_push_buffer] answers
    anything but [GST_FLOW_OK] (and the submission was not stalled nor
    held back by the input bound), [pushInput] returns [false]; the buffer
    was handed to appsrc all the same, stamped with the current id, but no
    pending entry was made and the id counter did not move, so the next
    submission carries the same id. *)
Theorem refused_by_appsrc_keeps_the_id env buffer user_data p :
  pipeline_ p <> None ->
  clock_now env - last_appsink_sample_time_ p < WATCHDOG_TIMEOUT ->
  push_ret env <> GST_FLOW_OK ->
  (discard_mode_ (appsrcsink_queue_ p) = DISCARD_INPUT_FRAMES ->
   (List.length (user_data_queue_ (appsrcsink_queue_ p))
    < max_input_queue_size_ (appsrcsink_queue_ p))%nat) ->
  exists p' handed,
    pushInput env buffer user_data p = Returns false p' /\
    frame_counter_ p' = frame_counter_ p /\
    appsrcsink_queue_ p' = appsrcsink_queue_ p /\
    appsrc_ p' = appsrc_ p ++ [handed] /\
    buffer_data handed = buffer_data buffer /\
    GST_BUFFER_OFFSET handed = frame_counter_ p /\
    correspondence_meta handed = Some (static_cast_int (frame_counter_ p)).
Proof.
  intros Hinit Hfresh Hret Hadmit.
  rewrite pushInput_eq.
  destruct (pipeline_ p) as [native|] eqn:Ep; [|congruence].
  rewrite watchdog_not_stalled by exact Hfresh.
  assert (Hgate : DiscardMode_eqb (discard_mode_ (appsrcsink_queue_ p)) DISCARD_INPUT_FRAMES
                  && (max_input_queue_size_ (appsrcsink_queue_ p)
                      <=? List.length (user_data_queue_ (appsrcsink_queue_ p)))%nat = false).
  { destruct (discard_mode_ (appsrcsink_queue_ p)) eqn:Em; cbn; [|reflexivity].
    apply Nat.leb_gt. apply Hadmit. reflexivity. }
  assert (Hno : is_GST_FLOW_OK (push_ret env) = false)
    by (destruct (push_ret env); try reflexivity; congruence).
  destruct (0 <? watchdog_counter_ p);
    (rewrite stamp_and_forward_eq by (cbn; rewrite Ep; discriminate));
    cbv zeta; cbn [appsrcsink_queue_ appsrc_ frame_counter_ set_watchdog_counter_];
    unfold pushData at 1; rewrite Hgate, Hno;
    eexists; eexists; (split; [reflexivity|]); cbn; repeat split.
Qed.

(** X17.  Output.  [hasOutput()] is [true] exactly when
    [getAvailableOutputSize()] is positive.  [popOutput()] checks neither
    initialization nor emptiness: without output its behaviour is
    undefined; with output it returns the oldest pair and the available
    size goes down by one, the rest of the supervisor unchanged. *)
Theorem popOutput_needs_output p :
  (hasOutput p = true <-> (0 < getAvailableOutputSize p)%nat) /\
  (hasOutput p = false ->
   popOutput p = Undefined /\ popOutput_lock_guard p = Undefined /\
   popOutput_unique_lock true p = Undefined) /\
  (hasOutput p = true ->
   exists pair p',
     popOutput p = Returns pair p' /\
     queue_ (output_queue p) = pair :: queue_ (output_queue p') /\
     S (getAvailableOutputSize p') = getAvailableOutputSize p /\
     input_side p' = input_side p /\ pipeline_ p' = pipeline_ p).
Proof.
  unfold hasOutput, getAvailableOutputSize, empty, size, popOutput, popOutput_lock_guard,
    popOutput_unique_lock, zoom, popFront, popFront_lock_guard, popFront_unique_lock,
    popFrontWithoutLocking.
  destruct (queue_ (output_queue p)) as [|pair rest] eqn:E; cbn.
  - split; [split; [discriminate|lia]|].
    split; [intros _; rewrite ?E; repeat split|discriminate].
  - split; [split; [lia|reflexivity]|]. split; [discriminate|].
    intros _. rewrite ?E. eexists. eexists. split; [reflexivity|]. cbn. repeat split.
Qed.

End GstreamerPipeline_submissions.

(** ** The order of the pending entries *)

Section PendingOrder.
Context {U : Type}.
Implicit Type p : GstreamerPipeline U.
Implicit Type q : AppSrcSinkQueue U.

Lemma match_user_data_suffix id : forall (l : list (GstreamerBufferInfo * U)),
  match match_user_data id l with
  | MatchFound _ rest | MatchThrow rest => exists pre, l = pre ++ rest
  | MatchUndefined => True
  end.
Proof.
  induction l as [|e l IH]; cbn; [exact I|].
  destruct (id <? offset (fst e)); [exists [e]; reflexivity|].
  destruct (offset (fst e) <? id); [|exists [e]; reflexivity].
  destruct (match_user_data id l) as [t rest|rest|]; auto;
    destruct IH as [pre ->]; exists (e :: pre); reflexivity.
Qed.

(** However the callback ends, the pending queue it leaves is a tail of
    the one it found. *)
Lemma newSampleCallback_pending_suffix pull env q q' :
  state_of (newSampleCallback pull env q) = Some q' ->
  exists pre, user_data_queue_ q = pre ++ user_data_queue_ q'.
Proof.
  unfold newSampleCallback.
  destruct pull as [is_eos|buffer copy_ok].
  - destruct is_eos; cbn [state_of]; intros [= <-]; exists []; reflexivity.
  - cbv zeta. set (cid := if negb _ then -1 else _).
    destruct (cid =? -1); cbn [state_of].
    { intros [= <-]. rewrite count_correspondence_fail_pending. exists []. reflexivity. }
    destruct (negb copy_ok); cbn [state_of]; [intros [= <-]; exists []; reflexivity|].
    destruct (negb (mappable buffer)); cbn [state_of]; [intros [= <-]; exists []; reflexivity|].
    destruct (user_data_queue_ q) as [|e l] eqn:E; cbn [state_of];
      [intros [= <-]; exists []; cbn; rewrite E; reflexivity|].
    pose proof (match_user_data_suffix (int_to_guint64 cid) (e :: l)) as Hs.
    destruct (match_user_data (int_to_guint64 cid) (e :: l)) as [t rest|rest|];
      cbn [state_of].
    + intros H. apply publish_effect in H. destruct H as [H _]. rewrite H. exact Hs.
    + intros [= <-]. exact Hs.
    + discriminate.
Qed.

Lemma StronglySorted_app_r {A} (R : A -> A -> Prop) (l1 l2 : list A) :
  StronglySorted R (l1 ++ l2) -> StronglySorted R l2.
Proof.
  induction l1 as [|x l1 IH]; cbn; [auto|].
  intros H. inversion H; subst. auto.
Qed.

Lemma StronglySorted_snoc (l : list Z) c :
  StronglySorted Z.lt l -> Forall (fun o => o < c) l -> StronglySorted Z.lt (l ++ [c]).
Proof.
  induction 1 as [|x l Hs IH Hx]; cbn; intros Hall.
  - repeat constructor.
  - inversion Hall; subst. constructor; [apply IH; assumption|].
    apply Forall_app. split; [exact Hx|]. repeat constructor. assumption.
Qed.

(** What [pushData] can do to the pending queue when the buffer is
    mappable: nothing, with [false] returned, or append the entry of the
    buffer (behind the tail if the safety bound was reached), with
    [true]. *)
Lemma pushData_outcomes push_ret buffer (user_data : U) q appsrc :
  mappable buffer = true ->
  exists q' appsrc',
    (pushData push_ret buffer user_data (q, appsrc) = Returns false (q', appsrc') /\
     user_data_queue_ q' = user_data_queue_ q) \/
    (pushData push_ret buffer user_data (q, appsrc) = Returns true (q', appsrc') /\
     exists pre, user_data_queue_ q = pre ++ removelast (user_data_queue_ q')
                 /\ user_data_queue_ q'
                    = removelast (user_data_queue_ q') ++ [(buffer_info_of buffer, user_data)]).
Proof.
  intros Hmap. unfold pushData.
  destruct (_ && _); [eexists; eexists; left; split; reflexivity|].
  destruct (is_GST_FLOW_OK push_ret); [|eexists; eexists; left; split; reflexivity].
  rewrite Hmap. cbv zeta.
  eexists. eexists. right. split; [reflexivity|].
  cbn [user_data_queue_ set_user_data_queue_].
  rewrite removelast_last.
  destruct (MAX_USER_DATA_QUEUE_SIZE <=? _)%nat.
  - rewrite evict_oldest_pending.
    destruct (user_data_queue_ q) as [|e l]; [exists []|exists [e]]; split; reflexivity.
  - exists []. split; reflexivity.
Qed.

Lemma pending_ordered_of_parts p p' pre :
  pending_ordered p ->
  user_data_queue_ (appsrcsink_queue_ p)
  = pre ++ user_data_queue_ (appsrcsink_queue_ p') ->
  frame_counter_ p' = frame_counter_ p ->
  pending_ordered p'.
Proof.
  unfold pending_ordered, pending_offsets. intros [Hs Hb] Hq Hfc.
  rewrite Hq, map_app in Hs, Hb. rewrite Hfc. split.
  - eapply StronglySorted_app_r. exact Hs.
  - apply Forall_app in Hb. apply Hb.
Qed.

(** X18.  The ordering the matching loop depends on is kept.  If the pending
    offsets are strictly ascending and all below the id counter, they
    still are after a [pushInput] of a mappable buffer (the counter not
    about to wrap) and after a run of the appsink callback, however these
    calls end. *)
Theorem pending_order_is_kept p :
  pending_ordered p ->
  (forall env buffer user_data p',
     mappable buffer = true ->
     0 <= frame_counter_ p -> frame_counter_ p + 1 < 2 ^ 64 ->
     state_of (pushInput env buffer user_data p) = Some p' ->
     pending_ordered p') /\
  (forall pull wenv p',
     state_of (newAppsinkSampleCallback pull wenv p) = Some p' ->
     pending_ordered p').
Proof.
  intros Hord. split.
  - intros env buffer user_data p' Hmap Hc0 Hc1. rewrite pushInput_eq.
    assert (Hside : forall p1, input_side p1 = input_side p -> pending_ordered p1).
    { unfold input_side. intros p1 [= Hfc _ Hq _ _].
      apply (pending_ordered_of_parts p p1 []); [exact Hord|rewrite Hq; reflexivity|exact Hfc]. }
    destruct (pipeline_ p) as [native|] eqn:Ep; [|intros [= <-]; exact Hord].
    pose proof (watchdog_input_side env p) as Hw.
    destruct (watchdog env p) as [[] p1|e p1|p1|] eqn:W; cbn [state_of];
      try (intros [= <-]; apply Hside, Hw; reflexivity); try discriminate.
    destruct (watchdog_quiet env p p1 W) as [c ->].
    rewrite stamp_and_forward_eq by (cbn; rewrite Ep; discriminate).
    cbv zeta. cbn [appsrcsink_queue_ appsrc_ frame_counter_ set_watchdog_counter_].
    match goal with
    | |- context [pushData ?x ?y ?z (?q0, ?a0)] =>
        destruct (pushData_outcomes x y z q0 a0) as [q' [a' [[Hp Hq]|[Hp [pre [Hq1 Hq2]]]]]];
          [exact Hmap| |]; rewrite Hp
    end; cbn [state_of]; intros [= <-].
    + apply (pending_ordered_of_parts p _ []); [exact Hord| |reflexivity].
      cbn. rewrite Hq. reflexivity.
    + destruct Hord as [Hs Hb]. unfold pending_ordered, pending_offsets in *.
      cbn [appsrcsink_queue_ frame_counter_ set_time_previous set_frame_counter_
           set_queue_appsrc fst snd].
      rewrite Hq1, map_app in Hs, Hb.
      apply StronglySorted_app_r in Hs. apply Forall_app in Hb. destruct Hb as [_ Hb].
      rewrite Hq2, map_app. cbn [map fst].
      rewrite stamp_input_offset.
      replace (wrap64 (frame_counter_ p + 1)) with (frame_counter_ p + 1)
        by (symmetry; unfold wrap64; apply Z.mod_small; lia).
      split.
      * apply StronglySorted_snoc; assumption.
      * apply Forall_app. split.
        -- eapply Forall_impl; [|exact Hb]. cbn. intros; lia.
        -- repeat constructor. lia.
  - intros pull wenv p'. unfold newAppsinkSampleCallback, bind, modify, zoom.
    cbn [appsrcsink_queue_ set_delivering_appsink_sample_].
    destruct (newSampleCallback pull wenv (appsrcsink_queue_ p)) as [r q'|e q'|q'|] eqn:Hcb;
      cbn [state_of]; try discriminate; intros [= <-];
      (destruct (newSampleCallback_pending_suffix pull wenv (appsrcsink_queue_ p) q')
         as [pre Hpre]; [rewrite Hcb; reflexivity|]);
      apply (pending_ordered_of_parts p _ pre); try exact Hord; try reflexivity;
      cbn; exact Hpre.
Qed.

End PendingOrder.

(** ** The timing stamped on accepted frames *)

Section Timing.
Context {U : Type}.
Implicit Type p : GstreamerPipeline U.

Lemma stamp_input_pts_after time_now t_prev c buffer :
  0 <= t_prev <= time_now -> time_now + gst_frame_period < 2 ^ 64 ->
  GST_BUFFER_PTS (stamp_input time_now t_prev c buffer)
  = Z.max time_now (t_prev + gst_frame_period).
Proof.
  intros H1 H2. cbn. unfold wrap64, gst_frame_period in *.
  rewrite (Z.mod_small (time_now - t_prev)) by lia.
  rewrite (Z.mod_small (t_prev + 100000000)) by lia.
  destruct (time_now - t_prev <=? 100000000) eqn:E;
    [apply Z.leb_le in E|apply Z.leb_gt in E]; lia.
Qed.

Lemma stamp_input_pts_first time_now c buffer :
  0 <= time_now < 2 ^ 64 ->
  GST_BUFFER_PTS (stamp_input time_now (wrap64 (time_now - gst_frame_period)) c buffer)
  = time_now.
Proof.
  intros H. cbn. unfold wrap64, gst_frame_period in *.
  change (2 ^ 64) with 18446744073709551616 in *.
  destruct (Z.le_gt_cases 100000000 time_now) as [Hge|Hlt].
  - rewrite (Z.mod_small (time_now - 100000000)) by lia.
    replace (time_now - (time_now - 100000000)) with 100000000 by lia.
    cbn. rewrite Z.mod_small by lia. lia.
  - assert (E : (time_now - 100000000) mod 18446744073709551616
                = time_now - 100000000 + 18446744073709551616).
    { symmetry. apply (Z.mod_unique _ _ (-1)); lia. }
    rewrite E.
    replace (time_now - (time_now - 100000000 + 18446744073709551616))
      with (100000000 + (-1) * 18446744073709551616) by lia.
    rewrite Z.mod_add by lia. cbn.
    replace (time_now - 100000000 + 18446744073709551616 + 100000000)
      with (time_now + 1 * 18446744073709551616) by lia.
    rewrite Z.mod_add by lia. apply Z.mod_small. lia.
Qed.

Lemma pushData_true push_ret buffer (user_data : U) q appsrc s :
  pushData push_ret buffer user_data (q, appsrc) = Returns true s ->
  snd s = appsrc ++ [buffer] /\
  exists older,
    user_data_queue_ (fst s) = older ++ [(buffer_info_of buffer, user_data)].
Proof.
  unfold pushData.
  destruct (_ && _); [discriminate|].
  destruct (is_GST_FLOW_OK push_ret); [|discriminate].
  cbv zeta. destruct (mappable buffer); [|discriminate].
  intros [= <-]. split; [reflexivity|]. eexists. reflexivity.
Qed.

(** X19.  The timing of an accepted frame.  When [pushInput] returns [true],
    the newest pending entry carries the user data and this timing: the
    id counter as offset, no decode time, the nominal frame period as
    duration, and as presentation time the stream clock, or one frame
    period after the stream time of the previous accepted frame if that
    is later (for the very first frame: the stream clock).  The buffer
    handed to appsrc last carries the same timing and the id as
    correspondence meta, and the stream time is remembered for the next
    frame. *)
Theorem accepted_frame_timing env buffer user_data p p' :
  pushInput env buffer user_data p = Returns true p' ->
  0 <= gst_time_now env -> gst_time_now env + gst_frame_period < 2 ^ 64 ->
  match time_previous p with
  | Some t_prev => 0 <= t_prev <= gst_time_now env
  | None => True
  end ->
  exists info handed older sent,
    user_data_queue_ (appsrcsink_queue_ p') = older ++ [(info, user_data)] /\
    appsrc_ p' = sent ++ [handed] /\
    info = buffer_info_of handed /\
    buffer_data handed = buffer_data buffer /\
    correspondence_meta handed = Some (static_cast_int (frame_counter_ p)) /\
    pts info = match time_previous p with
               | Some t_prev => Z.max (gst_time_now env) (t_prev + gst_frame_period)
               | None => gst_time_now env
               end /\
    dts info = GST_CLOCK_TIME_NONE /\
    duration info = gst_frame_period /\
    offset info = frame_counter_ p /\
    offset_end info = GST_BUFFER_OFFSET_NONE /\
    time_previous p' = Some (gst_time_now env).
Proof.
  rewrite pushInput_eq. intros H Ht0 Ht1 Hprev.
  destruct (pipeline_ p) as [native|] eqn:Ep; [|discriminate].
  destruct (watchdog env p) as [[] p1|e p1|p1|] eqn:W; try discriminate.
  destruct (watchdog_quiet env p p1 W) as [c ->].
  rewrite stamp_and_forward_eq in H by (cbn; rewrite Ep; discriminate).
  cbv zeta in H.
  cbn [appsrcsink_queue_ appsrc_ frame_counter_ time_previous set_watchdog_counter_] in H.
  match type of H with
  | context [pushData ?x ?y ?z ?w] => destruct (pushData x y z w) as [[] s|e s|s|] eqn:P
  end; try discriminate.
  apply pushData_true in P. destruct P as [Hsent [older Hq]].
  injection H as <-.
  cbn [appsrcsink_queue_ appsrc_ time_previous set_time_previous set_frame_counter_
       set_queue_appsrc].
  eexists. eexists. exists older. eexists.
  split; [exact Hq|]. split; [exact Hsent|]. split; [reflexivity|].
  split; [reflexivity|]. split; [reflexivity|].
  split; [|repeat split].
  destruct (time_previous p) as [t_prev|].
  - apply stamp_input_pts_after; assumption.
  - apply stamp_input_pts_first. unfold gst_frame_period in Ht1. lia.
Qed.

End Timing.

(** ** Connecting viewpoints *)

Module ViewpointPlannerFacts.
Import ViewpointPlanner.

Section Connect_facts.
Context {ViewpointEntryIndex Planner ViewpointPathEntry : Type}.
Variable index_eqb : ViewpointEntryIndex -> ViewpointEntryIndex -> bool.
Variable connectViewpoints :
  ViewpointEntryIndex -> ViewpointEntryIndex -> bool -> Planner -> bool * Planner.
Variable viewpoint_index : ViewpointPathEntry -> ViewpointEntryIndex.

Hypothesis index_eqb_eq : forall a b, index_eqb a b = true <-> a = b.

Lemma connect_loop_recorded from ignore : forall to n g log,
  0 <= n ->
  n + Z.of_nat (List.length to) < 2 ^ 64 ->
  let '(n1, g1) := connect_loop index_eqb connectViewpoints from to ignore n g in
  let '(n2, (g2, log2)) :=
    connect_loop index_eqb (recording connectViewpoints) from to ignore n (g, log) in
  n2 = n1 /\ g2 = g1 /\
  exists made,
    log2 = log ++ made /\
    map (fun c => snd (fst c)) made = filter (fun t => negb (index_eqb from t)) to /\
    Forall (fun c => fst (fst c) = from) made /\
    n1 = n + Z.of_nat (List.length (filter (fun c => snd c) made)).
Proof.
  induction to as [|t to IH]; intros n g log Hn0 Hn1.
  - cbn. repeat split. exists []. rewrite app_nil_r. cbn. repeat split; auto. lia.
  - cbn [connect_loop List.length filter] in *.
    destruct (index_eqb from t) eqn:E; cbn [negb].
    + apply IH; lia.
    + unfold recording at 1. cbn [fst snd].
      destruct (connectViewpoints from t ignore g) as [found g'] eqn:C.
      set (n' := if found then wrap64 (n + 1) else n).
      assert (Hn' : n' = n + (if found then 1 else 0)).
      { subst n'. destruct found; [|lia]. unfold wrap64. rewrite Z.mod_small; lia. }
      specialize (IH n' g' (log ++ [(from, t, found)])).
      destruct (connect_loop index_eqb connectViewpoints from to ignore n' g') as [n1 g1].
      destruct (connect_loop index_eqb (recording connectViewpoints) from to ignore n'
                  (g', log ++ [(from, t, found)])) as [n2 [g2 log2]].
      destruct IH as [H1 [H2 [made [Hlog [Hto [Hfrom Hcount]]]]]];
        [destruct found; lia|destruct found; lia|].
      split; [exact H1|]. split; [exact H2|].
      exists ((from, t, found) :: made).
      rewrite Hlog, <- app_assoc. split; [reflexivity|].
      split; [cbn; rewrite Hto; reflexivity|].
      split; [constructor; [reflexivity|exact Hfrom]|].
      rewrite Hcount, Hn'. cbn [filter snd]. destruct found; cbn [List.length]; lia.
Qed.

(** X20.  [connectViewpointToOtherViewpoints] calls [connectViewpoints] once
    for each target other than the viewpoint itself, in the order of the
    range and always from that viewpoint; it never tries to connect the
    viewpoint with itself.  What it returns is the number of those calls
    that answered [true], so at most the number of targets.  Recording
    the calls does not change the result. *)
Theorem connects_every_other_viewpoint_once from to ignore g :
  Z.of_nat (List.length to) < 2 ^ 64 ->
  let '(n, g1) := connectViewpointToOtherViewpoints index_eqb connectViewpoints from to ignore g in
  let '(n', (g2, made)) :=
    connectViewpointToOtherViewpoints index_eqb (recording connectViewpoints)
                                      from to ignore (g, []) in
  n' = n /\ g2 = g1 /\
  map (fun c => snd (fst c)) made = filter (fun t => negb (index_eqb from t)) to /\
  Forall (fun c => fst (fst c) = from /\ snd (fst c) <> from) made /\
  n = Z.of_nat (List.length (filter (fun c => snd c) made)) /\
  0 <= n <= Z.of_nat (List.length to).
Proof.
  intros Hlen. unfold connectViewpointToOtherViewpoints.
  pose proof (connect_loop_recorded from ignore to 0 g [] (Z.le_refl 0)) as H.
  destruct (connect_loop index_eqb connectViewpoints from to ignore 0 g) as [n g1].
  destruct (connect_loop index_eqb (recording connectViewpoints) from to ignore 0 (g, []))
    as [n' [g2 made]].
  destruct H as [H1 [H2 [made' [Hlog [Hto [Hfrom Hcount]]]]]]; [lia|].
  cbn [app] in Hlog. subst made'.
  split; [exact H1|]. split; [exact H2|]. split; [exact Hto|].
  split.
  { apply Forall_forall. intros c Hc. split.
    - rewrite Forall_forall in Hfrom. apply Hfrom. exact Hc.
    - assert (Hin : In (snd (fst c)) (filter (fun t => negb (index_eqb from t)) to)).
      { rewrite <- Hto. apply (in_map (fun c => snd (fst c))). exact Hc. }
      apply filter_In in Hin. destruct Hin as [_ Hne].
      intros Heq. rewrite Heq in Hne.
      rewrite (proj2 (index_eqb_eq from from) eq_refl) in Hne. discriminate. }
  split; [lia|].
  assert (Hle : (List.length (filter (fun c : ViewpointEntryIndex * ViewpointEntryIndex * bool => snd c) made)
                 <= List.length to)%nat).
  { etransitivity; [apply filter_length_le|].
    rewrite <- (length_map (fun c => snd (fst c)) made), Hto. apply filter_length_le. }
  lia.
Qed.

(** X21.  [connectPathEntryToOtherPathEntries] does what
    [connectViewpointToOtherViewpoints] does on the viewpoint indices of
    the path entries. *)
Theorem path_entries_connect_like_their_viewpoints from_path_entry to ignore g :
  connectPathEntryToOtherPathEntries index_eqb connectViewpoints viewpoint_index
                                     from_path_entry to ignore g
  = connectViewpointToOtherViewpoints index_eqb connectViewpoints
      (viewpoint_index from_path_entry) (map viewpoint_index to) ignore g.
Proof.
  unfold connectPathEntryToOtherPathEntries, connectViewpointToOtherViewpoints.
  generalize 0 as n. revert g.
  induction to as [|e to IH]; intros g n; cbn; [reflexivity|].
  destruct (index_eqb (viewpoint_index from_path_entry) (viewpoint_index e)); [apply IH|].
  destruct (connectViewpoints _ _ ignore g) as [found g']. apply IH.
Qed.

End Connect_facts.

End ViewpointPlannerFacts.

(** ** More theorems at concrete inputs *)

Section MoreInstances.
Import Scenario MoreScenarios.

Lemma first_in_first_out_witness :
  (size half_queue + List.length [3%nat; 4%nat] <= max_queue_size_ (mkSPSC [1%nat] 3 false 0 0))%nat /\
  exists q1 q2,
    sequence (map (fun e => pushBack e true []) [3%nat; 4%nat]) (mkSPSC [1%nat] 3 false 0%nat 0%nat)
      = Returns [true; true] q1 /\
    sequence (repeat popFront 3) q1 = Returns [1%nat; 3%nat; 4%nat] q2.
Proof.
  split; [vm_compute; lia|].
  destruct (queue_is_first_in_first_out true [3%nat; 4%nat] (mkSPSC [1%nat] 3 false 0%nat 0%nat))
    as [q1 [q2 [H1 [H2 _]]]].
  - vm_compute. lia.
  - reflexivity.
  - exists q1, q2. split; [exact H1|exact H2].
Defined.

Lemma capacity_witness :
  (size full_queue <= max_queue_size_ full_queue)%nat /\
  exists q',
    pushBack 3%nat true [WTimeout; WPopFront] full_queue = Returns true q' /\
    (size q' <= max_queue_size_ q')%nat.
Proof.
  assert (Hcap : (size full_queue <= max_queue_size_ full_queue)%nat) by (vm_compute; lia).
  split; [exact Hcap|].
  assert (Hrun : exists q', pushBack 3%nat true [WTimeout; WPopFront] full_queue
                            = Returns true q')
    by (eexists; vm_compute; reflexivity).
  destruct Hrun as [q' Hrun]. exists q'. split; [exact Hrun|].
  apply (pushBack_respects_capacity 3%nat true [WTimeout; WPopFront] full_queue q' Hcap).
  rewrite Hrun. reflexivity.
Defined.

Lemma blocked_producer_witness :
  pushBack 3%nat true [WTimeout; WTimeout] full_queue = Blocked full_queue /\
  exists q',
    pushBack 3%nat true ([WTimeout; WTimeout] ++ [WPopFront; WTimeout]) full_queue
      = Returns true q' /\
    queue_ q' = [2%nat; 3%nat].
Proof.
  destruct (blocked_producer_is_released_by_pop 3%nat 1%nat [2%nat] 2 [WTimeout] full_queue
              eq_refl eq_refl eq_refl) as [Hb [q' [Hr [Hq _]]]].
  split; [exact Hb|]. exists q'. split; [exact Hr|exact Hq].
Defined.

Lemma unmatched_results_witness :
  exists q',
    newSampleCallback (PullSample frame true) [] gappy = Returns GST_FLOW_OK q' /\
    user_data_queue_ q' = user_data_queue_ gappy /\
    correspondence_fail_counter_ q' = 1.
Proof.
  destruct (proj1 (unmatched_results_are_dropped [] gappy) frame true (or_introl eq_refl))
    as [q' [H [_ [Hq Hc]]]].
  exists q'. split; [exact H|]. split; [exact Hq|exact Hc].
Defined.

Lemma newer_id_witness :
  Forall (fun e => offset (fst e) < int_to_guint64 12) (user_data_queue_ gappy) /\
  newSampleCallback (PullSample (processed 12) true) [] gappy = Undefined.
Proof.
  assert (H : Forall (fun e => offset (fst e) < int_to_guint64 12) (user_data_queue_ gappy))
    by (repeat constructor).
  split; [exact H|].
  apply (newer_id_than_all_pending_is_undefined gappy (processed 12) [] 12).
  - reflexivity.
  - discriminate.
  - reflexivity.
  - discriminate.
  - exact H.
Defined.

Lemma reopened_input_witness :
  List.length (user_data_queue_ input_closed) = max_input_queue_size_ input_closed /\
  pushData GST_FLOW_OK frame 12%nat (input_closed, []) = Returns false (input_closed, []) /\
  exists q',
    newSampleCallback (PullSample (processed 0) true) [] input_closed
      = Returns GST_FLOW_OK q' /\
    pushData GST_FLOW_OK frame 12%nat (q', [])
    = Returns true
        (set_user_data_queue_ ([entry 1 11%nat] ++ [(buffer_info_of frame, 12%nat)]) q',
         [] ++ [frame]).
Proof.
  split; [reflexivity|].
  assert (Hcb : exists q', newSampleCallback (PullSample (processed 0) true) [] input_closed
                           = Returns GST_FLOW_OK q')
    by (eexists; vm_compute; reflexivity).
  destruct Hcb as [q' Hcb].
  destruct (matched_result_reopens_input input_closed (processed 0) [] 0
              (fst (entry 0 10%nat)) 10%nat [entry 1 11%nat] q') with (next := frame)
              (user_data := 12%nat) (appsrc := @nil GstBuffer) as [H1 H2].
  - reflexivity.
  - reflexivity.
  - reflexivity.
  - vm_compute. lia.
  - reflexivity.
  - discriminate.
  - reflexivity.
  - reflexivity.
  - rewrite Hcb. reflexivity.
  - reflexivity.
  - split; [exact H1|]. exists q'. split; [exact Hcb|exact H2].
Defined.

Lemma drain_mode_witness :
  must_wait (base callback_must_wait) = true /\
  newSampleCallback (PullSample (processed 0) true) [WTimeout; WTimeout] callback_must_wait
  = Blocked (set_user_data_queue_ [] callback_must_wait) /\
  newSampleCallback (PullSample (processed 0) true)
                    ([WTimeout; WTimeout] ++ [WSetDiscardEverything true]) callback_must_wait
  = Returns GST_FLOW_OK
      (count_sink_overflow
         (set_base (setDiscardEverything true (base callback_must_wait))
                   (set_user_data_queue_ [] callback_must_wait))).
Proof.
  split; [reflexivity|].
  apply (drain_mode_releases_blocked_callback callback_must_wait (processed 0) 2 [] 0
           (fst (entry 0 10%nat)) 10%nat []).
  - reflexivity.
  - reflexivity.
  - reflexivity.
  - discriminate.
  - reflexivity.
  - reflexivity.
  - reflexivity.
Defined.

Lemma message_loop_witness :
  terminate_ (owner thread_started) = false /\
  exists s',
    gstreamerLoop bus_traffic thread_started = Returns tt s' /\
    pipeline_state s' = GST_STATE_PLAYING /\
    List.length (state_change_callback_calls s') = 2%nat.
Proof.
  split; [reflexivity|].
  destruct (message_loop_mirrors_pipeline_state bus_traffic thread_started eq_refl)
    as [s' [Hloop [_ [Hstate Hcalls]]]].
  exists s'. split; [exact Hloop|]. split; [exact Hstate|].
  rewrite Hcalls. reflexivity.
Defined.

Lemma configuration_errors_witness :
  pushInput (at_time 1) frame 0%nat (Pipeline_new DISCARD_OUTPUT_FRAMES 5 3)
  = Throws (std_runtime_error "Pipeline was not initialized")
           (Pipeline_new DISCARD_OUTPUT_FRAMES 5 3) /\
  initialize true true (Some []) default_output
  = Throws (std_runtime_error "Pipeline was already initialized") default_output.
Proof.
  split.
  - apply (proj1 (configuration_errors (Pipeline_new DISCARD_OUTPUT_FRAMES 5 3)) eq_refl).
  - apply (proj2 (configuration_errors default_output)). discriminate.
Defined.

Lemma stop_witness :
  exists p1 p2,
    stop busy = Returns tt p1 /\
    discard_everything_ (output_queue p1) = true /\
    queue_ (output_queue p1) = queue_ (output_queue busy) /\
    stop p1 = Returns tt p2 /\
    discard_everything_ (output_queue p2) = true.
Proof.
  destruct (stop_is_idempotent busy [GST_STATE_PLAYING] eq_refl)
    as [p1 [p2 (H1 & _ & Hd & _ & _ & Hq & _ & _ & _ & _ & H2 & Heq)]].
  exists p1, p2. split; [exact H1|]. split; [exact Hd|]. split; [exact Hq|].
  split; [exact H2|].
  change (discard_everything_ (output_queue p2))
    with (discard_everything_ (output_queue (set_pipeline_ None p2))).
  rewrite <- Heq. exact Hd.
Defined.

Lemma start_witness :
  exists p',
    start GST_STATE_CHANGE_SUCCESS 77 busy = Returns tt p' /\
    pipeline_ p' = Some [GST_STATE_PLAYING; GST_STATE_NULL; GST_STATE_PLAYING] /\
    queue_ (output_queue p') = [] /\
    input_side p' = input_side busy.
Proof.
  destruct (start_resets_output_but_keeps_pending busy [GST_STATE_PLAYING]
              GST_STATE_CHANGE_SUCCESS 77 eq_refl)
    as [p' (H & Hp & Hq & _ & _ & Hside & _)].
  exists p'. split; [exact H|]. split; [exact Hp|]. split; [exact Hq|exact Hside].
Defined.

Lemma watchdog_counter_witness :
  0 <= watchdog_counter_ nine_stalls /\
  0 <= watchdog_counter_ (after_submissions [(at_time 30000000000, frame, 0%nat)] nine_stalls)
     < WATCHDOG_RESET_COUNT.
Proof.
  split; [vm_compute; discriminate|].
  apply (watchdog_counter_stays_below_reset_count (at_time 30000000000) frame 0%nat
           nine_stalls false).
  - vm_compute. discriminate.
  - vm_compute. reflexivity.
Defined.

Lemma stalled_submission_witness :
  WATCHDOG_TIMEOUT <= clock_now (at_time 30000000000) - last_appsink_sample_time_ nine_stalls /\
  exists p',
    pushInput (at_time 30000000000) frame 0%nat nine_stalls = Returns false p' /\
    pipeline_ p' = Some ([GST_STATE_PLAYING] ++ [GST_STATE_NULL; GST_STATE_PLAYING]) /\
    watchdog_counter_ p' = 0 /\
    input_side p' = input_side nine_stalls.
Proof.
  assert (Ht : WATCHDOG_TIMEOUT
               <= clock_now (at_time 30000000000) - last_appsink_sample_time_ nine_stalls)
    by (vm_compute; discriminate).
  split; [exact Ht|].
  pose proof (stalled_submission_counts_or_restarts (at_time 30000000000) frame 0%nat
                nine_stalls [GST_STATE_PLAYING] eq_refl eq_refl Ht) as H.
  cbv zeta in H.
  change (WATCHDOG_RESET_COUNT <=? wrap32 (watchdog_counter_ nine_stalls + 1)) with true in H.
  cbv iota in H.
  destruct H as [p' (H & Hp & Hc & _ & _ & _ & Hside)]; [discriminate|].
  exists p'. auto.
Defined.

Lemma refused_by_appsrc_witness :
  push_ret refusing <> GST_FLOW_OK /\
  exists p',
    pushInput refusing frame 0%nat busy = Returns false p' /\
    frame_counter_ p' = frame_counter_ busy /\
    List.length (appsrc_ p') = S (List.length (appsrc_ busy)).
Proof.
  assert (Hr : push_ret refusing <> GST_FLOW_OK) by discriminate.
  split; [exact Hr|].
  destruct (refused_by_appsrc_keeps_the_id refusing frame 0%nat busy)
    as [p' [handed (H & Hfc & _ & Ha & _)]].
  - discriminate.
  - vm_compute. reflexivity.
  - exact Hr.
  - discriminate.
  - exists p'. split; [exact H|]. split; [exact Hfc|].
    rewrite Ha, length_app. cbn. lia.
Defined.

Lemma popOutput_witness :
  hasOutput busy = true /\
  exists p', popOutput busy = Returns (processed 5, 50%nat) p' /\
             getAvailableOutputSize p' = 1%nat.
Proof.
  split; [reflexivity|].
  destruct (proj2 (proj2 (popOutput_needs_output busy)) eq_refl)
    as [pair [p' (H & Hq & Hs & _)]].
  cbn in Hq. injection Hq as <- Hq.
  exists p'. split; [exact H|].
  change (getAvailableOutputSize busy) with 2%nat in Hs. lia.
Defined.

Lemma pending_order_witness :
  pending_ordered busy /\
  pending_ordered (after_submissions [(at_time 1000000000, frame, 0%nat)] busy).
Proof.
  assert (H : pending_ordered busy).
  { split; cbn; repeat constructor; lia. }
  split; [exact H|].
  apply (proj1 (pending_order_is_kept busy H) (at_time 1000000000) frame 0%nat).
  - reflexivity.
  - vm_compute. discriminate.
  - vm_compute. reflexivity.
  - vm_compute. reflexivity.
Defined.

Lemma accepted_frame_timing_witness :
  exists p' info older,
    pushInput (at_time 1000000000) frame 0%nat busy = Returns true p' /\
    user_data_queue_ (appsrcsink_queue_ p') = older ++ [(info, 0%nat)] /\
    pts info = 1000000000 /\ offset info = 9.
Proof.
  assert (H : exists p', pushInput (at_time 1000000000) frame 0%nat busy = Returns true p')
    by (eexists; vm_compute; reflexivity).
  destruct H as [p' H].
  destruct (accepted_frame_timing (at_time 1000000000) frame 0%nat busy p' H)
    as [info [handed [older [sent (Hq & _ & _ & _ & _ & Hpts & _ & _ & Hoff & _)]]]].
  - vm_compute. discriminate.
  - vm_compute. reflexivity.
  - exact I.
  - exists p', info, older. split; [exact H|]. split; [exact Hq|].
    split; [exact Hpts|exact Hoff].
Defined.

Lemma connects_witness :
  Z.of_nat (List.length [4%nat; 2%nat; 7%nat; 6%nat; 2%nat]) < 2 ^ 64 /\
  ViewpointPlanner.connectViewpointToOtherViewpoints Nat.eqb connect_same_parity
    2%nat [4%nat; 2%nat; 7%nat; 6%nat; 2%nat] false []
  = (2, [(2%nat, 4%nat); (2%nat, 6%nat)]) /\
  0 <= 2 <= 5.
Proof.
  assert (Hlen : Z.of_nat (List.length [4%nat; 2%nat; 7%nat; 6%nat; 2%nat]) < 2 ^ 64)
    by (vm_compute; reflexivity).
  split; [exact Hlen|].
  pose proof (ViewpointPlannerFacts.connects_every_other_viewpoint_once
                Nat.eqb connect_same_parity Nat.eqb_eq 2%nat
                [4%nat; 2%nat; 7%nat; 6%nat; 2%nat] false [] Hlen) as H.
  change (ViewpointPlanner.connectViewpointToOtherViewpoints Nat.eqb connect_same_parity
            2%nat [4%nat; 2%nat; 7%nat; 6%nat; 2%nat] false [])
    with (2, [(2%nat, 4%nat); (2%nat, 6%nat)]) in H.
  cbv iota beta in H.
  destruct (ViewpointPlanner.connectViewpointToOtherViewpoints Nat.eqb
              (ViewpointPlanner.recording connect_same_parity) 2%nat
              [4%nat; 2%nat; 7%nat; 6%nat; 2%nat] false ([], [])) as [n' [g2 made]].
  destruct H as (_ & _ & _ & _ & _ & Hb).
  split; [reflexivity|exact Hb].
Defined.

End MoreInstances.
